(** * business-cac: the wallet ledger, the pricing lookup and the charging middleware

    A shallow embedding of
      - [src/services/wallet.service.ts]   (WalletService),
      - [src/services/pricing.service.ts]  (PricingService.getServiceCodeFromEndpoint),
      - the wallet middleware              (chargeWallet: processCharge and the
                                            overridden res.json),
      - the in-memory store                (MemoryDatabase, the default [database]).

    Amounts are kobo.  The TypeScript [number]s that carry them are modelled
    as [Z]: the ledger only adds and subtracts them.  Values drawn from
    [Math.random()] and from the clock are passed in explicitly ([Entropy]). *)

From Stdlib Require Import ZArith Lia Ascii.
From stdpp Require Import base option list strings gmap sorting.

Local Open Scope string_scope.
Local Open Scope Z_scope.

(** ** Data model ([database/index.ts]) *)

Inductive WalletTransactionType := credit_t | debit_t.
Inductive WalletTransactionStatus := pending | completed | failed | reversed.
Inductive PaymentMethod := card | bank_transfer | admin | api_charge | refund_pm.
Inductive CustomerStatus := active | suspended | cancelled.

(** A value of a [metadata] bag ([Record<string, any>]): the ledger stores
    it and never looks inside. *)
Inductive MetaValue := MStr (s : string) | MNum (n : Z).

#[global] Instance WalletTransactionType_eq_dec : EqDecision WalletTransactionType.
Proof. solve_decision. Defined.
#[global] Instance WalletTransactionStatus_eq_dec : EqDecision WalletTransactionStatus.
Proof. solve_decision. Defined.
#[global] Instance PaymentMethod_eq_dec : EqDecision PaymentMethod.
Proof. solve_decision. Defined.

Record WalletTransactionData := mkData {
  customerId : string;
  txn_type : WalletTransactionType;
  amount : Z;
  balanceBefore : Z;
  balanceAfter : Z;
  description : string;
  reference : string;
  usageRecordId : option string;
  paymentMethod : option PaymentMethod;
  status : WalletTransactionStatus;
  metadata : option (list (string * MetaValue))
}.

(** [WalletTransaction extends WalletTransactionData]. *)
Record WalletTransaction := mkTxn {
  txn_id : string;
  data :> WalletTransactionData;
  createdAt : Z;
  completedAt : option Z
}.

(** The fields of [Customer] that the ledger reads or writes; the optional
    profile and verification fields are carried along unchanged by every
    operation below and are left out. *)
Record Customer := mkCustomer {
  cust_id : string;
  email : string;
  walletBalance : Z;
  cust_status : CustomerStatus;
  cust_createdAt : Z;
  updatedAt : Z
}.

(** [Partial<CustomerData>]. *)
Record CustomerUpdates := mkUpdates {
  upd_email : option string;
  upd_walletBalance : option Z;
  upd_status : option CustomerStatus
}.

Definition balanceUpdate (b : Z) : CustomerUpdates :=
  {| upd_email := None; upd_walletBalance := Some b; upd_status := None |}.

(** ** Errors

    The named error classes of [wallet.service.ts], the [Error]s whose
    [name] the service overwrites, and plain [Error]s thrown by the store. *)
Inductive Error :=
| InsufficientBalanceError (requiredAmount currentBalance shortfall : Z)
| WalletNotFoundError (customer : string)
| DuplicateTransactionError (ref : string)
| TransactionNotFoundError
| InvalidTransactionError
| DuplicateRefundError
| InvalidTransactionStatusError
| PlainError (message : string).

(** The constructor of [InsufficientBalanceError] computes the shortfall. *)
Definition newInsufficientBalanceError (requiredAmount currentBalance : Z) : Error :=
  let shortfall := requiredAmount - currentBalance in
  InsufficientBalanceError requiredAmount currentBalance shortfall.

Inductive Outcome (A : Type) : Type :=
| Ok (a : A)
| Throw (e : Error).
Arguments Ok {A} a.
Arguments Throw {A} e.

(** ** Randomness and time

    What one service call draws from [Date.now()], [new Date()] and
    [Math.random()]. *)
Record Entropy := mkEntropy {
  clock : Z;               (* now(), new Date() *)
  timestamp36 : string;    (* Date.now().toString(36) *)
  randomRef : string;      (* Math.random().toString(36).slice(2, 8) *)
  randomId : string        (* Math.random().toString(36).slice(2, 10) *)
}.

(** ** Async functions

    An [async] function body is a tree: synchronous statements ([Sync]),
    [await]s of a store call ([Await]), and its two ways of settling.
    The store call of an [Await] is evaluated when the [await] expression
    is reached (the methods of [MemoryDatabase] read and write their maps
    before their own first [await]); the continuation runs when the
    function is resumed.  Awaiting another function of the service is
    sequencing ([bind]). *)
Inductive Async (S A : Type) : Type :=
| Return (a : A)
| Raise (e : Error)
| Sync {X : Type} (act : S -> X * S) (k : X -> Async S A)
| Await {X : Type} (call : S -> Outcome X * S) (k : Outcome X -> Async S A).
Arguments Return {S A} a.
Arguments Raise {S A} e.
Arguments Sync {S A X} act k.
Arguments Await {S A X} call k.

Fixpoint bind {S A B} (p : Async S A) (f : A -> Async S B) : Async S B :=
  match p with
  | Return a => f a
  | Raise e => Raise e
  | Sync act k => Sync act (fun x => bind (k x) f)
  | Await call k => Await call (fun o => bind (k o) f)
  end.

(** [try { body } catch (error) { handler }]. *)
Fixpoint try_catch {S A} (body : Async S A) (handler : Error -> Async S A) : Async S A :=
  match body with
  | Return a => Return a
  | Raise e => handler e
  | Sync act k => Sync act (fun x => try_catch (k x) handler)
  | Await call k => Await call (fun o => try_catch (k o) handler)
  end.

(** [await call]: a rejected promise is rethrown at the [await]. *)
Definition await {S X} (call : S -> Outcome X * S) : Async S X :=
  Await call (fun o => match o with Ok x => Return x | Throw e => Raise e end).

Definition sync {S X} (act : S -> X * S) : Async S X := Sync act Return.

Notation "'let*' x ':=' p 'in' q" := (bind p (fun x => q))
  (at level 10, x pattern, p at level 100, q at level 200).

(** An async function that is awaited by its caller and not interleaved
    with anything else runs from its first statement to its last. *)
Fixpoint run {S A} (p : Async S A) (s : S) : Outcome A * S :=
  match p with
  | Return a => (Ok a, s)
  | Raise e => (Throw e, s)
  | Sync act k => let '(x, s') := act s in run (k x) s'
  | Await call k => let '(o, s') := call s in run (k o) s'
  end.

(** A call that is not awaited runs only up to its first [await]: it
    evaluates the awaited call, then hands back the suspended rest of the
    function ([inr]), unless it settled before reaching any [await]. *)
Fixpoint start {S A} (p : Async S A) (s : S) : (Outcome A + Async S A) * S :=
  match p with
  | Return a => (inl (Ok a), s)
  | Raise e => (inl (Throw e), s)
  | Sync act k => let '(x, s') := act s in start (k x) s'
  | Await call k => let '(o, s') := call s in (inr (k o), s')
  end.

(** Running a function on one component of a larger state. *)
Fixpoint lift {S T A} (get : T -> S) (put : S -> T -> T) (p : Async S A) : Async T A :=
  match p with
  | Return a => Return a
  | Raise e => Raise e
  | Sync act k =>
      Sync (fun t => let '(x, s') := act (get t) in (x, put s' t))
           (fun x => lift get put (k x))
  | Await call k =>
      Await (fun t => let '(o, s') := call (get t) in (o, put s' t))
            (fun o => lift get put (k o))
  end.

(** ** The in-memory store ([MemoryDatabase]) *)

(** A JavaScript [Map] keeps its entries in insertion order; [set] on a
    key that is present replaces the value in place. *)
Fixpoint map_set {V} (key : string) (v : V) (m : list (string * V)) : list (string * V) :=
  match m with
  | [] => [(key, v)]
  | (k, x) :: m' => if String.eqb k key then (key, v) :: m' else (k, x) :: map_set key v m'
  end.

Fixpoint map_get {V} (key : string) (m : list (string * V)) : option V :=
  match m with
  | [] => None
  | (k, x) :: m' => if String.eqb k key then Some x else map_get key m'
  end.

Definition map_values {V} (m : list (string * V)) : list V := map snd m.

Record Database := mkDb {
  customers : gmap string Customer;
  walletTransactions : list (string * WalletTransaction)
}.

Module MemoryDatabase.

Definition getCustomer (customerId : string) (db : Database) : Outcome (option Customer) * Database :=
  (Ok (customers db !! customerId), db).

Definition applyUpdates (cur : Customer) (updates : CustomerUpdates) (now : Z) : Customer :=
  {| cust_id := cust_id cur;
     email := default (email cur) (upd_email updates);
     walletBalance := default (walletBalance cur) (upd_walletBalance updates);
     cust_status := default (cust_status cur) (upd_status updates);
     cust_createdAt := cust_createdAt cur;
     updatedAt := now |}.

Definition updateCustomer (customerId : string) (updates : CustomerUpdates) (now : Z)
    (db : Database) : Outcome Customer * Database :=
  match customers db !! customerId with
  | None => (Throw (PlainError "CUSTOMER_NOT_FOUND"), db)
  | Some cur =>
      let next := applyUpdates cur updates now in
      (Ok next, {| customers := <[customerId := next]> (customers db);
                   walletTransactions := walletTransactions db |})
  end.

Definition createWalletTransaction (transactionData : WalletTransactionData) (e : Entropy)
    (db : Database) : Outcome WalletTransaction * Database :=
  let id := "txn_" +:+ randomId e in
  let transaction :=
    {| txn_id := id;
       data := transactionData;
       createdAt := clock e;
       completedAt := if decide (status transactionData = completed)
                      then Some (clock e) else None |} in
  (Ok transaction, {| customers := customers db;
                      walletTransactions := map_set id transaction (walletTransactions db) |}).

Definition getWalletTransaction (transactionId : string) (db : Database)
    : Outcome (option WalletTransaction) * Database :=
  (Ok (map_get transactionId (walletTransactions db)), db).

Definition getWalletTransactionByReference (ref : string) (db : Database)
    : Outcome (option WalletTransaction) * Database :=
  (Ok (find (fun txn : WalletTransaction => String.eqb (reference txn) ref) (map_values (walletTransactions db))), db).

Definition withStatus (d : WalletTransactionData) (st : WalletTransactionStatus)
    : WalletTransactionData :=
  {| customerId := customerId d; txn_type := txn_type d; amount := amount d;
     balanceBefore := balanceBefore d; balanceAfter := balanceAfter d;
     description := description d; reference := reference d;
     usageRecordId := usageRecordId d; paymentMethod := paymentMethod d;
     status := st; metadata := metadata d |}.

Definition updateWalletTransactionStatus (transactionId : string)
    (st : WalletTransactionStatus) (completedAtArg : option Z) (now : Z)
    (db : Database) : Outcome WalletTransaction * Database :=
  match map_get transactionId (walletTransactions db) with
  | None => (Throw (PlainError "Transaction not found"), db)
  | Some transaction =>
      let updated :=
        {| txn_id := txn_id transaction;
           data := withStatus transaction st;
           createdAt := createdAt transaction;
           completedAt :=
             match completedAtArg with
             | Some d => Some d
             | None => if decide (st = completed) then Some now else completedAt transaction
             end |} in
      (Ok updated, {| customers := customers db;
                      walletTransactions := map_set transactionId updated (walletTransactions db) |})
  end.

End MemoryDatabase.

(** ** WalletService ([wallet.service.ts]) *)

Definition toUpperChar (c : ascii) : ascii :=
  let n := nat_of_ascii c in
  if (Nat.leb 97 n && Nat.leb n 122)%bool then ascii_of_nat (n - 32) else c.

(** [String.prototype.toUpperCase] on the ASCII letters, which is all the
    generated references contain when the service code is ASCII. *)
Fixpoint toUpperCase (s : string) : string :=
  match s with
  | EmptyString => EmptyString
  | String c s' => String (toUpperChar c) (toUpperCase s')
  end.

(** [x || fallback] on an optional string: [undefined] and the empty
    string are both falsy. *)
Definition orElse (x : option string) (fallback : string) : string :=
  match x with
  | Some s => if String.eqb s "" then fallback else s
  | None => fallback
  end.

Record DebitOptions := mkDebitOptions {
  opt_reference : option string;
  opt_serviceCode : option string;
  opt_usageRecordId : option string;
  opt_metadata : option (list (string * MetaValue))
}.

Record CreditOptions := mkCreditOptions {
  copt_reference : option string;
  copt_paymentMethod : option PaymentMethod;
  copt_metadata : option (list (string * MetaValue))
}.

Definition noDebitOptions : DebitOptions := mkDebitOptions None None None None.
Definition noCreditOptions : CreditOptions := mkCreditOptions None None None.

(** [WalletBalance]; the derived [balanceNaira] and [formattedBalance]
    are renderings of [balanceKobo]. *)
Record WalletBalance := mkBalance {
  wb_customerId : string;
  balanceKobo : Z
}.

(** [DebitResult] and [CreditResult] (the same shape; [success] is the
    constant [true]). *)
Record ChargeResult := mkResult {
  transaction : WalletTransaction;
  newBalance : WalletBalance
}.

Module WalletService.
Import MemoryDatabase.

Definition generateReference (type : WalletTransactionType) (prefix : option string)
    (e : Entropy) : string :=
  let timestamp := timestamp36 e in
  let random := randomRef e in
  let typePrefix := match type with credit_t => "CR" | debit_t => "DR" end in
  toUpperCase (orElse prefix "TXN" +:+ "_" +:+ typePrefix +:+ "_" +:+ timestamp +:+ "_" +:+ random).

Definition formatBalance (customerId : string) (balanceKobo : Z) : WalletBalance :=
  {| wb_customerId := customerId; balanceKobo := balanceKobo |}.

Definition getBalance (customerId : string) : Async Database WalletBalance :=
  let* customer := await (getCustomer customerId) in
  match customer with
  | None => Raise (WalletNotFoundError customerId)
  | Some customer => Return (formatBalance customerId (walletBalance customer))
  end.

Definition hasSufficientBalance (customerId : string) (amountKobo : Z) : Async Database bool :=
  let* balance := getBalance customerId in
  Return (balanceKobo balance >=? amountKobo).

Definition debit (customerId : string) (amountKobo : Z) (description : string)
    (options : DebitOptions) (e : Entropy) : Async Database ChargeResult :=
  let* customer := await (getCustomer customerId) in
  match customer with
  | None => Raise (WalletNotFoundError customerId)
  | Some customer =>
      let balanceBefore := walletBalance customer in
      if balanceBefore <? amountKobo
      then Raise (newInsufficientBalanceError amountKobo balanceBefore)
      else
        let reference :=
          orElse (opt_reference options) (generateReference debit_t (opt_serviceCode options) e) in
        let* existingTxn := await (getWalletTransactionByReference reference) in
        match existingTxn with
        | Some _ => Raise (DuplicateTransactionError reference)
        | None =>
            let balanceAfter := balanceBefore - amountKobo in
            let transactionData :=
              {| customerId := customerId; txn_type := debit_t; amount := amountKobo;
                 balanceBefore := balanceBefore; balanceAfter := balanceAfter;
                 description := description; reference := reference;
                 usageRecordId := opt_usageRecordId options;
                 paymentMethod := Some api_charge; status := completed;
                 metadata := opt_metadata options |} in
            let* transaction := await (createWalletTransaction transactionData e) in
            let* _ := await (updateCustomer customerId (balanceUpdate balanceAfter) (clock e)) in
            Return {| transaction := transaction;
                      newBalance := formatBalance customerId balanceAfter |}
        end
  end.

Definition credit (customerId : string) (amountKobo : Z) (description : string)
    (options : CreditOptions) (e : Entropy) : Async Database ChargeResult :=
  let* customer := await (getCustomer customerId) in
  match customer with
  | None => Raise (WalletNotFoundError customerId)
  | Some customer =>
      let balanceBefore := walletBalance customer in
      let reference :=
        orElse (copt_reference options) (generateReference credit_t None e) in
      let* existingTxn := await (getWalletTransactionByReference reference) in
      match existingTxn with
      | Some _ => Raise (DuplicateTransactionError reference)
      | None =>
          let balanceAfter := balanceBefore + amountKobo in
          let transactionData :=
            {| customerId := customerId; txn_type := credit_t; amount := amountKobo;
               balanceBefore := balanceBefore; balanceAfter := balanceAfter;
               description := description; reference := reference;
               usageRecordId := None;
               paymentMethod := Some (default card (copt_paymentMethod options));
               status := completed;
               metadata := copt_metadata options |} in
          let* transaction := await (createWalletTransaction transactionData e) in
          let* _ := await (updateCustomer customerId (balanceUpdate balanceAfter) (clock e)) in
          Return {| transaction := transaction;
                    newBalance := formatBalance customerId balanceAfter |}
      end
  end.

Definition refund (originalTransactionId : string) (reason : string) (e : Entropy)
    : Async Database ChargeResult :=
  let* originalTxn := await (getWalletTransaction originalTransactionId) in
  match originalTxn with
  | None => Raise TransactionNotFoundError
  | Some originalTxn =>
      if negb (bool_decide (txn_type originalTxn = debit_t)) then Raise InvalidTransactionError
      else if bool_decide (status originalTxn = reversed) then Raise DuplicateRefundError
      else
        let* result :=
          credit (customerId originalTxn) (amount originalTxn) ("Refund: " +:+ reason)
            {| copt_reference := None;
               copt_paymentMethod := Some refund_pm;
               copt_metadata := Some [("originalTransactionId", MStr originalTransactionId);
                                      ("refundReason", MStr reason)] |} e in
        let* _ := await (updateWalletTransactionStatus originalTransactionId reversed None (clock e)) in
        Return result
  end.

Definition reserveBalance (customerId : string) (amountKobo : Z) (description : string)
    (serviceCode : option string) (e : Entropy) : Async Database WalletTransaction :=
  let* customer := await (getCustomer customerId) in
  match customer with
  | None => Raise (WalletNotFoundError customerId)
  | Some customer =>
      if walletBalance customer <? amountKobo
      then Raise (newInsufficientBalanceError amountKobo (walletBalance customer))
      else
        let reference := generateReference debit_t serviceCode e in
        let balanceBefore := walletBalance customer in
        let balanceAfter := balanceBefore - amountKobo in
        let* transaction :=
          await (createWalletTransaction
                   {| customerId := customerId; txn_type := debit_t; amount := amountKobo;
                      balanceBefore := balanceBefore; balanceAfter := balanceAfter;
                      description := description; reference := reference;
                      usageRecordId := None; paymentMethod := Some api_charge;
                      status := pending; metadata := None |} e) in
        Return transaction
  end.

Definition completeReservation (transactionId : string) (e : Entropy)
    : Async Database ChargeResult :=
  let* transaction := await (getWalletTransaction transactionId) in
  match transaction with
  | None => Raise TransactionNotFoundError
  | Some transaction =>
      if negb (bool_decide (status transaction = pending)) then Raise InvalidTransactionStatusError
      else
        let* _ := await (updateCustomer (customerId transaction)
                           (balanceUpdate (balanceAfter transaction)) (clock e)) in
        let* completedTxn :=
          await (updateWalletTransactionStatus transactionId completed (Some (clock e)) (clock e)) in
        Return {| transaction := completedTxn;
                  newBalance := formatBalance (customerId transaction) (balanceAfter transaction) |}
  end.

Definition cancelReservation (transactionId : string) (e : Entropy) : Async Database unit :=
  let* transaction := await (getWalletTransaction transactionId) in
  match transaction with
  | None => Raise TransactionNotFoundError
  | Some transaction =>
      if negb (bool_decide (status transaction = pending)) then Raise InvalidTransactionStatusError
      else
        let* _ := await (updateWalletTransactionStatus transactionId failed None (clock e)) in
        Return tt
  end.

End WalletService.

(** ** PricingService.getServiceCodeFromEndpoint ([pricing.service.ts]) *)

Module PricingService.

(** [s.split(sep)] for a one-character separator. *)
Fixpoint split (sep : ascii) (s : string) : list string :=
  match s with
  | EmptyString => [EmptyString]
  | String c s' =>
      if Ascii.eqb c sep then EmptyString :: split sep s'
      else match split sep s' with
           | w :: ws => String c w :: ws
           | [] => [String c EmptyString]
           end
  end.

(** [Boolean(s)] on a string. *)
Definition truthy (s : string) : bool := negb (String.eqb s "").

Definition knownServiceCodes : list string :=
  [ "name-search"; "name-registration"; "company-registration";
    "drivers-license-verification"; "passport-verification";
    "voters-card-verification"; "passport-face-verification"; "bvn-basic" ].

Definition includes (l : list string) (x : string) : bool :=
  existsb (String.eqb x) l.

(** [l.indexOf(x)], with [None] for [-1]. *)
Fixpoint indexOf (l : list string) (x : string) : option nat :=
  match l with
  | [] => None
  | y :: l' => if String.eqb y x then Some O else S <$> indexOf l' x
  end.

Definition isDigit (c : ascii) : bool :=
  let n := nat_of_ascii c in (Nat.leb 48 n && Nat.leb n 57)%bool.

(** [/[0-9]/.test(s)]. *)
Fixpoint hasDigit (s : string) : bool :=
  match s with
  | EmptyString => false
  | String c s' => isDigit c || hasDigit s'
  end.

(** [endpoint.split('?')[0].split('/').filter(Boolean)]. *)
Definition pathSegments (endpoint : string) : list string :=
  let pathOnly := default "" (split "?" endpoint !! O) in
  List.filter truthy (split "/" pathOnly).

(** "Last fallback": with two segments or more, the second-to-last when
    the last contains a digit, else the last; with fewer,
    [segments[segments.length - 1] || null].  The segments are read from
    the end. *)
Definition lastFallback (segments : list string) : option string :=
  match reverse segments with
  | lastSegment :: secondToLast :: _ =>
      if hasDigit lastSegment then Some secondToLast else Some lastSegment
  | [only] => if truthy only then Some only else None
  | [] => None
  end.

(** "Fallback: look for business routes pattern", and behind it the last
    fallback. *)
Definition businessFallback (segments : list string) : option string :=
  match indexOf segments "business" with
  | Some businessIndex =>
      if (businessIndex + 1 <? length segments)%nat then
        let nextSegment := segments !! (businessIndex + 1)%nat in
        if (bool_decide (nextSegment = Some "identity")
            && (businessIndex + 2 <? length segments)%nat)%bool
        then segments !! (businessIndex + 2)%nat
        else nextSegment
      else lastFallback segments
  | None => lastFallback segments
  end.

Definition getServiceCodeFromEndpoint (endpoint : string) : option string :=
  let segments := pathSegments endpoint in
  match find (includes knownServiceCodes) segments with
  | Some segment => Some segment
  | None => businessFallback segments
  end.

End PricingService.

(** ** The wallet middleware ([chargeWallet]) *)

Record WalletContext := mkContext {
  serviceCode : string;
  priceKobo : Z;
  ctx_balanceBefore : Z;
  charged : bool;
  transactionId : option string;
  chargeError : option string
}.

Record Request := mkRequest {
  req_customer : option Customer;
  walletContext : option WalletContext;
  originalUrl : string;
  method : string;
  requestId : option string
}.

Inductive LogType := CHECK | CHARGE | SKIP | ERROR.

(** A line written by [logWalletOperation] or by [console.error]; the
    JSON payload of the line is not kept. *)
Inductive LogLine :=
| WalletLog (type : LogType) (message : string)
| ConsoleError (message : string).

(** What one [chargeWallet] closure can see: the store, the request, the
    response status, its own [hasCharged] flag, and the console. *)
Record World := mkWorld {
  db : Database;
  req : Request;
  statusCode : Z;
  hasCharged : bool;
  console : list LogLine
}.

Definition errorMessage (e : Error) : string :=
  match e with
  | InsufficientBalanceError _ _ _ => "Insufficient wallet balance for transaction"
  | WalletNotFoundError _ => "Wallet not found"
  | DuplicateTransactionError _ => "Duplicate transaction detected"
  | TransactionNotFoundError => "Transaction not found"
  | InvalidTransactionError => "Invalid transaction type for refund"
  | DuplicateRefundError => "Transaction already refunded"
  | InvalidTransactionStatusError => "Transaction is not in pending status"
  | PlainError m => m
  end.

Module WalletMiddleware.

Definition setDb (d : Database) (w : World) : World :=
  {| db := d; req := req w; statusCode := statusCode w;
     hasCharged := hasCharged w; console := console w |}.

Definition setHasCharged (b : bool) (w : World) : World :=
  {| db := db w; req := req w; statusCode := statusCode w;
     hasCharged := b; console := console w |}.

Definition setWalletContext (f : WalletContext -> WalletContext) (w : World) : World :=
  {| db := db w;
     req := {| req_customer := req_customer (req w);
               walletContext := f <$> walletContext (req w);
               originalUrl := originalUrl (req w);
               method := method (req w);
               requestId := requestId (req w) |};
     statusCode := statusCode w; hasCharged := hasCharged w; console := console w |}.

Definition writeLine (l : LogLine) (w : World) : unit * World :=
  (tt, {| db := db w; req := req w; statusCode := statusCode w;
          hasCharged := hasCharged w; console := console w ++ [l] |}).

Definition logWalletOperation (type : LogType) (message : string) : Async World unit :=
  sync (writeLine (WalletLog type message)).

Definition consoleError (message : string) : Async World unit :=
  sync (writeLine (ConsoleError message)).

(** [WalletService.debit], called from the middleware. *)
Definition walletDebit (customerId : string) (amountKobo : Z) (description : string)
    (options : DebitOptions) (e : Entropy) : Async World ChargeResult :=
  lift db setDb (WalletService.debit customerId amountKobo description options e).

Definition markCharged (id : string) (c : WalletContext) : WalletContext :=
  {| serviceCode := serviceCode c; priceKobo := priceKobo c;
     ctx_balanceBefore := ctx_balanceBefore c;
     charged := true; transactionId := Some id; chargeError := chargeError c |}.

Definition markChargeError (m : string) (c : WalletContext) : WalletContext :=
  {| serviceCode := serviceCode c; priceKobo := priceKobo c;
     ctx_balanceBefore := ctx_balanceBefore c;
     charged := charged c; transactionId := transactionId c; chargeError := Some m |}.

(** The options object that [processCharge] passes to [debit]. *)
Definition chargeOptions (r : Request) (statusCode : Z) (serviceCode : string) (e : Entropy)
    : DebitOptions :=
  {| opt_reference := None;
     opt_serviceCode := Some serviceCode;
     opt_usageRecordId := None;
     opt_metadata :=
       Some [("endpoint", MStr (originalUrl r));
             ("method", MStr (method r));
             ("requestId", MStr (default "" (requestId r)));
             ("statusCode", MNum statusCode);
             ("timestamp", MNum (clock e))] |}.

(** [processCharge].  The guards read the closure flag, the request and
    the response status in one go; the log lines keep the fixed part of
    their message. *)
Definition processCharge (e : Entropy) : Async World bool :=
  let* w := sync (fun w => (w, w)) in
  if hasCharged w then Return true
  else
    match walletContext (req w) with
    | None => Return true
    | Some ctx =>
        if charged ctx then Return true
        else if priceKobo ctx =? 0 then Return true
        else
          match req_customer (req w) with
          | None =>
              let* _ := logWalletOperation SKIP "No customer attached to request" in
              Return true
          | Some customer =>
              let statusCode := statusCode w in
              if ((statusCode <? 200) || (statusCode >=? 300))%bool then
                let* _ := logWalletOperation SKIP "Non-2xx response, no charge" in
                Return true
              else
                let* _ := sync (fun w => (tt, setHasCharged true w)) in
                let serviceCode := serviceCode ctx in
                let priceKobo := priceKobo ctx in
                let customerId := cust_id customer in
                try_catch
                  (let* result :=
                     walletDebit customerId priceKobo ("API: " +:+ serviceCode)
                       (chargeOptions (req w) statusCode serviceCode e) e in
                   let* _ := sync (fun w =>
                               (tt, setWalletContext (markCharged (txn_id (transaction result))) w)) in
                   let* _ := logWalletOperation CHARGE ("Successfully charged for " +:+ serviceCode) in
                   Return true)
                  (fun error =>
                     let* _ := sync (fun w =>
                                 (tt, setWalletContext (markChargeError (errorMessage error)) w)) in
                     let* _ := logWalletOperation ERROR "CHARGE FAILED - REQUIRES RECONCILIATION" in
                     Return false)
          end
    end.

(** The body of the [async] arrow function that [res.json] and
    [res.send] call and do not await. *)
Definition chargeTask (e : Entropy) : Async World unit :=
  try_catch
    (let* success := processCharge e in
     if negb success
     then consoleError "[Wallet] Charge failed - see logs for reconciliation"
     else Return tt)
    (fun error => consoleError "[Wallet] Unexpected error in charge processing:").

(** The overridden [res.json(body)]: it calls the async arrow function,
    which runs up to its first [await]; it then returns
    [originalJson(body)], which releases the response; the suspended
    rest of the arrow function is resumed after that.  [released] is
    the world in which [originalJson(body)] is called, [settled] the
    world once the arrow function has run to its end. *)
Record Response := mkResponse {
  released : World;
  settled : World
}.

Definition res_json (e : Entropy) (w : World) : Response :=
  let '(r, w1) := start (chargeTask e) w in
  {| released := w1;
     settled := match r with
                | inl _ => w1
                | inr rest => (run rest w1).2
                end |}.

(** The post-check stage invoked several times on one request, the
    response status being whatever it is at each invocation. *)
Definition invoke (w : World) (call : Z * Entropy) : World :=
  let w' := {| db := db w; req := req w; statusCode := call.1;
               hasCharged := hasCharged w; console := console w |} in
  (run (processCharge call.2) w').2.

Definition invokeAll (calls : list (Z * Entropy)) (w : World) : World :=
  foldl invoke w calls.

End WalletMiddleware.

(** ** Vocabulary of the statements *)

(** The stored balance of an account. *)
Definition balanceOf (db : Database) (customerId : string) : option Z :=
  walletBalance <$> customers db !! customerId.

(** The first stored transaction that carries a reference, as
    [getWalletTransactionByReference] finds it. *)
Definition byReference (ref : string) (db : Database) : option WalletTransaction :=
  find (fun txn : WalletTransaction => String.eqb (reference txn) ref)
       (map_values (walletTransactions db)).

(** The stored transaction with a given id. *)
Definition txnOf (db : Database) (transactionId : string) : option WalletTransaction :=
  map_get transactionId (walletTransactions db).

(** The reference a call of [debit] / [credit] will use. *)
Definition debitReference (o : DebitOptions) (e : Entropy) : string :=
  orElse (opt_reference o) (WalletService.generateReference debit_t (opt_serviceCode o) e).

Definition creditReference (o : CreditOptions) (e : Entropy) : string :=
  orElse (copt_reference o) (WalletService.generateReference credit_t None e).

(** The completed transactions of an account, oldest first (the store
    keeps transactions in the order they were created). *)
Definition isCompletedOf (customer : string) (t : WalletTransaction) : bool :=
  (String.eqb (customerId t) customer && bool_decide (status t = completed))%bool.

Definition completedOf (db : Database) (customer : string) : list WalletTransaction :=
  List.filter (isCompletedOf customer) (map_values (walletTransactions db)).

(** [balanceAfter] of each transaction is [balanceBefore] of the next. *)
Fixpoint chained (l : list WalletTransaction) : bool :=
  match l with
  | t :: ((t' :: _) as rest) => (balanceAfter t =? balanceBefore t') && chained rest
  | _ => true
  end.

(** The balance the history accounts for: [balanceAfter] of the most
    recent transaction, or the initial balance. *)
Definition closingBalance (initial : Z) (l : list WalletTransaction) : Z :=
  match last l with
  | Some t => balanceAfter t
  | None => initial
  end.

Definition consistent (initial : Z) (db : Database) (customer : string) : Prop :=
  chained (completedOf db customer) = true ∧
  balanceOf db customer = Some (closingBalance initial (completedOf db customer)).

(** The status of the stored transaction with a given id. *)
Definition statusOf (db : Database) (transactionId : string) : option WalletTransactionStatus :=
  (fun t : WalletTransaction => status t) <$> txnOf db transactionId.

(** One successful [debit] or [credit] whose transaction id is fresh. *)
Inductive ledgerStep : Database → Database → Prop :=
| step_debit db cid a d o e res db1 :
    txnOf db ("txn_" +:+ randomId e) = None →
    run (WalletService.debit cid a d o e) db = (Ok res, db1) →
    ledgerStep db db1
| step_credit db cid a d o e res db1 :
    txnOf db ("txn_" +:+ randomId e) = None →
    run (WalletService.credit cid a d o e) db = (Ok res, db1) →
    ledgerStep db db1.

(** No segment is one of the known service codes. *)
Definition noKnownCode (segments : list string) : Prop :=
  Forall (λ seg, seg ∉ PricingService.knownServiceCodes) segments.

(** ** A sample store: the seed customer of [MemoryDatabase.load] with a
    small balance. *)
Definition seedCustomer (balance : Z) : Customer :=
  {| cust_id := "cust_001"; email := "customer@example.com"; walletBalance := balance;
     cust_status := active; cust_createdAt := 0; updatedAt := 0 |}.

Definition seedDb (balance : Z) : Database :=
  {| customers := {[ "cust_001" := seedCustomer balance ]}; walletTransactions := [] |}.

(** The draws of the [n]-th call in a sample run. *)
Definition draw (n : Z) (r : string) : Entropy :=
  {| clock := n; timestamp36 := "kx0" +:+ r; randomRef := r; randomId := r |}.

Definition withReference (r : string) : DebitOptions :=
  {| opt_reference := Some r; opt_serviceCode := None;
     opt_usageRecordId := None; opt_metadata := None |}.

Definition creditWithReference (r : string) : CreditOptions :=
  {| copt_reference := Some r; copt_paymentMethod := None; copt_metadata := None |}.

(** A request for the priced endpoint [name-search], as
    [checkWalletBalance] leaves it for the post-check stage. *)
Definition sampleRequest (balance price : Z) : Request :=
  {| req_customer := Some (seedCustomer balance);
     walletContext :=
       Some {| serviceCode := "name-search"; priceKobo := price;
               ctx_balanceBefore := balance; charged := false;
               transactionId := None; chargeError := None |};
     originalUrl := "/api/v1/business/name-search";
     method := "POST";
     requestId := Some "req-1" |}.

Definition sampleWorld (balance price status : Z) : World :=
  {| db := seedDb balance; req := sampleRequest balance price;
     statusCode := status; hasCharged := false; console := [] |}.

(** ** The rest of WalletService: admin adjustments and history *)

(** [ListOptions]: the two fields the store reads. *)
Record ListOptions := mkListOptions {
  limit : option Z;
  offset : option Z
}.

Definition noListOptions : ListOptions := mkListOptions None None.

(** [TransactionHistory]. *)
Record TransactionHistory := mkHistory {
  transactions : list WalletTransaction;
  total : nat;
  totalCredits : Z;
  totalDebits : Z;
  netChange : Z
}.

(** [a.slice(start)] on a list of length [n]: a negative [start] counts
    from the end. *)
Definition sliceFrom {A} (start : Z) (l : list A) : list A :=
  let n := Z.of_nat (length l) in
  let from := if start <? 0 then Z.max (n + start) 0 else Z.min start n in
  drop (Z.to_nat from) l.

(** [a.slice(0, end)]. *)
Definition sliceTo {A} (stop : Z) (l : list A) : list A :=
  let n := Z.of_nat (length l) in
  let to := if stop <? 0 then Z.max (n + stop) 0 else Z.min stop n in
  take (Z.to_nat to) l.

(** [Array.prototype.sort] with the comparator
    [(a, b) => b.createdAt - a.createdAt]: newest first, and stable, so
    transactions created at the same instant keep their order. *)
Fixpoint insertNewestFirst (t : WalletTransaction) (l : list WalletTransaction)
    : list WalletTransaction :=
  match l with
  | [] => [t]
  | u :: l' => if createdAt u <=? createdAt t then t :: u :: l' else u :: insertNewestFirst t l'
  end.

Definition sortNewestFirst (l : list WalletTransaction) : list WalletTransaction :=
  foldr insertNewestFirst [] l.

Module MemoryLedgerQueries.

Definition listWalletTransactions (customer : string) (options : ListOptions) (db : Database)
    : Outcome (list WalletTransaction * nat) * Database :=
  let transactions :=
    sortNewestFirst
      (List.filter (fun t : WalletTransaction => String.eqb (customerId t) customer)
                   (map_values (walletTransactions db))) in
  let total := length transactions in
  let transactions :=
    match offset options with
    | Some o => if o =? 0 then transactions else sliceFrom o transactions
    | None => transactions
    end in
  let transactions :=
    match limit options with
    | Some n => if n =? 0 then transactions else sliceTo n transactions
    | None => transactions
    end in
  (Ok (transactions, total), db).

Definition getAllWalletTransactions (db : Database)
    : Outcome (list WalletTransaction) * Database :=
  (Ok (sortNewestFirst (map_values (walletTransactions db))), db).

End MemoryLedgerQueries.

Module WalletAdmin.
Import MemoryLedgerQueries.

Definition adminCredit (customerId : string) (amountKobo : Z) (reason adminId : string)
    (e : Entropy) : Async Database ChargeResult :=
  WalletService.credit customerId amountKobo ("Admin Credit: " +:+ reason)
    {| copt_reference := None;
       copt_paymentMethod := Some admin;
       copt_metadata := Some [("adminId", MStr adminId); ("reason", MStr reason);
                              ("adjustmentType", MStr "credit")] |} e.

Definition adminDebit (customerId : string) (amountKobo : Z) (reason adminId : string)
    (e : Entropy) : Async Database ChargeResult :=
  WalletService.debit customerId amountKobo ("Admin Debit: " +:+ reason)
    {| opt_reference := None; opt_serviceCode := None; opt_usageRecordId := None;
       opt_metadata := Some [("adminId", MStr adminId); ("reason", MStr reason);
                             ("adjustmentType", MStr "debit")] |} e.

(** One round of the summary loop of [getTransactionHistory]. *)
Definition addToSummary (acc : Z * Z) (txn : WalletTransaction) : Z * Z :=
  let '(totalCredits, totalDebits) := acc in
  if (bool_decide (txn_type txn = credit_t) && bool_decide (status txn = completed))%bool
  then (totalCredits + amount txn, totalDebits)
  else if (bool_decide (txn_type txn = debit_t) && bool_decide (status txn = completed))%bool
  then (totalCredits, totalDebits + amount txn)
  else (totalCredits, totalDebits).

Definition getTransactionHistory (customerId : string) (options : ListOptions)
    : Async Database TransactionHistory :=
  let* listed := await (listWalletTransactions customerId options) in
  let '(transactions, total) := listed in
  let '(totalCredits, totalDebits) := foldl addToSummary (0, 0) transactions in
  Return {| transactions := transactions; total := total;
            totalCredits := totalCredits; totalDebits := totalDebits;
            netChange := totalCredits - totalDebits |}.

Definition getTransaction (transactionId : string) : Async Database (option WalletTransaction) :=
  await (MemoryDatabase.getWalletTransaction transactionId).

Definition getTransactionByReference (ref : string) : Async Database (option WalletTransaction) :=
  await (MemoryDatabase.getWalletTransactionByReference ref).

End WalletAdmin.

(** ** Service pricing: the store and the cached lookup *)

Record ServicePricingData := mkPricingData {
  sp_serviceCode : string;
  serviceName : string;
  sp_priceKobo : Z;
  currency : string;
  sp_description : option string;
  isActive : bool
}.

(** [ServicePricing extends ServicePricingData]. *)
Record ServicePricing := mkPricing {
  sp_id : string;
  sp_data :> ServicePricingData;
  sp_createdAt : Z;
  sp_updatedAt : Z
}.

(** The [updates] argument of [updatePrice]. *)
Record PricingUpdates := mkPricingUpdates {
  pu_priceKobo : option Z;
  pu_serviceName : option string;
  pu_description : option string;
  pu_isActive : option bool
}.

(** The pricing table of the store together with the two module-level
    variables of [pricing.service.ts]. *)
Record PricingState := mkPricingState {
  servicePricing : gmap string ServicePricing;
  pricingCache : option (gmap string ServicePricing);
  cacheLastUpdated : option Z
}.

Definition CACHE_TTL_MS : Z := 5 * 60 * 1000.

(** [DEFAULT_PRICING], to which [seedDefaultPricing] adds [isActive: true]. *)
Definition DEFAULT_PRICING : list ServicePricingData :=
  [ mkPricingData "name-search" "CAC Name Search" 10000 "NGN"
      (Some "Search for business names in CAC registry") true;
    mkPricingData "name-registration" "CAC Name Registration" 4000000 "NGN"
      (Some "Register a new business name with CAC") true;
    mkPricingData "company-registration" "CAC Company Registration" 9000000 "NGN"
      (Some "Register a new company with CAC") true;
    mkPricingData "drivers-license-verification" "Driver's License Verification" 15000 "NGN"
      (Some "Verify Nigerian driver's license") true;
    mkPricingData "passport-verification" "Passport Verification" 15000 "NGN"
      (Some "Verify Nigerian passport") true;
    mkPricingData "voters-card-verification" "Voter's Card Verification" 15000 "NGN"
      (Some "Verify Nigerian voter's card (PVC)") true;
    mkPricingData "passport-face-verification" "Passport Face Verification" 20000 "NGN"
      (Some "Verify passport with face matching") true;
    mkPricingData "bvn-basic" "BVN Basic Verification" 10000 "NGN"
      (Some "Basic BVN verification") true ].

Module MemoryPricing.

Definition setServicePricing (m : gmap string ServicePricing) (st : PricingState) : PricingState :=
  {| servicePricing := m; pricingCache := pricingCache st;
     cacheLastUpdated := cacheLastUpdated st |}.

Definition createServicePricing (pricingData : ServicePricingData) (e : Entropy)
    (st : PricingState) : Outcome ServicePricing * PricingState :=
  let id := "price_" +:+ randomId e in
  let pricing := {| sp_id := id; sp_data := pricingData;
                    sp_createdAt := clock e; sp_updatedAt := clock e |} in
  (Ok pricing, setServicePricing (<[sp_serviceCode pricingData := pricing]> (servicePricing st)) st).

Definition getServicePricing (code : string) (st : PricingState)
    : Outcome (option ServicePricing) * PricingState :=
  (Ok (servicePricing st !! code), st).

(** [listServicePricing].  The order of the result is that of
    [localeCompare] on the service codes, which is taken as a parameter
    ([localeSort]). *)
Definition listServicePricing (localeSort : list ServicePricing → list ServicePricing)
    (activeOnly : bool) (st : PricingState) : Outcome (list ServicePricing) * PricingState :=
  let pricing := (map_to_list (servicePricing st)).*2 in
  let pricing := if activeOnly then List.filter (fun p : ServicePricing => isActive p) pricing
                 else pricing in
  (Ok (localeSort pricing), st).

Definition applyPricingUpdates (pricing : ServicePricing) (updates : PricingUpdates) (now : Z)
    : ServicePricing :=
  {| sp_id := sp_id pricing;
     sp_data :=
       {| sp_serviceCode := sp_serviceCode pricing;
          serviceName := default (serviceName pricing) (pu_serviceName updates);
          sp_priceKobo := default (sp_priceKobo pricing) (pu_priceKobo updates);
          currency := currency pricing;
          sp_description := match pu_description updates with
                            | Some d => Some d
                            | None => sp_description pricing
                            end;
          isActive := default (isActive pricing) (pu_isActive updates) |};
     sp_createdAt := sp_createdAt pricing;
     sp_updatedAt := now |}.

Definition updateServicePricing (code : string) (updates : PricingUpdates) (now : Z)
    (st : PricingState) : Outcome ServicePricing * PricingState :=
  match servicePricing st !! code with
  | None => (Throw (PlainError "Service pricing not found"), st)
  | Some pricing =>
      let updated := applyPricingUpdates pricing updates now in
      (Ok updated, setServicePricing (<[code := updated]> (servicePricing st)) st)
  end.

Definition deleteServicePricing (code : string) (st : PricingState)
    : Outcome unit * PricingState :=
  (Ok tt, setServicePricing (delete code (servicePricing st)) st).

End MemoryPricing.

Module PricingLookup.
Import MemoryPricing.

Definition setCache (c : option (gmap string ServicePricing)) (st : PricingState) : PricingState :=
  {| servicePricing := servicePricing st; pricingCache := c;
     cacheLastUpdated := cacheLastUpdated st |}.

Definition setCacheLastUpdated (t : option Z) (st : PricingState) : PricingState :=
  {| servicePricing := servicePricing st; pricingCache := pricingCache st;
     cacheLastUpdated := t |}.

(** What the cache check at the top of [getPrice] decides: an answer
    ([Some]), or to go on to the store ([None]). *)
Definition cacheAnswer (code : string) (now : Z) (st : PricingState)
    : option (option ServicePricing) :=
  match pricingCache st, cacheLastUpdated st with
  | Some cache, Some updated =>
      let cacheAge := now - updated in
      if cacheAge <? CACHE_TTL_MS then
        match (cache !! code : option ServicePricing) with
        | Some cached => if isActive cached then Some (Some cached) else Some None
        | None => None
        end
      else None
  | _, _ => None
  end.

(** "Update cache with this single item". *)
Definition rememberPricing (code : string) (pricing : ServicePricing) (now : Z)
    (st : PricingState) : unit * PricingState :=
  match pricingCache st with
  | None =>
      (tt, {| servicePricing := servicePricing st;
              pricingCache := Some {[ code := pricing ]};
              cacheLastUpdated := Some now |})
  | Some cache => (tt, setCache (Some (<[code := pricing]> cache)) st)
  end.

Definition getPrice (code : string) (now : Z) : Async PricingState (option ServicePricing) :=
  let* answer := sync (fun st => (cacheAnswer code now st, st)) in
  match answer with
  | Some result => Return result
  | None =>
      let* pricing := await (getServicePricing code) in
      match pricing with
      | Some pricing =>
          let* _ := sync (rememberPricing code pricing now) in
          Return (if isActive pricing then Some pricing else None)
      | None => Return None
      end
  end.

Definition getPriceKobo (code : string) (now : Z) : Async PricingState Z :=
  let* pricing := getPrice code now in
  Return (match pricing with Some p => sp_priceKobo p | None => 0 end).

Definition listPricing (localeSort : list ServicePricing → list ServicePricing)
    (activeOnly : bool) (now : Z) : Async PricingState (list ServicePricing) :=
  let* pricing := await (listServicePricing localeSort activeOnly) in
  let* _ := sync (fun st =>
              (tt, {| servicePricing := servicePricing st;
                      pricingCache :=
                        Some (list_to_map ((fun p : ServicePricing => (sp_serviceCode p, p)) <$> reverse pricing));
                      cacheLastUpdated := Some now |})) in
  Return pricing.

Definition updatePrice (code : string) (updates : PricingUpdates) (now : Z)
    : Async PricingState ServicePricing :=
  let* updated := await (updateServicePricing code updates now) in
  let* _ := sync (fun st => (tt, setCache None st)) in
  Return updated.

Definition createPricing (pricingData : ServicePricingData) (e : Entropy)
    : Async PricingState ServicePricing :=
  let* pricing := await (createServicePricing pricingData e) in
  let* _ := sync (fun st => (tt, setCache None st)) in
  Return pricing.

Definition deletePricing (code : string) : Async PricingState unit :=
  let* _ := await (deleteServicePricing code) in
  sync (fun st => (tt, setCache None st)).

Definition invalidateCache : Async PricingState unit :=
  sync (fun st => (tt, {| servicePricing := servicePricing st;
                          pricingCache := None; cacheLastUpdated := None |})).

(** One round of the loop of [seedDefaultPricing]; [draws] gives what
    the store draws when it creates the entry of a service code. *)
Definition seedOne (draws : string → Entropy) (counts : nat * nat) (pricing : ServicePricingData)
    : Async PricingState (nat * nat) :=
  let '(created, skipped) := counts in
  try_catch
    (let* existing := await (getServicePricing (sp_serviceCode pricing)) in
     match existing with
     | Some _ => Return (created, S skipped)
     | None =>
         let* _ := await (createServicePricing
                            {| sp_serviceCode := sp_serviceCode pricing;
                               serviceName := serviceName pricing;
                               sp_priceKobo := sp_priceKobo pricing;
                               currency := currency pricing;
                               sp_description := sp_description pricing;
                               isActive := true |}
                            (draws (sp_serviceCode pricing))) in
         Return (S created, skipped)
     end)
    (fun _ => Return (created, skipped)).

Fixpoint seedLoop (draws : string → Entropy) (counts : nat * nat) (l : list ServicePricingData)
    : Async PricingState (nat * nat) :=
  match l with
  | [] => Return counts
  | pricing :: l' =>
      let* counts' := seedOne draws counts pricing in
      seedLoop draws counts' l'
  end.

Definition seedDefaultPricing (draws : string → Entropy) : Async PricingState (nat * nat) :=
  let* counts := seedLoop draws (O, O) DEFAULT_PRICING in
  let* _ := sync (fun st => (tt, setCache None st)) in
  Return counts.

End PricingLookup.

(** ** Affordability and the pre-check middleware ([checkWalletBalance]) *)

(** The store as the services see it: the ledger and the pricing. *)
Record Backend := mkBackend {
  ledger : Database;
  pricing : PricingState
}.

(** The result of [canAffordService]. *)
Record Affordability := mkAffordability {
  canAfford : bool;
  af_balance : WalletBalance;
  serviceCost : Z;
  shortfall : Z
}.

(** An amount shown in naira: the number [kobo / 100]. *)
Inductive Naira := naira (kobo : Z).

(** The [details] of the 402 response (without the formatted strings). *)
Record PaymentDetails := mkDetails {
  pd_currentBalance : Naira;
  pd_serviceCost : Naira;
  pd_shortfall : Naira;
  pd_service : string
}.

(** What [res.status(s).json({ error: { code, details } })] sends. *)
Record Reply := mkReply {
  reply_status : Z;
  reply_code : string;
  reply_details : option PaymentDetails
}.

(** What [checkWalletBalance] works on: the world of the request, the
    pricing, [req.path], the response once sent, and whether [next()]
    was called. *)
Record Gate := mkGate {
  g_world : World;
  g_pricing : PricingState;
  g_path : string;
  g_reply : option Reply;
  g_next : bool
}.

(** [p] with its outcome caught: the settled promise as a value. *)
Definition settle {S A} (p : Async S A) : Async S (Outcome A) :=
  try_catch (bind p (fun a => Return (Ok a))) (fun e => Return (Throw e)).

Module WalletAffordability.

Definition setLedger (d : Database) (b : Backend) : Backend :=
  {| ledger := d; pricing := pricing b |}.

Definition setPricing (p : PricingState) (b : Backend) : Backend :=
  {| ledger := ledger b; pricing := p |}.

(** [canAffordService].  [Promise.all] starts both lookups; when the
    balance lookup rejects, the price lookup has still run. *)
Definition canAffordService (customerId code : string) (now : Z)
    : Async Backend Affordability :=
  let* balance := settle (lift ledger setLedger (WalletService.getBalance customerId)) in
  let* serviceCost := lift pricing setPricing (PricingLookup.getPriceKobo code now) in
  match balance with
  | Throw e => Raise e
  | Ok balance =>
      let canAfford := balanceKobo balance >=? serviceCost in
      let shortfall := if canAfford then 0 else serviceCost - balanceKobo balance in
      Return {| canAfford := canAfford; af_balance := balance;
                serviceCost := serviceCost; shortfall := shortfall |}
  end.

End WalletAffordability.

Module WalletGate.
Import WalletMiddleware.

Definition gateBackend (g : Gate) : Backend :=
  {| ledger := db (g_world g); pricing := g_pricing g |}.

Definition setGateBackend (b : Backend) (g : Gate) : Gate :=
  {| g_world := setDb (ledger b) (g_world g); g_pricing := pricing b;
     g_path := g_path g; g_reply := g_reply g; g_next := g_next g |}.

Definition setGateWorld (w : World) (g : Gate) : Gate :=
  {| g_world := w; g_pricing := g_pricing g;
     g_path := g_path g; g_reply := g_reply g; g_next := g_next g |}.

Definition setGatePricing (p : PricingState) (g : Gate) : Gate :=
  {| g_world := g_world g; g_pricing := p;
     g_path := g_path g; g_reply := g_reply g; g_next := g_next g |}.

(** [res.status(status).json(...)]. *)
Definition respond (status : Z) (code : string) (details : option PaymentDetails)
    : Async Gate unit :=
  sync (fun g =>
    (tt, {| g_world := {| db := db (g_world g); req := req (g_world g); statusCode := status;
                          hasCharged := hasCharged (g_world g);
                          console := console (g_world g) |};
            g_pricing := g_pricing g; g_path := g_path g;
            g_reply := Some {| reply_status := status; reply_code := code;
                               reply_details := details |};
            g_next := g_next g |})).

Definition next : Async Gate unit :=
  sync (fun g => (tt, {| g_world := g_world g; g_pricing := g_pricing g; g_path := g_path g;
                         g_reply := g_reply g; g_next := true |})).

Definition gateLog (type : LogType) (message : string) : Async Gate unit :=
  lift g_world setGateWorld (logWalletOperation type message).

(** [req.walletContext = { serviceCode, priceKobo, balanceBefore, charged: false }]. *)
Definition storeContext (code : string) (price balance : Z) : Async Gate unit :=
  sync (fun g =>
    let w := g_world g in
    (tt, setGateWorld
           {| db := db w;
              req := {| req_customer := req_customer (req w);
                        walletContext :=
                          Some {| serviceCode := code; priceKobo := price;
                                  ctx_balanceBefore := balance; charged := false;
                                  transactionId := None; chargeError := None |};
                        originalUrl := originalUrl (req w);
                        method := method (req w);
                        requestId := requestId (req w) |};
              statusCode := statusCode w; hasCharged := hasCharged w; console := console w |}
           g)).

(** [getServiceCodeFromRequest]: the endpoint is [req.originalUrl || req.path]. *)
Definition getServiceCodeFromRequest (g : Gate) : option string :=
  PricingService.getServiceCodeFromEndpoint
    (orElse (Some (originalUrl (req (g_world g)))) (g_path g)).

Definition checkWalletBalance (now : Z) : Async Gate unit :=
  try_catch
    (let* g := sync (fun g => (g, g)) in
     match req_customer (req (g_world g)) with
     | None => respond 401 "CUSTOMER_NOT_AUTHENTICATED" None
     | Some customer =>
         let customerId := cust_id customer in
         match getServiceCodeFromRequest g with
         | None =>
             let* _ := gateLog SKIP "No service code found for endpoint" in
             next
         | Some code =>
             if String.eqb code "" then
               let* _ := gateLog SKIP "No service code found for endpoint" in
               next
             else
               let* price := lift g_pricing setGatePricing (PricingLookup.getPriceKobo code now) in
               if price =? 0 then
                 let* _ := storeContext code 0 (walletBalance customer) in
                 let* _ := gateLog SKIP "Free service, no charge required" in
                 next
               else
                 let* affordability :=
                   lift gateBackend setGateBackend
                     (WalletAffordability.canAffordService customerId code now) in
                 let* _ := gateLog CHECK "Balance check" in
                 if negb (canAfford affordability) then
                   respond 402 "INSUFFICIENT_BALANCE"
                     (Some {| pd_currentBalance := naira (balanceKobo (af_balance affordability));
                              pd_serviceCost := naira (serviceCost affordability);
                              pd_shortfall := naira (shortfall affordability);
                              pd_service := code |})
                 else
                   let* _ := storeContext code price (balanceKobo (af_balance affordability)) in
                   next
         end
     end)
    (fun error =>
       let* _ := gateLog ERROR "Balance check failed" in
       respond 500 "WALLET_CHECK_ERROR" None).

(** [skipWalletCharge] (it then calls [next()]). *)
Definition skipContext (c : WalletContext) : WalletContext :=
  {| serviceCode := serviceCode c; priceKobo := 0;
     ctx_balanceBefore := ctx_balanceBefore c;
     charged := true; transactionId := transactionId c; chargeError := chargeError c |}.

Definition skipWalletCharge : Async Gate unit :=
  let* _ := lift g_world setGateWorld (sync (fun w => (tt, setWalletContext skipContext w))) in
  next.

End WalletGate.

(** ** Vocabulary of the further statements *)

(** [a] was created no earlier than [b]. *)
Definition newerOrSame (a b : WalletTransaction) : Prop := createdAt b ≤ createdAt a.

(** All the stored transactions of an account, oldest first. *)
Definition transactionsOf (db : Database) (customer : string) : list WalletTransaction :=
  List.filter (fun t : WalletTransaction => String.eqb (customerId t) customer)
              (map_values (walletTransactions db)).

(** What a transaction adds to [totalCredits] and to [totalDebits]. *)
Definition creditPart (t : WalletTransaction) : Z :=
  if (bool_decide (txn_type t = credit_t) && bool_decide (status t = completed))%bool
  then amount t else 0.

Definition debitPart (t : WalletTransaction) : Z :=
  if (bool_decide (txn_type t = debit_t) && bool_decide (status t = completed))%bool
  then amount t else 0.

Fixpoint sumOver (f : WalletTransaction → Z) (l : list WalletTransaction) : Z :=
  match l with
  | [] => 0
  | t :: l' => f t + sumOver f l'
  end.

(** Completed credits minus completed debits of an account. *)
Definition netOf (db : Database) (customer : string) : Z :=
  sumOver creditPart (transactionsOf db customer) - sumOver debitPart (transactionsOf db customer).

(** The pricing the store holds for a code, if it is active. *)
Definition activePricing (st : PricingState) (code : string) : option ServicePricing :=
  match (servicePricing st !! code : option ServicePricing) with
  | Some p => if isActive p then Some p else None
  | None => None
  end.

(** Every cached entry is the entry the store holds under that code. *)
Definition coherent (st : PricingState) : Prop :=
  ∀ cache, pricingCache st = Some cache →
    ∀ code (p : ServicePricing), cache !! code = Some p → servicePricing st !! code = Some p.

(** Every entry of the store sits under its own service code. *)
Definition keyed (st : PricingState) : Prop :=
  ∀ code (p : ServicePricing), servicePricing st !! code = Some p → sp_serviceCode p = code.

(** The operations of [PricingService], and the state each leaves. *)
Inductive PricingOp :=
| OpGetPrice (code : string) (now : Z)
| OpListPricing (activeOnly : bool) (now : Z)
| OpUpdatePrice (code : string) (updates : PricingUpdates) (now : Z)
| OpCreatePricing (pricingData : ServicePricingData) (e : Entropy)
| OpDeletePricing (code : string)
| OpInvalidateCache
| OpSeedDefaultPricing (draws : string → Entropy).

Definition applyPricingOp (localeSort : list ServicePricing → list ServicePricing)
    (st : PricingState) (op : PricingOp) : PricingState :=
  match op with
  | OpGetPrice code now => (run (PricingLookup.getPrice code now) st).2
  | OpListPricing activeOnly now => (run (PricingLookup.listPricing localeSort activeOnly now) st).2
  | OpUpdatePrice code updates now => (run (PricingLookup.updatePrice code updates now) st).2
  | OpCreatePricing pricingData e => (run (PricingLookup.createPricing pricingData e) st).2
  | OpDeletePricing code => (run (PricingLookup.deletePricing code) st).2
  | OpInvalidateCache => (run PricingLookup.invalidateCache st).2
  | OpSeedDefaultPricing draws => (run (PricingLookup.seedDefaultPricing draws) st).2
  end.

(** A pricing state with an empty table and no cache, and one draw per
    service code. *)
Definition emptyPricing : PricingState :=
  {| servicePricing := ∅; pricingCache := None; cacheLastUpdated := None |}.

Definition seedDraws (code : string) : Entropy := draw 0 code.

(** The price the store holds for a code: that of its active entry, or 0. *)
Definition priceOf (st : PricingState) (code : string) : Z :=
  match activePricing st code with
  | Some p => sp_priceKobo p
  | None => 0
  end.

(** A request as it reaches [checkWalletBalance]: nothing sent yet,
    [next()] not yet called. *)
Definition sampleGate (balance status : Z) (prices : PricingState) : Gate :=
  {| g_world := {| db := seedDb balance;
                   req := {| req_customer := Some (seedCustomer balance);
                             walletContext := None;
                             originalUrl := "/api/v1/business/name-search";
                             method := "POST";
                             requestId := Some "req-1" |};
                   statusCode := status; hasCharged := false; console := [] |};
     g_pricing := prices;
     g_path := "/api/v1/business/name-search";
     g_reply := None;
     g_next := false |}.

(** The pricing table after seeding the defaults into an empty one. *)
Definition seededPricing : PricingState :=
  (run (PricingLookup.seedDefaultPricing seedDraws) emptyPricing).2.

(** The character [c] occurs in [s]. *)
Fixpoint occursIn (c : ascii) (s : string) : bool :=
  match s with
  | EmptyString => false
  | String c' s' => Ascii.eqb c' c || occursIn c s'
  end.

(** * Theorems *)

Import MemoryDatabase WalletService.

Ltac store_ops :=
  unfold getCustomer, updateCustomer, createWalletTransaction, getWalletTransaction,
    getWalletTransactionByReference, updateWalletTransactionStatus in *.

(** ** The store *)

Lemma map_get_set_eq {V} k (v : V) m : map_get k (map_set k v m) = Some v.
Proof.
  induction m as [|[k' x] m IH]; cbn.
  - by rewrite String.eqb_refl.
  - destruct (String.eqb k' k) eqn:E; cbn; [by rewrite String.eqb_refl | by rewrite E].
Qed.

Lemma map_get_set_ne {V} k k' (v : V) m :
  k ≠ k' → map_get k' (map_set k v m) = map_get k' m.
Proof.
  intros Hne. induction m as [|[k0 x] m IH]; cbn.
  - destruct (String.eqb k k') eqn:E; [apply String.eqb_eq in E; done | done].
  - destruct (String.eqb k0 k) eqn:E; cbn.
    + apply String.eqb_eq in E; subst k0.
      destruct (String.eqb k k') eqn:E'; [apply String.eqb_eq in E'; done | done].
    + destruct (String.eqb k0 k'); [done | apply IH].
Qed.

(** A fresh key is appended at the end. *)
Lemma map_set_fresh {V} k (v : V) m : map_get k m = None → map_set k v m = (m ++ [(k, v)])%list.
Proof.
  induction m as [|[k0 x] m IH]; cbn; [done|].
  destruct (String.eqb k0 k); [done|]. intros H. by rewrite IH.
Qed.

(** Once a transaction with reference [ref] is written, a lookup by
    [ref] finds some transaction. *)
Lemma find_reference_after_set ref k (t : WalletTransaction) m :
  reference t = ref →
  is_Some (find (fun txn : WalletTransaction => String.eqb (reference txn) ref)
                (map_values (map_set k t m))).
Proof.
  intros Hr. induction m as [|[k0 x] m IH]; cbn.
  - rewrite Hr, String.eqb_refl. eauto.
  - destruct (String.eqb k0 k); cbn.
    + rewrite Hr, String.eqb_refl. eauto.
    + destruct (String.eqb (reference x) ref); [eauto | apply IH].
Qed.

(** ** [debit] and [credit], case by case *)

Lemma debit_ok db cid c a d o e :
  customers db !! cid = Some c →
  a ≤ walletBalance c →
  byReference (debitReference o e) db = None →
  ∃ T, run (debit cid a d o e) db =
         (Ok {| transaction := T; newBalance := formatBalance cid (walletBalance c - a) |},
          {| customers :=
               <[cid := applyUpdates c (balanceUpdate (walletBalance c - a)) (clock e)]> (customers db);
             walletTransactions := map_set ("txn_" +:+ randomId e) T (walletTransactions db) |})
       ∧ txn_id T = "txn_" +:+ randomId e
       ∧ customerId T = cid ∧ txn_type T = debit_t ∧ status T = completed
       ∧ amount T = a ∧ balanceBefore T = walletBalance c
       ∧ balanceAfter T = walletBalance c - a
       ∧ reference T = debitReference o e ∧ createdAt T = clock e.
Proof.
  intros Hc Ha Hr. unfold debit, byReference, debitReference in *. store_ops. cbn.
  rewrite Hc. cbn.
  destruct (Z.ltb_spec (walletBalance c) a); [lia|].
  cbn. rewrite Hr. cbn. rewrite Hc. cbn.
  eexists. split; [reflexivity|]. cbn. done.
Qed.

Lemma debit_insufficient db cid c a d o e :
  customers db !! cid = Some c →
  walletBalance c < a →
  run (debit cid a d o e) db =
    (Throw (InsufficientBalanceError a (walletBalance c) (a - walletBalance c)), db).
Proof.
  intros Hc Ha. unfold debit. store_ops. cbn. rewrite Hc. cbn.
  destruct (Z.ltb_spec (walletBalance c) a); [done | lia].
Qed.

Lemma debit_duplicate db cid c a d o e :
  customers db !! cid = Some c →
  a ≤ walletBalance c →
  is_Some (byReference (debitReference o e) db) →
  run (debit cid a d o e) db = (Throw (DuplicateTransactionError (debitReference o e)), db).
Proof.
  intros Hc Ha [t Hr]. unfold debit, byReference, debitReference in *. store_ops. cbn.
  rewrite Hc. cbn.
  destruct (Z.ltb_spec (walletBalance c) a); [lia|].
  cbn. by rewrite Hr.
Qed.

Lemma credit_ok db cid c a d o e :
  customers db !! cid = Some c →
  byReference (creditReference o e) db = None →
  ∃ T, run (credit cid a d o e) db =
         (Ok {| transaction := T; newBalance := formatBalance cid (walletBalance c + a) |},
          {| customers :=
               <[cid := applyUpdates c (balanceUpdate (walletBalance c + a)) (clock e)]> (customers db);
             walletTransactions := map_set ("txn_" +:+ randomId e) T (walletTransactions db) |})
       ∧ txn_id T = "txn_" +:+ randomId e
       ∧ customerId T = cid ∧ txn_type T = credit_t ∧ status T = completed
       ∧ amount T = a ∧ balanceBefore T = walletBalance c
       ∧ balanceAfter T = walletBalance c + a
       ∧ reference T = creditReference o e ∧ createdAt T = clock e.
Proof.
  intros Hc Hr. unfold credit, byReference, creditReference in *. store_ops. cbn.
  rewrite Hc. cbn. rewrite Hr. cbn. rewrite Hc. cbn.
  eexists. split; [reflexivity|]. cbn. done.
Qed.

Lemma credit_duplicate db cid c a d o e :
  customers db !! cid = Some c →
  is_Some (byReference (creditReference o e) db) →
  run (credit cid a d o e) db = (Throw (DuplicateTransactionError (creditReference o e)), db).
Proof.
  intros Hc [t Hr]. unfold credit, byReference, creditReference in *. store_ops. cbn.
  rewrite Hc. cbn. by rewrite Hr.
Qed.

Lemma balanceOf_lookup db cid c : customers db !! cid = Some c → balanceOf db cid = Some (walletBalance c).
Proof. unfold balanceOf. by intros ->. Qed.

Lemma balanceOf_updated cs cid c b now txns :
  balanceOf {| customers := <[cid := applyUpdates c (balanceUpdate b) now]> cs;
               walletTransactions := txns |} cid = Some b.
Proof. unfold balanceOf. cbn. by rewrite lookup_insert_eq. Qed.

(** ** C2: the affordability check of [debit] *)

(** C2. For an existing account, [debit] fails with
    [InsufficientBalanceError] exactly when the amount exceeds the stored
    balance.  The error carries the required amount, the current balance
    and their difference as shortfall; the store is returned as it was
    (no transaction written, balance unchanged).  A debit of exactly the
    balance, under a reference not yet used, succeeds and leaves 0; a
    debit of the balance plus one fails with shortfall 1. *)
Theorem C2_debit_insufficient_balance db cid c a d o e :
  customers db !! cid = Some c →
  let r := run (debit cid a d o e) db in
  ((∃ required current shortfall,
       r.1 = Throw (InsufficientBalanceError required current shortfall))
     ↔ a > walletBalance c)
  ∧ (a > walletBalance c →
       r = (Throw (InsufficientBalanceError a (walletBalance c) (a - walletBalance c)), db))
  ∧ (a = walletBalance c → byReference (debitReference o e) db = None →
       ∃ res, r.1 = Ok res ∧ balanceKobo (newBalance res) = 0 ∧ balanceOf r.2 cid = Some 0)
  ∧ (a = walletBalance c + 1 →
       r = (Throw (InsufficientBalanceError a (walletBalance c) 1), db)).
Proof.
  intros Hc r. subst r. repeat split.
  - intros (rq & cur & sf & H).
    destruct (Z.le_gt_cases a (walletBalance c)) as [Hle|Hgt]; [|lia].
    destruct (byReference (debitReference o e) db) eqn:Hr.
    + rewrite (debit_duplicate db cid c a d o e Hc Hle) in H by eauto. discriminate.
    + destruct (debit_ok db cid c a d o e Hc Hle Hr) as (T & HT & _).
      rewrite HT in H. discriminate.
  - intros Hgt. rewrite (debit_insufficient db cid c a d o e Hc) by lia. cbn. eauto.
  - intros Hgt. apply debit_insufficient; [done | lia].
  - intros Ha Hr.
    destruct (debit_ok db cid c a d o e Hc ltac:(lia) Hr) as (T & HT & _).
    rewrite HT. cbn. eexists. split; [reflexivity|]. cbn.
    rewrite balanceOf_updated. split; f_equal; lia.
  - intros Ha. rewrite (debit_insufficient db cid c a d o e Hc) by lia.
    do 2 f_equal. f_equal. lia.
Qed.

Lemma C2_debit_insufficient_balance_witness :
  customers (seedDb 1000) !! "cust_001" = Some (seedCustomer 1000)
  ∧ run (debit "cust_001" 1001 "API: name-search" noDebitOptions (draw 1 "a1")) (seedDb 1000)
      = (Throw (InsufficientBalanceError 1001 1000 1), seedDb 1000).
Proof.
  split; [reflexivity|].
  apply (C2_debit_insufficient_balance (seedDb 1000) "cust_001" (seedCustomer 1000) 1001
           "API: name-search" noDebitOptions (draw 1 "a1") eq_refl).
  reflexivity.
Defined.

(** ** C10: the sign of the amount is not checked *)

(** C10. Neither [debit] nor [credit] checks the sign of the amount.  On
    an existing account and under an unused reference, a [credit] of a
    negative amount succeeds and lowers the stored balance, with no
    affordability check; a [debit] of a zero or negative amount succeeds
    whenever the balance is at least the amount, and raises the balance
    when the amount is negative.  Either way a [completed] transaction is
    stored with [balanceAfter = balanceBefore + amount] (credit) or
    [balanceBefore - amount] (debit). *)
Theorem C10_amount_sign_not_validated db cid c a d e :
  customers db !! cid = Some c →
  (∀ o, a < 0 → byReference (creditReference o e) db = None →
     ∃ res, let T := transaction res in
            let r := run (credit cid a d o e) db in
       r.1 = Ok res
       ∧ balanceOf r.2 cid = Some (walletBalance c + a)
       ∧ walletBalance c + a < walletBalance c
       ∧ txnOf r.2 (txn_id T) = Some T
       ∧ status T = completed ∧ txn_type T = credit_t ∧ amount T = a
       ∧ balanceBefore T = walletBalance c
       ∧ balanceAfter T = balanceBefore T + a)
  ∧ (∀ o, a ≤ 0 → walletBalance c >= a → byReference (debitReference o e) db = None →
     ∃ res, let T := transaction res in
            let r := run (debit cid a d o e) db in
       r.1 = Ok res
       ∧ balanceOf r.2 cid = Some (walletBalance c - a)
       ∧ (a < 0 → walletBalance c - a > walletBalance c)
       ∧ txnOf r.2 (txn_id T) = Some T
       ∧ status T = completed ∧ txn_type T = debit_t ∧ amount T = a
       ∧ balanceBefore T = walletBalance c
       ∧ balanceAfter T = balanceBefore T - a).
Proof.
  intros Hc. split.
  - intros o Ha Hr.
    destruct (credit_ok db cid c a d o e Hc Hr)
      as (T & HT & Hid & _ & Hty & Hst & Ham & Hbb & Hba & _).
    eexists. cbn zeta. rewrite HT. cbn. split; [reflexivity|]. cbn.
    rewrite balanceOf_updated. unfold txnOf. cbn. rewrite Hid, map_get_set_eq.
    repeat split; try done; lia.
  - intros o Ha Hge Hr.
    destruct (debit_ok db cid c a d o e Hc ltac:(lia) Hr)
      as (T & HT & Hid & _ & Hty & Hst & Ham & Hbb & Hba & _).
    eexists. cbn zeta. rewrite HT. cbn. split; [reflexivity|]. cbn.
    rewrite balanceOf_updated. unfold txnOf. cbn. rewrite Hid, map_get_set_eq.
    repeat split; try done; lia.
Qed.

Lemma C10_amount_sign_not_validated_witness :
  customers (seedDb 1000) !! "cust_001" = Some (seedCustomer 1000)
  ∧ balanceOf (run (credit "cust_001" (-1500) "adjust" noCreditOptions (draw 1 "a1")) (seedDb 1000)).2
      "cust_001" = Some (-500)
  ∧ balanceOf (run (debit "cust_001" (-300) "adjust" noDebitOptions (draw 1 "a1")) (seedDb 1000)).2
      "cust_001" = Some 1300.
Proof.
  pose proof (C10_amount_sign_not_validated (seedDb 1000) "cust_001" (seedCustomer 1000)
                (-1500) "adjust" (draw 1 "a1") eq_refl) as [Hcredit _].
  pose proof (C10_amount_sign_not_validated (seedDb 1000) "cust_001" (seedCustomer 1000)
                (-300) "adjust" (draw 1 "a1") eq_refl) as [_ Hdebit].
  destruct (Hcredit noCreditOptions ltac:(lia) eq_refl) as (res & _ & Hb & _).
  destruct (Hdebit noDebitOptions ltac:(lia) ltac:(cbn; lia) eq_refl) as (res' & _ & Hb' & _).
  split; [reflexivity|]. split; [exact Hb | exact Hb'].
Defined.

(** ** C3: a repeated reference *)

(** A first [debit] that succeeded under a caller-supplied reference has
    stored a transaction that a lookup by that reference finds. *)
Lemma debit_ok_stores_reference db cid a d o e res db1 R :
  R ≠ "" → opt_reference o = Some R →
  run (debit cid a d o e) db = (Ok res, db1) →
  ∃ c, customers db !! cid = Some c
       ∧ a ≤ walletBalance c
       ∧ balanceOf db1 cid = Some (walletBalance c - a)
       ∧ is_Some (byReference R db1).
Proof.
  intros HR Ho Hrun.
  assert (debitReference o e = R) as Href.
  { unfold debitReference, orElse. rewrite Ho.
    destruct (String.eqb R "") eqn:E; [apply String.eqb_eq in E; done | done]. }
  destruct (customers db !! cid) as [c|] eqn:Hc.
  2:{ unfold debit in Hrun. store_ops. cbn in Hrun. rewrite Hc in Hrun. discriminate. }
  destruct (Z.le_gt_cases a (walletBalance c)) as [Hle|Hgt].
  2:{ rewrite (debit_insufficient db cid c a d o e Hc) in Hrun by lia. discriminate. }
  destruct (byReference (debitReference o e) db) eqn:Hr.
  { rewrite (debit_duplicate db cid c a d o e Hc Hle) in Hrun by eauto. discriminate. }
  destruct (debit_ok db cid c a d o e Hc Hle Hr) as (T & HT & _ & _ & _ & _ & _ & _ & _ & HrefT & _).
  rewrite HT in Hrun. injection Hrun as _ <-.
  exists c. split; [done|]. split; [done|]. split; [apply balanceOf_updated|].
  unfold byReference. cbn. apply find_reference_after_set. congruence.
Qed.

Lemma credit_ok_stores_reference db cid a d o e res db1 R :
  R ≠ "" → copt_reference o = Some R →
  run (credit cid a d o e) db = (Ok res, db1) →
  ∃ c, customers db !! cid = Some c
       ∧ balanceOf db1 cid = Some (walletBalance c + a)
       ∧ is_Some (byReference R db1).
Proof.
  intros HR Ho Hrun.
  assert (creditReference o e = R) as Href.
  { unfold creditReference, orElse. rewrite Ho.
    destruct (String.eqb R "") eqn:E; [apply String.eqb_eq in E; done | done]. }
  destruct (customers db !! cid) as [c|] eqn:Hc.
  2:{ unfold credit in Hrun. store_ops. cbn in Hrun. rewrite Hc in Hrun. discriminate. }
  destruct (byReference (creditReference o e) db) eqn:Hr.
  { rewrite (credit_duplicate db cid c a d o e Hc) in Hrun by eauto. discriminate. }
  destruct (credit_ok db cid c a d o e Hc Hr) as (T & HT & _ & _ & _ & _ & _ & _ & _ & HrefT & _).
  rewrite HT in Hrun. injection Hrun as _ <-.
  exists c. split; [done|]. split; [apply balanceOf_updated|].
  unfold byReference. cbn. apply find_reference_after_set. congruence.
Qed.

(** C3, as stated, fails in two ways.  (i) The affordability check of
    [debit] runs before the duplicate check: with a balance of 1000, a
    debit of 600 under reference "R-1" succeeds, and the retry under the
    same reference meets a balance of 400 and fails with
    [InsufficientBalanceError], not with [DuplicateTransactionError].
    (ii) An empty reference counts as no reference: two debits of 100
    under the reference "" both succeed, each under a generated
    reference, and the balance goes from 1000 to 800. *)
Lemma C3_retry_is_not_always_a_duplicate :
  (∃ res db1,
     run (debit "cust_001" 600 "API: name-search" (withReference "R-1") (draw 1 "a1")) (seedDb 1000)
       = (Ok res, db1)
     ∧ run (debit "cust_001" 600 "API: name-search" (withReference "R-1") (draw 2 "b2")) db1
       = (Throw (InsufficientBalanceError 600 400 200), db1)
     ∧ (run (debit "cust_001" 600 "API: name-search" (withReference "R-1") (draw 2 "b2")) db1).1
       ≠ Throw (DuplicateTransactionError "R-1"))
  ∧ (∃ res db1 res' db2,
     run (debit "cust_001" 100 "API: name-search" (withReference "") (draw 1 "a1")) (seedDb 1000)
       = (Ok res, db1)
     ∧ run (debit "cust_001" 100 "API: name-search" (withReference "") (draw 2 "b2")) db1
       = (Ok res', db2)
     ∧ balanceOf db2 "cust_001" = Some 800).
Proof.
  split.
  - do 2 eexists. split; [vm_compute; reflexivity|]. split; [vm_compute; reflexivity|].
    vm_compute. discriminate.
  - do 4 eexists. split; [vm_compute; reflexivity|]. split; [vm_compute; reflexivity|].
    vm_compute. reflexivity.
Qed.

(** C3 (amended). After a [debit] that succeeded under a non-empty
    caller-supplied reference [R], a second [debit] of the same account
    under [R] fails and leaves the store (balance and transactions) as
    the first call left it, so the balance change is applied once.  The
    failure is [DuplicateTransactionError R] when the remaining balance
    covers the requested amount and [InsufficientBalanceError] when it
    does not.  After a [credit] that succeeded under [R], a second
    [credit] under [R] always fails with [DuplicateTransactionError R]
    and leaves the store unchanged. *)
Theorem C3_duplicate_reference_is_noop cid R db db1 a d e res :
  R ≠ "" →
  (∀ o, opt_reference o = Some R →
     run (debit cid a d o e) db = (Ok res, db1) →
     ∃ b0, balanceOf db cid = Some b0 ∧ balanceOf db1 cid = Some (b0 - a)
       ∧ ∀ a' d' o' e', opt_reference o' = Some R →
           run (debit cid a' d' o' e') db1 =
             (Throw (if a' <=? b0 - a
                     then DuplicateTransactionError R
                     else InsufficientBalanceError a' (b0 - a) (a' - (b0 - a))), db1))
  ∧ (∀ o, copt_reference o = Some R →
     run (credit cid a d o e) db = (Ok res, db1) →
     ∃ b0, balanceOf db cid = Some b0 ∧ balanceOf db1 cid = Some (b0 + a)
       ∧ ∀ a' d' o' e', copt_reference o' = Some R →
           run (credit cid a' d' o' e') db1 = (Throw (DuplicateTransactionError R), db1)).
Proof.
  intros HR. split.
  - intros o Ho Hrun.
    destruct (debit_ok_stores_reference db cid a d o e res db1 R HR Ho Hrun)
      as (c & Hc & Hle & Hb1 & Hfound).
    exists (walletBalance c). split; [by apply balanceOf_lookup|]. split; [done|].
    intros a' d' o' e' Ho'.
    assert (debitReference o' e' = R) as Href.
    { unfold debitReference, orElse. rewrite Ho'.
      destruct (String.eqb R "") eqn:E; [apply String.eqb_eq in E; done | done]. }
    unfold balanceOf in Hb1.
    destruct (customers db1 !! cid) as [c1|] eqn:Hc1; [|discriminate].
    cbn in Hb1. injection Hb1 as Hb1.
    destruct (Z.leb_spec a' (walletBalance c - a)).
    + rewrite (debit_duplicate db1 cid c1 a' d' o' e' Hc1) by (rewrite ?Href; done || lia).
      by rewrite Href.
    + rewrite (debit_insufficient db1 cid c1 a' d' o' e' Hc1) by lia. by rewrite Hb1.
  - intros o Ho Hrun.
    destruct (credit_ok_stores_reference db cid a d o e res db1 R HR Ho Hrun)
      as (c & Hc & Hb1 & Hfound).
    exists (walletBalance c). split; [by apply balanceOf_lookup|]. split; [done|].
    intros a' d' o' e' Ho'.
    assert (creditReference o' e' = R) as Href.
    { unfold creditReference, orElse. rewrite Ho'.
      destruct (String.eqb R "") eqn:E; [apply String.eqb_eq in E; done | done]. }
    unfold balanceOf in Hb1.
    destruct (customers db1 !! cid) as [c1|] eqn:Hc1; [|discriminate].
    rewrite (credit_duplicate db1 cid c1 a' d' o' e' Hc1) by (rewrite Href; done).
    by rewrite Href.
Qed.

Lemma C3_duplicate_reference_is_noop_witness :
  let first := run (debit "cust_001" 300 "API: name-search" (withReference "R-1") (draw 1 "a1"))
                   (seedDb 1000) in
  "R-1" ≠ ""
  ∧ (∃ res, first = (Ok res, first.2))
  ∧ run (debit "cust_001" 300 "API: name-search" (withReference "R-1") (draw 2 "b2")) first.2
      = (Throw (DuplicateTransactionError "R-1"), first.2).
Proof.
  intros first.
  assert ("R-1" ≠ "") as HR by discriminate.
  assert (∃ res, first = (Ok res, first.2)) as [res Hres] by (eexists; vm_compute; reflexivity).
  split; [exact HR|]. split; [by exists res|].
  destruct (C3_duplicate_reference_is_noop "cust_001" "R-1" (seedDb 1000) first.2 300
              "API: name-search" (draw 1 "a1") res HR) as [Hdebit _].
  destruct (Hdebit (withReference "R-1") eq_refl Hres) as (b0 & Hb0 & _ & Hsecond).
  vm_compute in Hb0. injection Hb0 as <-.
  exact (Hsecond 300 "API: name-search" (withReference "R-1") (draw 2 "b2") eq_refl).
Defined.

(** ** Reservations *)

Lemma reserve_ok db cid c a d sc e :
  customers db !! cid = Some c →
  a ≤ walletBalance c →
  ∃ T, run (reserveBalance cid a d sc e) db =
         (Ok T, {| customers := customers db;
                   walletTransactions := map_set ("txn_" +:+ randomId e) T (walletTransactions db) |})
       ∧ txn_id T = "txn_" +:+ randomId e
       ∧ customerId T = cid ∧ txn_type T = debit_t ∧ status T = pending
       ∧ amount T = a ∧ balanceBefore T = walletBalance c
       ∧ balanceAfter T = walletBalance c - a.
Proof.
  intros Hc Ha. unfold reserveBalance. store_ops. cbn. rewrite Hc. cbn.
  destruct (Z.ltb_spec (walletBalance c) a); [lia|]. cbn.
  eexists. split; [reflexivity|]. cbn. done.
Qed.

(** [completeReservation] on a pending transaction of an existing
    account: the stored balance becomes the transaction's [balanceAfter],
    whatever it was. *)
Lemma complete_ok db tid T c e :
  txnOf db tid = Some T → status T = pending →
  customers db !! customerId T = Some c →
  ∃ T', run (completeReservation tid e) db =
          (Ok {| transaction := T';
                 newBalance := formatBalance (customerId T) (balanceAfter T) |},
           {| customers :=
                <[customerId T := applyUpdates c (balanceUpdate (balanceAfter T)) (clock e)]>
                  (customers db);
              walletTransactions := map_set tid T' (walletTransactions db) |})
        ∧ txn_id T' = txn_id T ∧ data T' = withStatus T completed
        ∧ createdAt T' = createdAt T ∧ completedAt T' = Some (clock e).
Proof.
  intros HT Hst Hc. unfold completeReservation, txnOf in *. store_ops. cbn.
  rewrite HT. cbn. rewrite Hst, bool_decide_eq_true_2 by done. cbn.
  rewrite Hc. cbn. rewrite HT. cbn.
  eexists. split; [reflexivity|]. done.
Qed.

Lemma cancel_ok db tid T e :
  txnOf db tid = Some T → status T = pending →
  ∃ T', run (cancelReservation tid e) db =
          (Ok tt, {| customers := customers db;
                     walletTransactions := map_set tid T' (walletTransactions db) |})
        ∧ txn_id T' = txn_id T ∧ data T' = withStatus T failed
        ∧ createdAt T' = createdAt T ∧ completedAt T' = completedAt T.
Proof.
  intros HT Hst. unfold cancelReservation, txnOf in *. store_ops. cbn.
  rewrite HT. cbn. rewrite Hst, bool_decide_eq_true_2 by done. cbn.
  rewrite HT. cbn.
  eexists. split; [reflexivity|]. done.
Qed.

Lemma statusOf_set cs txns tid (T : WalletTransaction) :
  statusOf {| customers := cs; walletTransactions := map_set tid T txns |} tid
    = Some (status T).
Proof. unfold statusOf, txnOf. cbn. by rewrite map_get_set_eq. Qed.

(** ** C6: reserve, then cancel or complete *)

(** C6. On an account whose balance covers the amount, [reserveBalance]
    stores a [pending] transaction whose [balanceAfter] is the balance
    minus the amount, and leaves the stored balance as it was.
    Cancelling that reservation right away leaves the balance unchanged
    and the reservation [failed]; completing it right away lowers the
    stored balance by exactly the reserved amount and leaves the
    reservation [completed]. *)
Theorem C6_reservation_round_trip db cid c a d sc e :
  customers db !! cid = Some c →
  walletBalance c >= a →
  ∃ T db1,
    run (reserveBalance cid a d sc e) db = (Ok T, db1)
    ∧ txnOf db1 (txn_id T) = Some T
    ∧ status T = pending ∧ amount T = a
    ∧ balanceAfter T = walletBalance c - a
    ∧ balanceOf db1 cid = Some (walletBalance c)
    ∧ (∀ e', let r := run (cancelReservation (txn_id T) e') db1 in
         r.1 = Ok tt
         ∧ balanceOf r.2 cid = Some (walletBalance c)
         ∧ statusOf r.2 (txn_id T) = Some failed)
    ∧ (∀ e', let r := run (completeReservation (txn_id T) e') db1 in
         (∃ res, r.1 = Ok res ∧ balanceKobo (newBalance res) = walletBalance c - a)
         ∧ balanceOf r.2 cid = Some (walletBalance c - a)
         ∧ statusOf r.2 (txn_id T) = Some completed).
Proof.
  intros Hc Ha.
  destruct (reserve_ok db cid c a d sc e Hc ltac:(lia))
    as (T & HT & Hid & Hcid & _ & Hst & Ham & _ & Hba).
  set (db1 := {| customers := customers db;
                 walletTransactions :=
                   map_set ("txn_" +:+ randomId e) T (walletTransactions db) |}) in *.
  assert (txnOf db1 (txn_id T) = Some T) as Hstored.
  { unfold txnOf, db1. cbn. rewrite Hid. apply map_get_set_eq. }
  exists T, db1. split; [done|]. split; [done|]. split; [done|]. split; [done|].
  split; [done|]. split; [by apply balanceOf_lookup|]. split.
  - intros e'. cbn zeta.
    destruct (cancel_ok db1 (txn_id T) T e' Hstored Hst) as (T' & HT' & _ & Hd & _).
    rewrite HT'. cbn [fst snd]. split; [done|]. split; [by apply balanceOf_lookup|].
    rewrite statusOf_set, Hd. done.
  - intros e'. cbn zeta.
    assert (customers db1 !! customerId T = Some c) as Hc1 by (rewrite Hcid; done).
    destruct (complete_ok db1 (txn_id T) T c e' Hstored Hst Hc1) as (T' & HT' & _ & Hd & _).
    rewrite HT'. cbn [fst snd]. split; [eexists; split; [reflexivity|]; cbn; lia|].
    rewrite Hcid, balanceOf_updated, statusOf_set, Hd, Hba. done.
Qed.

Lemma C6_reservation_round_trip_witness :
  customers (seedDb 1000) !! "cust_001" = Some (seedCustomer 1000)
  ∧ 1000 >= 500
  ∧ ∃ T db1,
      run (reserveBalance "cust_001" 500 "hold" None (draw 1 "a1")) (seedDb 1000) = (Ok T, db1)
      ∧ balanceOf db1 "cust_001" = Some 1000
      ∧ balanceOf (run (cancelReservation (txn_id T) (draw 2 "b2")) db1).2 "cust_001" = Some 1000
      ∧ balanceOf (run (completeReservation (txn_id T) (draw 2 "b2")) db1).2 "cust_001" = Some 500.
Proof.
  split; [reflexivity|]. split; [lia|].
  destruct (C6_reservation_round_trip (seedDb 1000) "cust_001" (seedCustomer 1000) 500 "hold"
              None (draw 1 "a1") eq_refl ltac:(cbn; lia))
    as (T & db1 & Hrun & _ & _ & _ & _ & Hb & Hcancel & Hcomplete).
  exists T, db1. split; [exact Hrun|]. split; [exact Hb|].
  split; [apply (Hcancel (draw 2 "b2")) | apply (Hcomplete (draw 2 "b2"))].
Defined.

(** ** What a successful call tells about the store it ran on *)

Lemma debit_inv db cid a d o e res db1 :
  run (debit cid a d o e) db = (Ok res, db1) →
  ∃ c, customers db !! cid = Some c ∧ a ≤ walletBalance c
       ∧ byReference (debitReference o e) db = None.
Proof.
  intros Hrun.
  destruct (customers db !! cid) as [c|] eqn:Hc.
  2:{ unfold debit in Hrun. store_ops. cbn in Hrun. rewrite Hc in Hrun. discriminate. }
  destruct (Z.le_gt_cases a (walletBalance c)) as [Hle|Hgt].
  2:{ rewrite (debit_insufficient db cid c a d o e Hc) in Hrun by lia. discriminate. }
  destruct (byReference (debitReference o e) db) eqn:Hr.
  { rewrite (debit_duplicate db cid c a d o e Hc Hle) in Hrun by eauto. discriminate. }
  eauto.
Qed.

Lemma credit_inv db cid a d o e res db1 :
  run (credit cid a d o e) db = (Ok res, db1) →
  ∃ c, customers db !! cid = Some c ∧ byReference (creditReference o e) db = None.
Proof.
  intros Hrun.
  destruct (customers db !! cid) as [c|] eqn:Hc.
  2:{ unfold credit in Hrun. store_ops. cbn in Hrun. rewrite Hc in Hrun. discriminate. }
  destruct (byReference (creditReference o e) db) eqn:Hr.
  { rewrite (credit_duplicate db cid c a d o e Hc) in Hrun by eauto. discriminate. }
  eauto.
Qed.

Lemma reserve_inv db cid c a d sc e T db1 :
  customers db !! cid = Some c →
  run (reserveBalance cid a d sc e) db = (Ok T, db1) →
  a ≤ walletBalance c.
Proof.
  intros Hc Hrun. destruct (Z.le_gt_cases a (walletBalance c)) as [Hle|Hgt]; [done|].
  unfold reserveBalance in Hrun. store_ops. cbn in Hrun. rewrite Hc in Hrun. cbn in Hrun.
  destruct (Z.ltb_spec (walletBalance c) a); [discriminate | lia].
Qed.

Lemma txn_id_inj r1 r2 : "txn_" +:+ r1 = "txn_" +:+ r2 → r1 = r2.
Proof. intros H. cbn in H. by simplify_eq. Qed.

(** ** C9: [completeReservation] writes the reservation-time snapshot *)

(** C9. [completeReservation] stores the [balanceAfter] recorded in the
    pending transaction as the account's balance, whatever the balance
    is at that moment.  So when a [debit] or a [credit] of a non-zero
    amount succeeds between [reserveBalance] and [completeReservation],
    the balance after completion is the reservation-time balance minus
    the reserved amount, and differs from the current balance minus the
    reserved amount: the intervening change is overwritten. *)
Theorem C9_complete_reservation_writes_snapshot :
  (∀ db tid T c e,
     txnOf db tid = Some T → status T = pending →
     customers db !! customerId T = Some c →
     balanceOf (run (completeReservation tid e) db).2 (customerId T) = Some (balanceAfter T))
  ∧ (∀ db cid c a d sc e1 T db1 x d' od oc e2 res db2 e3,
     customers db !! cid = Some c →
     run (reserveBalance cid a d sc e1) db = (Ok T, db1) →
     run (debit cid x d' od e2) db1 = (Ok res, db2)
       ∨ run (credit cid x d' oc e2) db1 = (Ok res, db2) →
     randomId e2 ≠ randomId e1 →
     let after := balanceOf (run (completeReservation (txn_id T) e3) db2).2 cid in
     after = Some (walletBalance c - a)
     ∧ (x ≠ 0 → after ≠ (λ current, current - a) <$> balanceOf db2 cid)).
Proof.
  split.
  - intros db tid T c e HT Hst Hc.
    destruct (complete_ok db tid T c e HT Hst Hc) as (T' & HT' & _).
    rewrite HT'. cbn [fst snd]. apply balanceOf_updated.
  - intros db cid c a d sc e1 T db1 x d' od oc e2 res db2 e3 Hc Hres Hmid Hfresh.
    pose proof (reserve_inv _ _ _ _ _ _ _ _ _ Hc Hres) as Hle.
    destruct (reserve_ok db cid c a d sc e1 Hc Hle)
      as (T0 & HT0 & Hid & Hcid & _ & Hst & _ & _ & Hba).
    rewrite HT0 in Hres. injection Hres as -> <-.
    set (db1 := {| customers := customers db;
                   walletTransactions :=
                     map_set ("txn_" +:+ randomId e1) T (walletTransactions db) |}) in *.
    assert (customers db1 !! cid = Some c) as Hc1 by done.
    assert ("txn_" +:+ randomId e2 ≠ txn_id T) as Hne.
    { rewrite Hid. intros H. by apply txn_id_inj in H. }
    assert (∃ c2 T2 b2,
              db2 = {| customers := <[cid := c2]> (customers db1);
                       walletTransactions :=
                         map_set ("txn_" +:+ randomId e2) T2 (walletTransactions db1) |}
              ∧ walletBalance c2 = b2 ∧ (x ≠ 0 → b2 ≠ walletBalance c))
      as (c2 & T2 & b2 & -> & Hb2 & Hx).
    { destruct Hmid as [Hd|Hcr].
      - destruct (debit_inv _ _ _ _ _ _ _ _ Hd) as (c1 & Hc1' & Hle1 & Hr1).
        rewrite Hc1 in Hc1'. injection Hc1' as <-.
        destruct (debit_ok db1 cid c x d' od e2 Hc1 Hle1 Hr1) as (T2 & HT2 & _).
        rewrite HT2 in Hd. injection Hd as _ <-.
        do 3 eexists. split; [reflexivity|]. split; [reflexivity|]. cbn. lia.
      - destruct (credit_inv _ _ _ _ _ _ _ _ Hcr) as (c1 & Hc1' & Hr1).
        rewrite Hc1 in Hc1'. injection Hc1' as <-.
        destruct (credit_ok db1 cid c x d' oc e2 Hc1 Hr1) as (T2 & HT2 & _).
        rewrite HT2 in Hcr. injection Hcr as _ <-.
        do 3 eexists. split; [reflexivity|]. split; [reflexivity|]. cbn. lia. }
    cbn zeta.
    match goal with |- context [run _ ?s] => set (db2 := s) end.
    assert (txnOf db2 (txn_id T) = Some T) as Hstored.
    { unfold txnOf, db2. cbn. rewrite map_get_set_ne by done.
      rewrite Hid. apply map_get_set_eq. }
    assert (customers db2 !! customerId T = Some c2) as Hc2.
    { unfold db2. cbn. rewrite Hcid. apply lookup_insert_eq. }
    destruct (complete_ok db2 (txn_id T) T c2 e3 Hstored Hst Hc2) as (T' & HT' & _).
    rewrite HT'. cbn [fst snd]. rewrite Hcid, balanceOf_updated, Hba.
    split; [done|]. intros Hx0.
    rewrite <- Hcid, (balanceOf_lookup db2 _ c2 Hc2). cbn. intros [=]. apply (Hx Hx0). lia.
Qed.

Lemma C9_complete_reservation_writes_snapshot_witness :
  ∃ T db1 res db2,
    run (reserveBalance "cust_001" 300 "hold" None (draw 1 "a1")) (seedDb 1000) = (Ok T, db1)
    ∧ run (credit "cust_001" 5000 "Top-up via card" noCreditOptions (draw 2 "b2")) db1 = (Ok res, db2)
    ∧ balanceOf db2 "cust_001" = Some 6000
    ∧ balanceOf (run (completeReservation (txn_id T) (draw 3 "c3")) db2).2 "cust_001" = Some 700.
Proof.
  destruct C9_complete_reservation_writes_snapshot as [_ H].
  assert (∃ T db1, run (reserveBalance "cust_001" 300 "hold" None (draw 1 "a1")) (seedDb 1000)
                    = (Ok T, db1)) as (T & db1 & H1) by (do 2 eexists; vm_compute; reflexivity).
  assert (∃ res db2, run (credit "cust_001" 5000 "Top-up via card" noCreditOptions (draw 2 "b2"))
                         (run (reserveBalance "cust_001" 300 "hold" None (draw 1 "a1"))
                              (seedDb 1000)).2
                    = (Ok res, db2) ∧ balanceOf db2 "cust_001" = Some 6000)
    as (res & db2 & H2 & Hb2) by (do 2 eexists; vm_compute; split; reflexivity).
  rewrite H1 in H2. cbn [snd] in H2.
  exists T, db1, res, db2. split; [exact H1|]. split; [exact H2|]. split; [exact Hb2|].
  apply (H (seedDb 1000) "cust_001" (seedCustomer 1000) 300 "hold" None (draw 1 "a1") T db1
           5000 "Top-up via card" noDebitOptions noCreditOptions (draw 2 "b2") res db2 (draw 3 "c3")
           eq_refl H1 (or_intror H2)).
  discriminate.
Defined.

(** ** Refunds *)

Lemma run_bind {S A B} (p : Async S A) (f : A → Async S B) (s : S) :
  run (bind p f) s =
    match run p s with
    | (Ok a, s') => run (f a) s'
    | (Throw e, s') => (Throw e, s')
    end.
Proof.
  revert s. induction p as [a|e|X act k IH|X call k IH]; intros s; cbn; [done | done | |].
  - destruct (act s) as [x s']. apply IH.
  - destruct (call s) as [o s']. apply IH.
Qed.

Lemma refund_ok db tid T c reason e :
  txnOf db tid = Some T → txn_type T = debit_t → status T ≠ reversed →
  customers db !! customerId T = Some c →
  byReference (generateReference credit_t None e) db = None →
  txnOf db ("txn_" +:+ randomId e) = None →
  ∃ C T',
    run (refund tid reason e) db =
      (Ok {| transaction := C;
             newBalance := formatBalance (customerId T) (walletBalance c + amount T) |},
       {| customers :=
            <[customerId T := applyUpdates c (balanceUpdate (walletBalance c + amount T)) (clock e)]>
              (customers db);
          walletTransactions :=
            map_set tid T' (map_set ("txn_" +:+ randomId e) C (walletTransactions db)) |})
    ∧ txn_id T' = txn_id T ∧ data T' = withStatus T reversed
    ∧ txn_type C = credit_t ∧ status C = completed ∧ amount C = amount T
    ∧ paymentMethod C = Some refund_pm ∧ balanceBefore C = walletBalance c.
Proof.
  intros HT Hty Hst Hc Hr Hid.
  assert ("txn_" +:+ randomId e ≠ tid) as Hne by (intros <-; congruence).
  set (o := {| copt_reference := None; copt_paymentMethod := Some refund_pm;
               copt_metadata := Some [("originalTransactionId", MStr tid);
                                      ("refundReason", MStr reason)] |}).
  destruct (credit_ok db (customerId T) c (amount T) ("Refund: " +:+ reason) o e Hc Hr)
    as (C & HC & _ & _ & HCty & HCst & HCam & HCbb & _).
  unfold refund, txnOf in *. unfold getWalletTransaction at 1. cbn [bind await run].
  rewrite HT. cbn [bind run].
  rewrite Hty, bool_decide_eq_true_2 by done. cbn [negb].
  rewrite bool_decide_eq_false_2 by done.
  rewrite run_bind. fold o. rewrite HC.
  unfold updateWalletTransactionStatus. cbn. rewrite map_get_set_ne by done. rewrite HT.
  cbn. do 2 eexists. split; [reflexivity|]. cbn.
  split; [done|]. split; [done|]. split; [done|]. split; [done|]. split; [done|].
  split; [|done].
  (* the payment method of the credit is the one the refund asked for *)
  unfold credit in HC. store_ops. cbn in HC. rewrite Hc in HC. cbn in HC.
  unfold byReference, creditReference in Hr. cbn in Hr. rewrite Hr in HC. cbn in HC.
  rewrite Hc in HC. cbn in HC. injection HC as <- _. done.
Qed.

(** ** C5: refund *)

(** C5. Refunding a [completed] debit transaction [T] of an existing
    account (with the generated reference and transaction id not yet in
    use) credits the account by exactly [amount T] and marks [T]
    [reversed]; a second refund of [T] fails with [DuplicateRefundError]
    and changes nothing.  Refunding a transaction that is not a debit
    fails with [InvalidTransactionError] ("Invalid transaction type for
    refund"), and refunding an unknown id fails with
    [TransactionNotFoundError].  In particular a [debit] followed by the
    refund of its transaction restores the balance the account had
    before the debit. *)
Theorem C5_refund_round_trip :
  (∀ db tid T c reason e,
     txnOf db tid = Some T → txn_type T = debit_t → status T = completed →
     customers db !! customerId T = Some c →
     byReference (generateReference credit_t None e) db = None →
     txnOf db ("txn_" +:+ randomId e) = None →
     ∃ res db1,
       run (refund tid reason e) db = (Ok res, db1)
       ∧ txn_type (transaction res) = credit_t ∧ amount (transaction res) = amount T
       ∧ balanceOf db1 (customerId T) = Some (walletBalance c + amount T)
       ∧ statusOf db1 tid = Some reversed
       ∧ ∀ reason' e', run (refund tid reason' e') db1 = (Throw DuplicateRefundError, db1))
  ∧ (∀ db tid T reason e,
       txnOf db tid = Some T → txn_type T ≠ debit_t →
       run (refund tid reason e) db = (Throw InvalidTransactionError, db))
  ∧ (∀ db tid reason e,
       txnOf db tid = None →
       run (refund tid reason e) db = (Throw TransactionNotFoundError, db))
  ∧ (∀ db cid a d o e res db1 reason e',
       run (debit cid a d o e) db = (Ok res, db1) →
       byReference (generateReference credit_t None e') db1 = None →
       txnOf db1 ("txn_" +:+ randomId e') = None →
       let r := run (refund (txn_id (transaction res)) reason e') db1 in
       (∃ res', r.1 = Ok res')
       ∧ balanceOf r.2 cid = balanceOf db cid
       ∧ statusOf r.2 (txn_id (transaction res)) = Some reversed).
Proof.
  split; [|split; [|split]].
  - intros db tid T c reason e HT Hty Hst Hc Hr Hid.
    destruct (refund_ok db tid T c reason e HT Hty ltac:(congruence) Hc Hr Hid)
      as (C & T' & Hrun & HidT' & HdT' & HCty & _ & HCam & _).
    do 2 eexists. split; [exact Hrun|]. cbn [transaction].
    split; [done|]. split; [done|]. split; [apply balanceOf_updated|].
    split; [by rewrite statusOf_set, HdT'|].
    intros reason' e'. unfold refund. unfold getWalletTransaction at 1.
    cbn [bind await run walletTransactions]. rewrite map_get_set_eq. cbn [bind run].
    rewrite HdT'. cbn [txn_type status withStatus].
    rewrite Hty, bool_decide_eq_true_2 by done. cbn [negb].
    by rewrite bool_decide_eq_true_2.
  - intros db tid T reason e HT Hty. unfold refund, txnOf in *.
    unfold getWalletTransaction at 1. cbn [bind await run]. rewrite HT. cbn [bind run].
    by rewrite bool_decide_eq_false_2.
  - intros db tid reason e HT. unfold refund, txnOf in *.
    unfold getWalletTransaction at 1. cbn [bind await run]. by rewrite HT.
  - intros db cid a d o e res db1 reason e' Hrun Hr Hid.
    destruct (debit_inv _ _ _ _ _ _ _ _ Hrun) as (c & Hc & Hle & Hr0).
    destruct (debit_ok db cid c a d o e Hc Hle Hr0)
      as (T & HT & HidT & Hcid & Hty & Hst & Ham & _).
    rewrite HT in Hrun. injection Hrun as <- <-. cbn [transaction] in *.
    match type of Hr with byReference _ ?s = None => set (db1 := s) in * end.
    assert (txnOf db1 (txn_id T) = Some T) as Hstored.
    { unfold txnOf, db1. cbn. rewrite HidT. apply map_get_set_eq. }
    assert (customers db1 !! customerId T
            = Some (applyUpdates c (balanceUpdate (walletBalance c - a)) (clock e))) as Hc1.
    { unfold db1. cbn. rewrite Hcid. apply lookup_insert_eq. }
    destruct (refund_ok db1 (txn_id T) T _ reason e' Hstored Hty ltac:(congruence) Hc1 Hr Hid)
      as (C & T' & Hrun' & _ & HdT' & _).
    cbn zeta. rewrite Hrun'. cbn [fst snd]. split; [eauto|].
    rewrite statusOf_set, HdT'. split; [|done].
    rewrite <- Hcid at 1. rewrite balanceOf_updated, (balanceOf_lookup db cid c Hc).
    rewrite Ham. cbn. f_equal. lia.
Qed.

Lemma C5_refund_round_trip_witness :
  ∃ res db1,
    run (debit "cust_001" 1000 "API: name-search" (withReference "X") (draw 1 "a1")) (seedDb 5000)
      = (Ok res, db1)
    ∧ balanceOf db1 "cust_001" = Some 4000
    ∧ balanceOf (run (refund (txn_id (transaction res)) "failed lookup" (draw 2 "b2")) db1).2
        "cust_001" = Some 5000
    ∧ statusOf (run (refund (txn_id (transaction res)) "failed lookup" (draw 2 "b2")) db1).2
        (txn_id (transaction res)) = Some reversed.
Proof.
  destruct C5_refund_round_trip as (_ & _ & _ & H).
  assert (∃ res db1,
            run (debit "cust_001" 1000 "API: name-search" (withReference "X") (draw 1 "a1"))
                (seedDb 5000) = (Ok res, db1)
            ∧ balanceOf db1 "cust_001" = Some 4000
            ∧ byReference (generateReference credit_t None (draw 2 "b2")) db1 = None
            ∧ txnOf db1 ("txn_" +:+ randomId (draw 2 "b2")) = None)
    as (res & db1 & Hrun & Hb & Hr & Hid)
    by (do 2 eexists; vm_compute; repeat split; reflexivity).
  exists res, db1. split; [exact Hrun|]. split; [exact Hb|].
  destruct (H (seedDb 5000) "cust_001" 1000 "API: name-search" (withReference "X") (draw 1 "a1")
              res db1 "failed lookup" (draw 2 "b2") Hrun Hr Hid) as (_ & Hback & Hrev).
  split; [exact Hback | exact Hrev].
Defined.

(** ** The balance-consistency invariant *)

Lemma map_values_set_fresh {V} k (v : V) m :
  map_get k m = None → map_values (map_set k v m) = (map_values m ++ [v])%list.
Proof. intros H. rewrite (map_set_fresh k v m H). unfold map_values. by rewrite map_app. Qed.

Lemma chained_snoc l t :
  chained (l ++ [t]) =
    (chained l && match last l with
                  | Some p => balanceAfter p =? balanceBefore t
                  | None => true
                  end)%bool.
Proof.
  induction l as [|x l IH]; [done|].
  destruct l as [|y l]; cbn.
  - by rewrite andb_true_r.
  - cbn in IH. rewrite IH. by rewrite andb_assoc.
Qed.

(** Writing a completed transaction of [cid] that starts from the stored
    balance, under a fresh id, and storing its [balanceAfter] as the
    balance, keeps every account consistent. *)
Lemma append_keeps_consistent initial db cid c (T : WalletTransaction) now who :
  customers db !! cid = Some c →
  txnOf db (txn_id T) = None →
  customerId T = cid → status T = completed → balanceBefore T = walletBalance c →
  consistent initial db who →
  consistent initial
    {| customers := <[cid := applyUpdates c (balanceUpdate (balanceAfter T)) now]> (customers db);
       walletTransactions := map_set (txn_id T) T (walletTransactions db) |} who.
Proof.
  intros Hc Hfresh Hcid Hst Hbb [Hch Hbal].
  unfold consistent, completedOf, balanceOf in *. cbn [customers walletTransactions].
  rewrite (map_values_set_fresh _ _ _ Hfresh), List.filter_app. cbn [List.filter].
  unfold isCompletedOf at 2 4. rewrite Hcid, Hst, bool_decide_eq_true_2 by done.
  destruct (String.eqb cid who) eqn:E; cbn [andb].
  - apply String.eqb_eq in E. subst who.
    rewrite lookup_insert_eq. cbn. rewrite Hc in Hbal. cbn in Hbal. injection Hbal as Hbal.
    split.
    + rewrite chained_snoc, Hch. cbn. unfold closingBalance in Hbal.
      destruct (last _); [|done]. apply Z.eqb_eq. lia.
    + unfold closingBalance. by rewrite last_snoc.
  - assert (cid ≠ who) as Hne by (intros ->; by rewrite String.eqb_refl in E).
    rewrite app_nil_r, lookup_insert_ne by done. done.
Qed.

Lemma ledgerStep_consistent initial who db db1 :
  ledgerStep db db1 → consistent initial db who → consistent initial db1 who.
Proof.
  intros Hstep Hcons. destruct Hstep as [db cid a d o e res db1 Hfresh Hrun
                                        |db cid a d o e res db1 Hfresh Hrun].
  - destruct (debit_inv _ _ _ _ _ _ _ _ Hrun) as (c & Hc & Hle & Hr).
    destruct (debit_ok db cid c a d o e Hc Hle Hr)
      as (T & HT & Hid & Hcid & _ & Hst & _ & Hbb & Hba & _).
    rewrite HT in Hrun. injection Hrun as _ <-. rewrite <- Hba, <- Hid.
    apply append_keeps_consistent; try done. by rewrite Hid.
  - destruct (credit_inv _ _ _ _ _ _ _ _ Hrun) as (c & Hc & Hr).
    destruct (credit_ok db cid c a d o e Hc Hr)
      as (T & HT & Hid & Hcid & _ & Hst & _ & Hbb & Hba & _).
    rewrite HT in Hrun. injection Hrun as _ <-. rewrite <- Hba, <- Hid.
    apply append_keeps_consistent; try done. by rewrite Hid.
Qed.

(** Debits and credits alone keep the ledger consistent: after any
    sequence of them, every account that was consistent still is. *)
Lemma debits_and_credits_keep_consistent initial who db db' :
  rtc ledgerStep db db' → consistent initial db who → consistent initial db' who.
Proof.
  induction 1 as [|db db1 db2 Hstep _ IH]; [done|].
  intros Hcons. apply IH. by apply (ledgerStep_consistent initial who db db1).
Qed.

(** ** C1: the invariant and [completeReservation] *)

(** C1. The balance-consistency invariant does not survive
    [completeReservation].  On the seed account with balance 1000:
    reserve 300 (pending, snapshot 700), debit 200 (balance 800), then
    complete the reservation.  Every call succeeds, and the ledger was
    consistent up to the completion.  Afterwards the stored balance is
    700, while the completed transactions in creation order are
    1000 -> 700 and 1000 -> 800: the chain is broken (in creation order
    and in the opposite order alike), and the most recent one closes at
    800. *)
Theorem C1_complete_reservation_breaks_consistency :
  ∃ T db1 res2 db2 res3 db3,
    run (reserveBalance "cust_001" 300 "hold" None (draw 1 "a1")) (seedDb 1000) = (Ok T, db1)
    ∧ run (debit "cust_001" 200 "API: name-search" noDebitOptions (draw 2 "b2")) db1 = (Ok res2, db2)
    ∧ run (completeReservation (txn_id T) (draw 3 "c3")) db2 = (Ok res3, db3)
    ∧ consistent 1000 (seedDb 1000) "cust_001"
    ∧ consistent 1000 db2 "cust_001"
    ∧ balanceOf db3 "cust_001" = Some 700
    ∧ map (λ t : WalletTransaction, (balanceBefore t, balanceAfter t)) (completedOf db3 "cust_001")
        = [(1000, 700); (1000, 800)]
    ∧ chained (completedOf db3 "cust_001") = false
    ∧ chained (reverse (completedOf db3 "cust_001")) = false
    ∧ closingBalance 1000 (completedOf db3 "cust_001") = 800
    ∧ ¬ consistent 1000 db3 "cust_001".
Proof.
  do 6 eexists.
  split; [vm_compute; reflexivity|]. split; [vm_compute; reflexivity|].
  split; [vm_compute; reflexivity|].
  split; [split; vm_compute; reflexivity|]. split; [split; vm_compute; reflexivity|].
  split; [vm_compute; reflexivity|]. split; [vm_compute; reflexivity|].
  split; [vm_compute; reflexivity|]. split; [vm_compute; reflexivity|].
  split; [vm_compute; reflexivity|].
  intros [H _]. vm_compute in H. discriminate.
Qed.

(** ** The middleware *)

Import WalletMiddleware.

Lemma run_try_catch {S A} (p : Async S A) (h : Error → Async S A) (s : S) :
  run (try_catch p h) s =
    match run p s with
    | (Ok a, s') => (Ok a, s')
    | (Throw e, s') => run (h e) s'
    end.
Proof.
  revert s. induction p as [a|e|X act k IH|X call k IH]; intros s; cbn; [done | | |].
  - by destruct (run (h e) s).
  - destruct (act s) as [x s']. apply IH.
  - destruct (call s) as [o s']. apply IH.
Qed.

Lemma run_lift {S T A} (get : T → S) (put : S → T → T) (p : Async S A) (t : T) :
  (∀ t, put (get t) t = t) →
  (∀ s t, get (put s t) = s) →
  (∀ s s' t, put s (put s' t) = put s t) →
  run (lift get put p) t = ((run p (get t)).1, put (run p (get t)).2 t).
Proof.
  intros Hgp Hpg Hpp. revert t.
  induction p as [a|e|X act k IH|X call k IH]; intros t; cbn.
  - by rewrite Hgp.
  - by rewrite Hgp.
  - destruct (act (get t)) as [x s']. rewrite IH, Hpg, Hpp. done.
  - destruct (call (get t)) as [o s']. rewrite IH, Hpg, Hpp. done.
Qed.

Lemma run_walletDebit cid a d o e w :
  run (walletDebit cid a d o e) w =
    ((run (debit cid a d o e) (db w)).1, setDb (run (debit cid a d o e) (db w)).2 w).
Proof.
  unfold walletDebit. apply run_lift; [by intros [] | done | done].
Qed.

(** A [debit] that throws has written nothing. *)
Lemma debit_throw_keeps_db db cid a d o e err db1 :
  run (debit cid a d o e) db = (Throw err, db1) → db1 = db.
Proof.
  intros Hrun.
  destruct (customers db !! cid) as [c|] eqn:Hc.
  2:{ unfold debit in Hrun. store_ops. cbn in Hrun. rewrite Hc in Hrun. cbn in Hrun. congruence. }
  destruct (Z.le_gt_cases a (walletBalance c)) as [Hle|Hgt].
  2:{ rewrite (debit_insufficient db cid c a d o e Hc) in Hrun by lia. congruence. }
  destruct (byReference (debitReference o e) db) eqn:Hr.
  { rewrite (debit_duplicate db cid c a d o e Hc Hle) in Hrun by eauto. congruence. }
  destruct (debit_ok db cid c a d o e Hc Hle Hr) as (T & HT & _).
  rewrite HT in Hrun. discriminate.
Qed.

(** What one invocation of [processCharge] does: it either skips,
    leaving the store, the request and the flag alone, or it raises the
    flag and calls [debit] once. *)
Lemma processCharge_cases e w :
  let r := run (processCharge e) w in
  (r.1 = Ok true ∧ db r.2 = db w ∧ hasCharged r.2 = hasCharged w ∧ req r.2 = req w)
  ∨ (hasCharged w = false ∧ hasCharged r.2 = true
     ∧ 200 ≤ statusCode w < 300
     ∧ ∃ customer ctx,
         req_customer (req w) = Some customer ∧ walletContext (req w) = Some ctx
         ∧ charged ctx = false ∧ priceKobo ctx ≠ 0
         ∧ let d := run (debit (cust_id customer) (priceKobo ctx) ("API: " +:+ serviceCode ctx)
                          (chargeOptions (req w) (statusCode w) (serviceCode ctx) e) e) (db w) in
           db r.2 = d.2
           ∧ ((∃ res, d.1 = Ok res ∧ r.1 = Ok true)
              ∨ (∃ err, d.1 = Throw err ∧ r.1 = Ok false ∧ d.2 = db w))).
Proof.
  unfold processCharge. cbn [bind sync run].
  destruct (hasCharged w) eqn:Hhc; [by left|].
  destruct (walletContext (req w)) as [ctx|] eqn:Hctx; [|by left].
  destruct (charged ctx) eqn:Hch; [by left|].
  destruct (priceKobo ctx =? 0) eqn:Hp; [by left|].
  destruct (req_customer (req w)) as [customer|] eqn:Hcu; [|by left].
  destruct (_ || _)%bool eqn:Hsc; [by left|].
  apply orb_false_elim in Hsc as [Hlo Hhi].
  apply Z.ltb_ge in Hlo. rewrite Z.geb_leb in Hhi. apply Z.leb_gt in Hhi.
  apply Z.eqb_neq in Hp.
  right. split; [done|].
  cbn [bind sync run]. rewrite run_try_catch, run_bind, run_walletDebit.
  cbn [db setHasCharged].
  destruct (run (debit _ _ _ _ _) (db w)) as [[res|err] d1] eqn:Hd; cbn [fst snd];
    cbn [run bind sync logWalletOperation writeLine setDb setHasCharged setWalletContext
         db hasCharged req fst snd].
  - split; [done|]. split; [lia|]. exists customer, ctx.
    split; [done|]. split; [done|]. split; [done|]. split; [done|].
    cbn zeta. rewrite Hd. cbn [fst snd]. split; [done|]. left. eauto.
  - pose proof (debit_throw_keeps_db _ _ _ _ _ _ _ _ Hd) as ->.
    split; [done|]. split; [lia|]. exists customer, ctx.
    split; [done|]. split; [done|]. split; [done|]. split; [done|].
    cbn zeta. rewrite Hd. cbn [fst snd]. split; [done|]. right. eauto.
Qed.

(** ** C7: the post-check stage charges at most once, and only on 2xx *)

(** C7. On a response status outside [200, 300) the post-check stage
    returns without touching the store: every balance and the set of
    transactions are as before.  Once the closure's [hasCharged] flag is
    raised, an invocation returns at once and changes nothing; and an
    invocation that is going to call [debit] raises the flag before its
    first [await], while the store is still untouched, so an invocation
    that starts in between is stopped by the flag as well.  Hence,
    however often the stage is invoked for one request and whatever the
    status is at each invocation, the store ends either unchanged or as
    one single successful [debit] leaves it. *)
Theorem C7_post_check_charges_at_most_once :
  (∀ e w, ¬ (200 ≤ statusCode w < 300) →
     let r := run (processCharge e) w in
     r.1 = Ok true ∧ db r.2 = db w ∧ hasCharged r.2 = hasCharged w)
  ∧ (∀ e w, hasCharged w = true → run (processCharge e) w = (Ok true, w))
  ∧ (∀ e w, let s := start (processCharge e) w in
       db s.2 = db w
       ∧ ((∃ b, s.1 = inl (Ok b)) ∧ hasCharged s.2 = hasCharged w
          ∨ (∃ rest, s.1 = inr rest) ∧ hasCharged s.2 = true))
  ∧ (∀ calls w,
       db (invokeAll calls w) = db w
       ∨ ∃ cid a d o e res,
           run (debit cid a d o e) (db w) = (Ok res, db (invokeAll calls w))).
Proof.
  split; [|split; [|split]].
  - intros e w Hst. destruct (processCharge_cases e w) as [(? & ? & ? & _)|(_ & _ & ? & _)];
      [done | lia].
  - intros e w Hhc. unfold processCharge. cbn [bind sync run]. by rewrite Hhc.
  - intros e w. unfold processCharge. cbn [bind sync start].
    destruct (hasCharged w) eqn:Hhc; [cbn; rewrite Hhc; eauto|].
    destruct (walletContext (req w)) as [ctx|]; [|cbn; rewrite Hhc; eauto].
    destruct (charged ctx); [cbn; rewrite Hhc; eauto|].
    destruct (priceKobo ctx =? 0); [cbn; rewrite Hhc; eauto|].
    destruct (req_customer (req w)) as [customer|]; [|cbn; rewrite Hhc; eauto].
    destruct (_ || _)%bool; [cbn; rewrite Hhc; eauto|].
    cbn. eauto.
  - intros calls w.
    set (Inv := λ w' : World,
           (hasCharged w' = false ∧ db w' = db w)
           ∨ (hasCharged w' = true
              ∧ (db w' = db w
                 ∨ ∃ cid a d o e res, run (debit cid a d o e) (db w) = (Ok res, db w')))).
    assert (∀ calls w', Inv w' → Inv (invokeAll calls w')) as Hinv.
    { clear calls. induction calls as [|[st e] calls IH]; intros w' Hw'; [done|].
      unfold invokeAll. cbn [foldl]. apply IH. unfold invoke. cbn [fst snd].
      match goal with |- Inv (run _ ?s).2 => set (w1 := s) end.
      destruct (processCharge_cases e w1)
        as [(_ & Hdb & Hhc & _)|(Hhc0 & Hhc1 & _ & customer & ctx & _ & _ & _ & _ & Hd & Hcase)].
      - unfold Inv in *. rewrite Hdb, Hhc. exact Hw'.
      - unfold Inv in *. right. split; [done|].
        destruct Hw' as [[_ Hsame]|[Hhc _]]; [|cbn in Hhc0; congruence].
        cbn zeta in Hd, Hcase. cbn [db w1] in Hd, Hcase. rewrite Hsame in Hd, Hcase.
        destruct Hcase as [(res & Hres & _)|(err & _ & _ & Hkeep)].
        + right. do 6 eexists. rewrite Hd. rewrite <- Hres. apply surjective_pairing.
        + left. by rewrite Hd. }
    destruct (Hinv calls w) as [[_ ?]|[_ ?]]; [| by left | done].
    unfold Inv. destruct (hasCharged w); [right|left]; auto.
Qed.

Lemma C7_post_check_charges_at_most_once_witness :
  ¬ (200 ≤ statusCode (sampleWorld 1000000 10000 500) < 300)
  ∧ db (run (processCharge (draw 1 "a1")) (sampleWorld 1000000 10000 500)).2 = seedDb 1000000.
Proof.
  split; [cbn; lia|].
  destruct C7_post_check_charges_at_most_once as [H _].
  apply (H (draw 1 "a1") (sampleWorld 1000000 10000 500)). cbn. lia.
Defined.

(** ** C4: when the response is released *)

Lemma res_json_released e w : released (res_json e w) = (start (chargeTask e) w).2.
Proof. unfold res_json. by destruct (start (chargeTask e) w). Qed.

(** The un-awaited charge task reaches its first [await] (the read of
    the customer inside [debit]) without having written to the store. *)
Lemma chargeTask_start_keeps_db e w : db (start (chargeTask e) w).2 = db w.
Proof.
  unfold chargeTask, processCharge. cbn [bind sync try_catch start].
  destruct (hasCharged w); [done|].
  destruct (walletContext (req w)) as [ctx|]; [|done].
  destruct (charged ctx); [done|].
  destruct (priceKobo ctx =? 0); [done|].
  destruct (req_customer (req w)) as [customer|]; [|done].
  destruct (_ || _)%bool; [done|].
  done.
Qed.

(** C4. The charge is not awaited before the response is released.
    [res.json] calls the async charge task without awaiting it and then
    returns [originalJson(body)]: the task has run only as far as its
    first [await], so for every request the store is still untouched
    when the response is released.  For the priced request of the sample
    (balance 1,000,000, price 10,000, status 200) the response is
    released with the balance at 1,000,000 and no transaction written,
    although the flag [hasCharged] is already raised; the debit to
    990,000 and its transaction appear only once the task has been
    resumed. *)
Theorem C4_response_released_before_charge_completes :
  (∀ e w, db (released (res_json e w)) = db w)
  ∧ let r := res_json (draw 1 "a1") (sampleWorld 1000000 10000 200) in
    hasCharged (released r) = true
    ∧ balanceOf (db (released r)) "cust_001" = Some 1000000
    ∧ walletTransactions (db (released r)) = []
    ∧ console (released r) = []
    ∧ balanceOf (db (settled r)) "cust_001" = Some 990000
    ∧ length (walletTransactions (db (settled r))) = 1%nat
    ∧ console (settled r) = [WalletLog CHARGE "Successfully charged for name-search"].
Proof.
  split.
  - intros e w. rewrite res_json_released. apply chargeTask_start_keeps_db.
  - vm_compute. repeat split; reflexivity.
Qed.

(** ** C8: the service code of an endpoint *)

Import PricingService.

Lemma indexOf_split pre x post :
  x ∉ pre → indexOf (pre ++ x :: post) x = Some (length pre).
Proof.
  induction pre as [|y pre IH]; intros Hx; cbn.
  - by rewrite String.eqb_refl.
  - apply not_elem_of_cons in Hx as [Hne Hx].
    destruct (String.eqb y x) eqn:E; [apply String.eqb_eq in E; congruence|].
    by rewrite IH.
Qed.

Lemma indexOf_Some l x i :
  indexOf l x = Some i →
  ∃ pre post, l = (pre ++ x :: post)%list ∧ (x ∉ pre) ∧ length pre = i.
Proof.
  revert i. induction l as [|y l IH]; intros i; cbn; [done|].
  destruct (String.eqb y x) eqn:E.
  - apply String.eqb_eq in E as ->. intros [= <-]. exists [], l. split; [done|].
    split; [apply not_elem_of_nil | done].
  - destruct (indexOf l x) as [j|]; [|done]. cbn. intros [= <-].
    destruct (IH j eq_refl) as (pre & post & -> & Hx & Hlen).
    exists (y :: pre), post. split; [done|]. split; [|by cbn; rewrite Hlen].
    apply not_elem_of_cons. split; [|done].
    intros ->. by rewrite String.eqb_refl in E.
Qed.

Lemma businessFallback_route pre code rest :
  "business" ∉ pre →
  businessFallback (pre ++ "business" :: code :: rest) =
    Some (if bool_decide (code = "identity")
          then match rest with c :: _ => c | [] => code end
          else code).
Proof.
  intros Hpre. unfold businessFallback. rewrite indexOf_split by done.
  rewrite length_app. cbn [length].
  destruct (Nat.ltb_spec (length pre + 1) (length pre + S (S (length rest)))); [|lia].
  replace (length pre + 1)%nat with (length pre + 1)%nat by done.
  rewrite !lookup_app_r by lia.
  replace (length pre + 1 - length pre)%nat with 1%nat by lia.
  replace (length pre + 2 - length pre)%nat with 2%nat by lia.
  cbn [lookup list_lookup].
  case_bool_decide as Hid.
  - rewrite bool_decide_eq_true_2 by congruence. cbn [andb].
    destruct rest as [|c rest]; cbn [length].
    + destruct (Nat.ltb_spec (length pre + 2) (length pre + 2)); [lia|]. by subst.
    + destruct (Nat.ltb_spec (length pre + 2) (length pre + S (S (S (length rest))))); [|lia].
      done.
  - rewrite bool_decide_eq_false_2 by congruence. done.
Qed.

Lemma businessFallback_no_route segments :
  (∀ pre code rest, segments ≠ (pre ++ "business" :: code :: rest)%list) →
  businessFallback segments = lastFallback segments.
Proof.
  intros Hno. unfold businessFallback.
  destruct (indexOf segments "business") as [i|] eqn:Hi; [|done].
  destruct (indexOf_Some _ _ _ Hi) as (pre & post & -> & _ & Hlen).
  destruct post as [|code rest]; [|by destruct (Hno pre code rest)].
  rewrite length_app. cbn [length].
  destruct (Nat.ltb_spec (i + 1) (length pre + 1)); [lia | done].
Qed.

Lemma lastFallback_digit pre a b :
  hasDigit b = true → lastFallback (pre ++ [a; b]) = Some a.
Proof. intros Hb. unfold lastFallback. rewrite reverse_app. cbn. by rewrite Hb. Qed.

Lemma pathSegments_truthy endpoint : Forall (λ s, truthy s = true) (pathSegments endpoint).
Proof.
  unfold pathSegments. apply Forall_forall. intros s Hs.
  apply list_elem_of_In, List.filter_In in Hs. tauto.
Qed.

Lemma lastFallback_None segments :
  Forall (λ s, truthy s = true) segments → lastFallback segments = None → segments = [].
Proof.
  intros Htruthy. unfold lastFallback.
  destruct (reverse segments) as [|b [|a l]] eqn:Hrev.
  - intros _. apply (f_equal reverse) in Hrev. by rewrite reverse_involutive in Hrev.
  - apply (f_equal reverse) in Hrev. rewrite reverse_involutive in Hrev. subst segments.
    apply Forall_inv in Htruthy. cbn in Htruthy. by rewrite Htruthy.
  - by destruct (hasDigit b).
Qed.

Lemma businessFallback_None segments :
  Forall (λ s, truthy s = true) segments → businessFallback segments = None → segments = [].
Proof.
  intros Htruthy. unfold businessFallback.
  destruct (indexOf segments "business") as [i|]; [|by apply lastFallback_None].
  destruct (Nat.ltb_spec (i + 1) (length segments)) as [Hlt|]; [|by apply lastFallback_None].
  destruct (segments !! (i + 1)%nat) as [next|] eqn:Hnext.
  2:{ apply lookup_ge_None in Hnext. lia. }
  destruct (_ && _)%bool eqn:Hcond; [|done].
  apply andb_true_iff in Hcond as [_ Hlt2]. apply Nat.ltb_lt in Hlt2.
  intros Hnone. apply lookup_ge_None in Hnone. lia.
Qed.

Lemma find_known_elem segments seg :
  find (includes knownServiceCodes) segments = Some seg →
  seg ∈ segments ∧ seg ∈ knownServiceCodes.
Proof.
  intros H. apply List.find_some in H as [Hin Hk]. split; [by apply list_elem_of_In|].
  unfold includes in Hk. apply List.existsb_exists in Hk as (k & Hk & E).
  apply String.eqb_eq in E as ->. by apply list_elem_of_In.
Qed.

Lemma find_known_None segments :
  (∀ seg, seg ∈ segments → seg ∉ knownServiceCodes) →
  find (includes knownServiceCodes) segments = None.
Proof.
  intros Hno. destruct (find _ segments) as [seg|] eqn:H; [|done].
  apply find_known_elem in H as [Hin Hk]. by destruct (Hno seg Hin).
Qed.

Lemma find_first_known pre seg post :
  (∀ s, s ∈ pre → s ∉ knownServiceCodes) → seg ∈ knownServiceCodes →
  find (includes knownServiceCodes) (pre ++ seg :: post) = Some seg.
Proof.
  intros Hpre Hk.
  assert (includes knownServiceCodes seg = true) as Hinc.
  { apply List.existsb_exists. exists seg.
    split; [by apply list_elem_of_In | apply String.eqb_refl]. }
  induction pre as [|y pre IH]; cbn [app find].
  - by rewrite Hinc.
  - destruct (includes knownServiceCodes y) eqn:E.
    + apply List.existsb_exists in E as (k & Hin & E). apply String.eqb_eq in E as ->.
      destruct (Hpre k); [left | by apply list_elem_of_In].
    + apply IH. intros s Hs. apply Hpre. by right.
Qed.

Lemma lastFallback_no_digit pre a b :
  hasDigit b = false → lastFallback (pre ++ [a; b]) = Some b.
Proof. intros Hb. unfold lastFallback. rewrite reverse_app. cbn. by rewrite Hb. Qed.

Lemma businessFallback_single only :
  truthy only = true → businessFallback [only] = Some only.
Proof.
  intros Ht. unfold businessFallback. cbn [indexOf].
  destruct (String.eqb only "business"); cbn; unfold lastFallback; cbn; by rewrite Ht.
Qed.

Lemma no_business_no_route segments :
  "business" ∉ segments →
  ∀ pre code rest, segments ≠ (pre ++ "business" :: code :: rest)%list.
Proof.
  intros Hno pre code rest ->. apply Hno, elem_of_app. right. left.
Qed.

(** C8, as stated, fails in its last clause.  The path
    /api/v1/reports/summary has no segment among the known service
    codes, no segment "business", and a last segment without a digit, so
    none of the three rules derives a code from it; the same holds for
    /health, which has a single segment.  The function does not return
    null for them: it returns the last segment. *)
Lemma C8_unmatched_path_is_not_null :
  pathSegments "/api/v1/reports/summary" = ["api"; "v1"; "reports"; "summary"]
  ∧ noKnownCode ["api"; "v1"; "reports"; "summary"]
  ∧ ("business" ∉ ["api"; "v1"; "reports"; "summary"])
  ∧ hasDigit "summary" = false
  ∧ getServiceCodeFromEndpoint "/api/v1/reports/summary" = Some "summary"
  ∧ pathSegments "/health" = ["health"]
  ∧ noKnownCode ["health"]
  ∧ ("business" ∉ ["health"])
  ∧ getServiceCodeFromEndpoint "/health" = Some "health"
  ∧ getServiceCodeFromEndpoint "/health" ≠ None
  ∧ getServiceCodeFromEndpoint "/api/v1/reports/summary" ≠ None.
Proof.
  split; [reflexivity|].
  split; [unfold noKnownCode; apply (bool_decide_unpack _); vm_compute; exact I|].
  split; [apply (bool_decide_unpack _); vm_compute; exact I|].
  split; [reflexivity|]. split; [reflexivity|]. split; [reflexivity|].
  split; [unfold noKnownCode; apply (bool_decide_unpack _); vm_compute; exact I|].
  split; [apply (bool_decide_unpack _); vm_compute; exact I|].
  split; [reflexivity|]. split; vm_compute; discriminate.
Qed.

(** C8 (amended). [getServiceCodeFromEndpoint] works on the non-empty
    path segments of the endpoint (query string dropped) and applies, in
    this order: (1) the first segment that is one of the known service
    codes; (2) otherwise, when "business" is followed by a segment, that
    segment - or, when that segment is "identity" and another follows,
    the one after it; (3) otherwise, when there are at least two
    segments and the last contains a digit, the second-to-last; (4)
    otherwise the last segment: the last of two or more when it contains
    no digit, and the only segment of a one-segment path.  It returns
    null exactly when the path has no segment at all. *)
Theorem C8_resolve_service_code endpoint :
  let segments := pathSegments endpoint in
  let result := getServiceCodeFromEndpoint endpoint in
  (∀ pre seg post, segments = (pre ++ seg :: post)%list → noKnownCode pre →
     seg ∈ knownServiceCodes → result = Some seg)
  ∧ (noKnownCode segments →
     ∀ pre code rest, segments = (pre ++ "business" :: code :: rest)%list → "business" ∉ pre →
       result = Some (if bool_decide (code = "identity")
                      then match rest with c :: _ => c | [] => code end
                      else code))
  ∧ (noKnownCode segments →
     (∀ pre code rest, segments ≠ (pre ++ "business" :: code :: rest)%list) →
     ∀ pre a b, segments = (pre ++ [a; b])%list → hasDigit b = true → result = Some a)
  ∧ (noKnownCode segments →
     (∀ pre code rest, segments ≠ (pre ++ "business" :: code :: rest)%list) →
     ∀ pre a b, segments = (pre ++ [a; b])%list → hasDigit b = false → result = Some b)
  ∧ (∀ only, segments = [only] → result = Some only)
  ∧ (result = None ↔ segments = []).
Proof.
  intros segments result. subst result. unfold getServiceCodeFromEndpoint. fold segments.
  split; [|split; [|split; [|split; [|split]]]].
  - intros pre seg post Hseg Hpre Hk. rewrite Hseg.
    rewrite (find_first_known pre seg post); [done | | done].
    by apply Forall_forall.
  - intros Hno pre code rest Hseg Hpre.
    rewrite (find_known_None segments) by (by apply Forall_forall). rewrite Hseg.
    by apply businessFallback_route.
  - intros Hno Hroute pre a b Hseg Hb.
    rewrite (find_known_None segments) by (by apply Forall_forall).
    rewrite (businessFallback_no_route _ Hroute), Hseg. by apply lastFallback_digit.
  - intros Hno Hroute pre a b Hseg Hb.
    rewrite (find_known_None segments) by (by apply Forall_forall).
    rewrite (businessFallback_no_route _ Hroute), Hseg. by apply lastFallback_no_digit.
  - intros only Hseg.
    pose proof (pathSegments_truthy endpoint) as Htruthy. fold segments in Htruthy.
    rewrite Hseg in Htruthy |- *. apply Forall_inv in Htruthy.
    cbn [find]. destruct (includes knownServiceCodes only); [done|].
    by apply businessFallback_single.
  - split.
    + destruct (find _ segments); [done|]. apply businessFallback_None, pathSegments_truthy.
    + intros ->. done.
Qed.

Lemma C8_resolve_service_code_witness :
  pathSegments "/api/v1/business/identity/nin/123?full=1"
    = ["api"; "v1"; "business"; "identity"; "nin"; "123"]
  ∧ noKnownCode ["api"; "v1"; "business"; "identity"; "nin"; "123"]
  ∧ getServiceCodeFromEndpoint "/api/v1/business/identity/nin/123?full=1" = Some "nin"
  ∧ pathSegments "/api/v1/reports/42" = ["api"; "v1"; "reports"; "42"]
  ∧ hasDigit "42" = true
  ∧ getServiceCodeFromEndpoint "/api/v1/reports/42" = Some "reports"
  ∧ pathSegments "/api/v1/reports/summary" = ["api"; "v1"; "reports"; "summary"]
  ∧ hasDigit "summary" = false
  ∧ getServiceCodeFromEndpoint "/api/v1/reports/summary" = Some "summary"
  ∧ getServiceCodeFromEndpoint "/health" = Some "health"
  ∧ getServiceCodeFromEndpoint "/?page=2" = None.
Proof.
  assert (noKnownCode ["api"; "v1"; "business"; "identity"; "nin"; "123"]) as Hno.
  { unfold noKnownCode. apply (bool_decide_unpack _). vm_compute. exact I. }
  assert ("business" ∉ ["api"; "v1"]) as Hpre.
  { apply (bool_decide_unpack _). vm_compute. exact I. }
  assert (noKnownCode ["api"; "v1"; "reports"; "42"]) as Hno42.
  { unfold noKnownCode. apply (bool_decide_unpack _). vm_compute. exact I. }
  assert ("business" ∉ ["api"; "v1"; "reports"; "42"]) as Hb42.
  { apply (bool_decide_unpack _). vm_compute. exact I. }
  assert (noKnownCode ["api"; "v1"; "reports"; "summary"]) as HnoS.
  { unfold noKnownCode. apply (bool_decide_unpack _). vm_compute. exact I. }
  assert ("business" ∉ ["api"; "v1"; "reports"; "summary"]) as HbS.
  { apply (bool_decide_unpack _). vm_compute. exact I. }
  split; [reflexivity|]. split; [exact Hno|]. split.
  { destruct (C8_resolve_service_code "/api/v1/business/identity/nin/123?full=1") as (_ & H & _).
    exact (H Hno ["api"; "v1"] "identity" ["nin"; "123"] eq_refl Hpre). }
  split; [reflexivity|]. split; [reflexivity|]. split.
  { destruct (C8_resolve_service_code "/api/v1/reports/42") as (_ & _ & H & _).
    exact (H Hno42 (no_business_no_route _ Hb42) ["api"; "v1"] "reports" "42" eq_refl eq_refl). }
  split; [reflexivity|]. split; [reflexivity|]. split.
  { destruct (C8_resolve_service_code "/api/v1/reports/summary") as (_ & _ & _ & H & _).
    exact (H HnoS (no_business_no_route _ HbS) ["api"; "v1"] "reports" "summary"
             eq_refl eq_refl). }
  split.
  { destruct (C8_resolve_service_code "/health") as (_ & _ & _ & _ & H & _).
    exact (H "health" eq_refl). }
  destruct (C8_resolve_service_code "/?page=2") as (_ & _ & _ & _ & _ & H).
  apply H. reflexivity.
Defined.

(** * Further properties of the ledger *)

(** ** Queries and the affordability check *)

Lemma getBalance_run db cid :
  run (getBalance cid) db =
    (match customers db !! cid with
     | Some c => Ok (formatBalance cid (walletBalance c))
     | None => Throw (WalletNotFoundError cid)
     end, db).
Proof. unfold getBalance. store_ops. cbn. by destruct (customers db !! cid). Qed.

Lemma hasSufficientBalance_run db cid a :
  run (hasSufficientBalance cid a) db =
    (match customers db !! cid with
     | Some c => Ok (walletBalance c >=? a)
     | None => Throw (WalletNotFoundError cid)
     end, db).
Proof.
  unfold hasSufficientBalance. rewrite run_bind, getBalance_run.
  by destruct (customers db !! cid).
Qed.

(** X1. [hasSufficientBalance] reads and never writes, and on an
    existing account it answers [true] exactly when a [debit] of that
    amount - and likewise a [reserveBalance] - would not be refused for
    insufficient balance. *)
Theorem X1_affordability_check_agrees_with_debit db cid c a :
  customers db !! cid = Some c →
  let r := run (hasSufficientBalance cid a) db in
  r.2 = db
  ∧ (∃ b, r.1 = Ok b)
  ∧ (∀ d o e,
       r.1 = Ok true ↔
       ¬ ∃ required current short,
           (run (debit cid a d o e) db).1 = Throw (InsufficientBalanceError required current short))
  ∧ (∀ d sc e,
       r.1 = Ok true ↔ ∃ T db1, run (reserveBalance cid a d sc e) db = (Ok T, db1)).
Proof.
  intros Hc r. subst r. rewrite hasSufficientBalance_run, Hc. cbn [fst snd].
  split; [done|]. split; [eauto|]. split.
  - intros d o e. split.
    + intros [= H]. rewrite Z.geb_leb in H. apply Z.leb_le in H.
      intros (rq & cur & sf & Hthrow).
      destruct (byReference (debitReference o e) db) eqn:Hr.
      * rewrite (debit_duplicate db cid c a d o e Hc H) in Hthrow by eauto. discriminate.
      * destruct (debit_ok db cid c a d o e Hc H Hr) as (T & HT & _).
        rewrite HT in Hthrow. discriminate.
    + intros Hno. f_equal. rewrite Z.geb_leb. apply Z.leb_le.
      destruct (Z.le_gt_cases a (walletBalance c)) as [|Hgt]; [done|].
      destruct Hno. rewrite (debit_insufficient db cid c a d o e Hc) by lia. cbn. eauto.
  - intros d sc e. split.
    + intros [= H]. rewrite Z.geb_leb in H. apply Z.leb_le in H.
      destruct (reserve_ok db cid c a d sc e Hc H) as (T & HT & _). eauto.
    + intros (T & db1 & H). apply (reserve_inv _ _ _ _ _ _ _ _ _ Hc) in H.
      f_equal. rewrite Z.geb_leb. by apply Z.leb_le.
Qed.

Lemma X1_affordability_check_agrees_with_debit_witness :
  customers (seedDb 1000) !! "cust_001" = Some (seedCustomer 1000)
  ∧ run (hasSufficientBalance "cust_001" 1001) (seedDb 1000) = (Ok false, seedDb 1000)
  ∧ ∃ required current short,
      (run (debit "cust_001" 1001 "API: name-search" noDebitOptions (draw 1 "a1")) (seedDb 1000)).1
        = Throw (InsufficientBalanceError required current short).
Proof.
  split; [reflexivity|]. split; [reflexivity|].
  destruct (X1_affordability_check_agrees_with_debit (seedDb 1000) "cust_001"
              (seedCustomer 1000) 1001 eq_refl) as (_ & _ & H & _).
  destruct (H "API: name-search" noDebitOptions (draw 1 "a1")) as [_ Hback].
  destruct (run (debit "cust_001" 1001 "API: name-search" noDebitOptions (draw 1 "a1"))
                (seedDb 1000)).1 as [res|err] eqn:E.
  - vm_compute in E. discriminate.
  - vm_compute in E. injection E as <-. eauto.
Defined.

(** ** A successful debit *)

(** X2. A [debit] that succeeds never leaves the account with a
    negative balance, whatever the balance and the amount were; the
    balance it reports is the one it stored. *)
Theorem X2_successful_debit_leaves_nonnegative_balance db cid a d o e res db1 :
  run (debit cid a d o e) db = (Ok res, db1) →
  ∃ b, balanceOf db1 cid = Some b ∧ 0 ≤ b ∧ balanceKobo (newBalance res) = b
       ∧ balanceAfter (transaction res) = b.
Proof.
  intros Hrun.
  destruct (debit_inv _ _ _ _ _ _ _ _ Hrun) as (c & Hc & Hle & Hr).
  destruct (debit_ok db cid c a d o e Hc Hle Hr) as (T & HT & _ & _ & _ & _ & _ & _ & Hba & _).
  rewrite HT in Hrun. injection Hrun as <- <-.
  exists (walletBalance c - a). rewrite balanceOf_updated. cbn. repeat split; [lia | done].
Qed.

Lemma X2_successful_debit_leaves_nonnegative_balance_witness :
  ∃ res db1,
    run (debit "cust_001" (-500) "adjust" noDebitOptions (draw 1 "a1")) (seedDb (-300))
      = (Ok res, db1)
    ∧ ∃ b, balanceOf db1 "cust_001" = Some b ∧ 0 ≤ b.
Proof.
  assert (∃ res db1,
            run (debit "cust_001" (-500) "adjust" noDebitOptions (draw 1 "a1")) (seedDb (-300))
              = (Ok res, db1)) as (res & db1 & Hrun)
    by (do 2 eexists; vm_compute; reflexivity).
  exists res, db1. split; [exact Hrun|].
  destruct (X2_successful_debit_leaves_nonnegative_balance _ _ _ _ _ _ _ _ Hrun)
    as (b & Hb & Hpos & _).
  exists b. split; [exact Hb | exact Hpos].
Defined.

(** ** What a debit or a credit leaves alone *)

(** X3. A successful [debit] or [credit] of one account changes no other
    account, keeps that account's other fields, and changes no stored
    transaction other than the one it writes. *)
Theorem X3_debit_and_credit_touch_one_account db cid a d od oc e res db1 :
  run (debit cid a d od e) db = (Ok res, db1)
    ∨ run (credit cid a d oc e) db = (Ok res, db1) →
  (∀ who, who ≠ cid → customers db1 !! who = customers db !! who)
  ∧ (∃ c c1, customers db !! cid = Some c ∧ customers db1 !! cid = Some c1
       ∧ cust_id c1 = cust_id c ∧ email c1 = email c ∧ cust_status c1 = cust_status c
       ∧ cust_createdAt c1 = cust_createdAt c)
  ∧ (∀ tid, tid ≠ txn_id (transaction res) → txnOf db1 tid = txnOf db tid)
  ∧ txnOf db1 (txn_id (transaction res)) = Some (transaction res).
Proof.
  intros Hrun.
  assert (∃ c b T,
            customers db !! cid = Some c
            ∧ res = {| transaction := T; newBalance := formatBalance cid b |}
            ∧ txn_id T = "txn_" +:+ randomId e
            ∧ db1 = {| customers := <[cid := applyUpdates c (balanceUpdate b) (clock e)]> (customers db);
                       walletTransactions :=
                         map_set ("txn_" +:+ randomId e) T (walletTransactions db) |})
    as (c & b & T & Hc & -> & Hid & ->).
  { destruct Hrun as [Hd|Hcr].
    - destruct (debit_inv _ _ _ _ _ _ _ _ Hd) as (c & Hc & Hle & Hr).
      destruct (debit_ok db cid c a d od e Hc Hle Hr) as (T & HT & Hid & _).
      rewrite HT in Hd. injection Hd as <- <-. eauto 10.
    - destruct (credit_inv _ _ _ _ _ _ _ _ Hcr) as (c & Hc & Hr).
      destruct (credit_ok db cid c a d oc e Hc Hr) as (T & HT & Hid & _).
      rewrite HT in Hcr. injection Hcr as <- <-. eauto 10. }
  cbn [customers transaction]. split; [|split; [|split]].
  - intros who Hne. by rewrite lookup_insert_ne.
  - exists c, (applyUpdates c (balanceUpdate b) (clock e)).
    rewrite lookup_insert_eq. done.
  - intros tid Hne. unfold txnOf. cbn. rewrite map_get_set_ne; [done | congruence].
  - unfold txnOf. cbn. rewrite Hid. apply map_get_set_eq.
Qed.

Lemma X3_debit_and_credit_touch_one_account_witness :
  ∃ res db1,
    run (debit "cust_001" 200 "API: name-search" noDebitOptions (draw 1 "a1")) (seedDb 1000)
      = (Ok res, db1)
    ∧ customers db1 !! "cust_002" = customers (seedDb 1000) !! "cust_002".
Proof.
  assert (∃ res db1,
            run (debit "cust_001" 200 "API: name-search" noDebitOptions (draw 1 "a1"))
                (seedDb 1000) = (Ok res, db1)) as (res & db1 & Hrun)
    by (do 2 eexists; vm_compute; reflexivity).
  exists res, db1. split; [exact Hrun|].
  destruct (X3_debit_and_credit_touch_one_account (seedDb 1000) "cust_001" 200
              "API: name-search" noDebitOptions noCreditOptions (draw 1 "a1") res db1
              (or_introl Hrun)) as (Hothers & _).
  apply Hothers. discriminate.
Defined.

(** ** An account that does not exist *)

(** X4. On a customer id that the store does not know, [getBalance],
    [hasSufficientBalance], [debit], [credit] and [reserveBalance] all
    fail with [WalletNotFoundError] carrying that id, and write nothing. *)
Theorem X4_unknown_account_is_rejected db cid :
  customers db !! cid = None →
  run (getBalance cid) db = (Throw (WalletNotFoundError cid), db)
  ∧ (∀ a, run (hasSufficientBalance cid a) db = (Throw (WalletNotFoundError cid), db))
  ∧ (∀ a d o e, run (debit cid a d o e) db = (Throw (WalletNotFoundError cid), db))
  ∧ (∀ a d o e, run (credit cid a d o e) db = (Throw (WalletNotFoundError cid), db))
  ∧ (∀ a d sc e, run (reserveBalance cid a d sc e) db = (Throw (WalletNotFoundError cid), db)).
Proof.
  intros Hc. split; [by rewrite getBalance_run, Hc|].
  split; [intros a; by rewrite hasSufficientBalance_run, Hc|].
  split; [|split].
  - intros a d o e. unfold debit. store_ops. cbn. by rewrite Hc.
  - intros a d o e. unfold credit. store_ops. cbn. by rewrite Hc.
  - intros a d sc e. unfold reserveBalance. store_ops. cbn. by rewrite Hc.
Qed.

Lemma X4_unknown_account_is_rejected_witness :
  customers (seedDb 1000) !! "cust_404" = None
  ∧ run (credit "cust_404" 500 "Top-up via card" noCreditOptions (draw 1 "a1")) (seedDb 1000)
      = (Throw (WalletNotFoundError "cust_404"), seedDb 1000).
Proof.
  split; [reflexivity|].
  destruct (X4_unknown_account_is_rejected (seedDb 1000) "cust_404" eq_refl)
    as (_ & _ & _ & H & _).
  apply H.
Defined.

(** ** A reservation is settled once *)

Lemma complete_inv db tid e res db1 :
  run (completeReservation tid e) db = (Ok res, db1) →
  ∃ T c, txnOf db tid = Some T ∧ status T = pending ∧ customers db !! customerId T = Some c.
Proof.
  intros Hrun. unfold completeReservation, txnOf in *.
  unfold getWalletTransaction in Hrun at 1. cbn [bind await run] in Hrun.
  destruct (map_get tid (walletTransactions db)) as [T|] eqn:HT; [|cbn in Hrun; discriminate].
  cbn [bind run] in Hrun.
  destruct (decide (status T = pending)) as [Hst|Hst].
  2:{ rewrite bool_decide_eq_false_2 in Hrun by done. discriminate. }
  rewrite bool_decide_eq_true_2 in Hrun by done. cbn [negb] in Hrun.
  destruct (customers db !! customerId T) as [c|] eqn:Hc; [eauto|].
  unfold updateCustomer in Hrun. cbn in Hrun. rewrite Hc in Hrun. discriminate.
Qed.

Lemma cancel_inv db tid e db1 :
  run (cancelReservation tid e) db = (Ok tt, db1) →
  ∃ T, txnOf db tid = Some T ∧ status T = pending.
Proof.
  intros Hrun. unfold cancelReservation, txnOf in *.
  unfold getWalletTransaction in Hrun at 1. cbn [bind await run] in Hrun.
  destruct (map_get tid (walletTransactions db)) as [T|] eqn:HT; [|cbn in Hrun; discriminate].
  cbn [bind run] in Hrun.
  destruct (decide (status T = pending)) as [Hst|Hst]; [eauto|].
  rewrite bool_decide_eq_false_2 in Hrun by done. discriminate.
Qed.

(** On a stored transaction that is not pending, both ways of settling
    a reservation are refused and write nothing. *)
Lemma settled_reservation_is_refused db tid T :
  txnOf db tid = Some T → status T ≠ pending →
  ∀ e, run (completeReservation tid e) db = (Throw InvalidTransactionStatusError, db)
       ∧ run (cancelReservation tid e) db = (Throw InvalidTransactionStatusError, db).
Proof.
  intros HT Hst e. unfold completeReservation, cancelReservation, txnOf in *.
  unfold getWalletTransaction. cbn [bind await run]. rewrite HT. cbn [bind run].
  by rewrite bool_decide_eq_false_2.
Qed.

(** X5. A reservation is settled at most once: after a successful
    [completeReservation] or [cancelReservation], every further
    [completeReservation] or [cancelReservation] of the same transaction
    fails with [InvalidTransactionStatusError] and writes nothing.  On an
    unknown id both fail with [TransactionNotFoundError]. *)
Theorem X5_reservation_is_settled_once db tid :
  (∀ e res db1,
     run (completeReservation tid e) db = (Ok res, db1)
       ∨ run (cancelReservation tid e) db = (Ok tt, db1) →
     ∀ e', run (completeReservation tid e') db1 = (Throw InvalidTransactionStatusError, db1)
           ∧ run (cancelReservation tid e') db1 = (Throw InvalidTransactionStatusError, db1))
  ∧ (txnOf db tid = None →
     ∀ e, run (completeReservation tid e) db = (Throw TransactionNotFoundError, db)
          ∧ run (cancelReservation tid e) db = (Throw TransactionNotFoundError, db)).
Proof.
  split.
  - intros e res db1 [Hrun|Hrun] e'.
    + destruct (complete_inv _ _ _ _ _ Hrun) as (T & c & HT & Hst & Hc).
      destruct (complete_ok db tid T c e HT Hst Hc) as (T' & HT' & _ & Hd & _).
      rewrite HT' in Hrun. injection Hrun as _ <-.
      apply (settled_reservation_is_refused _ tid T').
      * unfold txnOf. cbn. apply map_get_set_eq.
      * by rewrite Hd.
    + destruct (cancel_inv _ _ _ _ Hrun) as (T & HT & Hst).
      destruct (cancel_ok db tid T e HT Hst) as (T' & HT' & _ & Hd & _).
      rewrite HT' in Hrun. injection Hrun as <-.
      apply (settled_reservation_is_refused _ tid T').
      * unfold txnOf. cbn. apply map_get_set_eq.
      * by rewrite Hd.
  - intros HT e. unfold completeReservation, cancelReservation, txnOf in *.
    unfold getWalletTransaction. cbn [bind await run]. by rewrite HT.
Qed.

Lemma X5_reservation_is_settled_once_witness :
  ∃ T db1 db2,
    run (reserveBalance "cust_001" 500 "hold" None (draw 1 "a1")) (seedDb 1000) = (Ok T, db1)
    ∧ run (cancelReservation (txn_id T) (draw 2 "b2")) db1 = (Ok tt, db2)
    ∧ run (completeReservation (txn_id T) (draw 3 "c3")) db2
        = (Throw InvalidTransactionStatusError, db2).
Proof.
  assert (∃ T db1 db2,
            run (reserveBalance "cust_001" 500 "hold" None (draw 1 "a1")) (seedDb 1000) = (Ok T, db1)
            ∧ run (cancelReservation (txn_id T) (draw 2 "b2")) db1 = (Ok tt, db2))
    as (T & db1 & db2 & H1 & H2) by (do 3 eexists; vm_compute; split; reflexivity).
  exists T, db1, db2. split; [exact H1|]. split; [exact H2|].
  destruct (X5_reservation_is_settled_once db1 (txn_id T)) as [H _].
  apply (H (draw 2 "b2") {| transaction := T; newBalance := formatBalance "" 0 |} db2
           (or_intror H2) (draw 3 "c3")).
Defined.

(** ** Refunding a reservation *)

(** X6. [refund] asks for a debit that is not yet reversed, not for a
    completed one.  Refunding a reservation that is still pending -
    whose amount was never taken from the balance - therefore succeeds:
    the account is credited with the reserved amount on top of its
    untouched balance, the reservation becomes [reversed], and it can no
    longer be completed. *)
Theorem X6_refund_of_a_pending_reservation db cid c a d sc e T db1 reason e' :
  customers db !! cid = Some c →
  run (reserveBalance cid a d sc e) db = (Ok T, db1) →
  byReference (generateReference credit_t None e') db1 = None →
  txnOf db1 ("txn_" +:+ randomId e') = None →
  let r := run (refund (txn_id T) reason e') db1 in
  (∃ res, r.1 = Ok res ∧ amount (transaction res) = a)
  ∧ balanceOf db1 cid = Some (walletBalance c)
  ∧ balanceOf r.2 cid = Some (walletBalance c + a)
  ∧ statusOf r.2 (txn_id T) = Some reversed
  ∧ ∀ e'', run (completeReservation (txn_id T) e'') r.2
            = (Throw InvalidTransactionStatusError, r.2).
Proof.
  intros Hc Hres Hr Hid.
  pose proof (reserve_inv _ _ _ _ _ _ _ _ _ Hc Hres) as Hle.
  destruct (reserve_ok db cid c a d sc e Hc Hle)
    as (T0 & HT0 & HidT & Hcid & Hty & Hst & Ham & _).
  rewrite HT0 in Hres. injection Hres as -> <-.
  match type of Hr with byReference _ ?s = None => set (db1 := s) in * end.
  assert (txnOf db1 (txn_id T) = Some T) as Hstored.
  { unfold txnOf, db1. cbn. rewrite HidT. apply map_get_set_eq. }
  assert (customers db1 !! customerId T = Some c) as Hc1 by (by rewrite Hcid).
  destruct (refund_ok db1 (txn_id T) T c reason e' Hstored Hty ltac:(congruence) Hc1 Hr Hid)
    as (C & T' & Hrun & _ & HdT' & _ & _ & HCam & _).
  cbn zeta. rewrite Hrun. cbn [fst snd].
  split; [eexists; split; [reflexivity|]; cbn; congruence|].
  split; [by apply balanceOf_lookup|].
  split; [by rewrite Hcid, balanceOf_updated, Ham|].
  split; [by rewrite statusOf_set, HdT'|].
  intros e''. apply (settled_reservation_is_refused _ (txn_id T) T').
  - unfold txnOf. cbn. apply map_get_set_eq.
  - by rewrite HdT'.
Qed.

Lemma X6_refund_of_a_pending_reservation_witness :
  ∃ T db1,
    run (reserveBalance "cust_001" 500 "hold" None (draw 1 "a1")) (seedDb 1000) = (Ok T, db1)
    ∧ balanceOf (run (refund (txn_id T) "cancelled" (draw 2 "b2")) db1).2 "cust_001" = Some 1500.
Proof.
  assert (∃ T db1,
            run (reserveBalance "cust_001" 500 "hold" None (draw 1 "a1")) (seedDb 1000) = (Ok T, db1)
            ∧ byReference (generateReference credit_t None (draw 2 "b2")) db1 = None
            ∧ txnOf db1 ("txn_" +:+ randomId (draw 2 "b2")) = None)
    as (T & db1 & H1 & Hr & Hid) by (do 2 eexists; vm_compute; repeat split; reflexivity).
  exists T, db1. split; [exact H1|].
  destruct (X6_refund_of_a_pending_reservation (seedDb 1000) "cust_001" (seedCustomer 1000) 500
              "hold" None (draw 1 "a1") T db1 "cancelled" (draw 2 "b2") eq_refl H1 Hr Hid)
    as (_ & _ & Hb & _).
  exact Hb.
Defined.

(** ** Admin adjustments *)

Import WalletAdmin.

(** X7. [adminCredit] is a [credit] tagged with payment method [admin];
    [adminDebit] is a [debit] and passes no payment method, so its
    transaction carries [api_charge] like any charge made by the
    middleware, and only its description and metadata tell it apart.
    [adminDebit] is subject to the affordability check of [debit]. *)
Theorem X7_admin_adjustments db cid c a reason adminId e :
  customers db !! cid = Some c →
  (byReference (generateReference credit_t None e) db = None →
     ∃ res db1, run (adminCredit cid a reason adminId e) db = (Ok res, db1)
       ∧ paymentMethod (transaction res) = Some admin
       ∧ txn_type (transaction res) = credit_t
       ∧ description (transaction res) = "Admin Credit: " +:+ reason
       ∧ balanceOf db1 cid = Some (walletBalance c + a))
  ∧ (a ≤ walletBalance c → byReference (generateReference debit_t None e) db = None →
     ∃ res db1, run (adminDebit cid a reason adminId e) db = (Ok res, db1)
       ∧ paymentMethod (transaction res) = Some api_charge
       ∧ txn_type (transaction res) = debit_t
       ∧ description (transaction res) = "Admin Debit: " +:+ reason
       ∧ metadata (transaction res)
           = Some [("adminId", MStr adminId); ("reason", MStr reason);
                   ("adjustmentType", MStr "debit")]
       ∧ balanceOf db1 cid = Some (walletBalance c - a))
  ∧ (walletBalance c < a →
     run (adminDebit cid a reason adminId e) db
       = (Throw (InsufficientBalanceError a (walletBalance c) (a - walletBalance c)), db)).
Proof.
  intros Hc. split; [|split].
  - intros Hr. unfold adminCredit, credit, byReference in *. store_ops. cbn.
    rewrite Hc. cbn. rewrite Hr. cbn. rewrite Hc. cbn.
    do 2 eexists. split; [reflexivity|]. cbn. rewrite balanceOf_updated. done.
  - intros Hle Hr. unfold adminDebit, debit, byReference in *. store_ops. cbn.
    rewrite Hc. cbn. destruct (Z.ltb_spec (walletBalance c) a); [lia|]. cbn.
    rewrite Hr. cbn. rewrite Hc. cbn.
    do 2 eexists. split; [reflexivity|]. cbn. rewrite balanceOf_updated. done.
  - intros Hlt. unfold adminDebit. by apply debit_insufficient.
Qed.

Lemma X7_admin_adjustments_witness :
  customers (seedDb 1000) !! "cust_001" = Some (seedCustomer 1000)
  ∧ ∃ res db1,
      run (adminDebit "cust_001" 400 "chargeback" "admin_1" (draw 1 "a1")) (seedDb 1000)
        = (Ok res, db1)
      ∧ paymentMethod (transaction res) = Some api_charge.
Proof.
  split; [reflexivity|].
  destruct (X7_admin_adjustments (seedDb 1000) "cust_001" (seedCustomer 1000) 400 "chargeback"
              "admin_1" (draw 1 "a1") eq_refl) as (_ & H & _).
  destruct (H ltac:(cbn; lia) eq_refl) as (res & db1 & Hrun & Hpm & _).
  exists res, db1. split; [exact Hrun | exact Hpm].
Defined.

(** ** Listing transactions *)

Import MemoryLedgerQueries.

Lemma insertNewestFirst_perm t l : insertNewestFirst t l ≡ₚ t :: l.
Proof.
  induction l as [|u l IH]; cbn; [done|].
  destruct (createdAt u <=? createdAt t); [done|].
  rewrite IH. apply Permutation_swap.
Qed.

Lemma sortNewestFirst_perm l : sortNewestFirst l ≡ₚ l.
Proof.
  induction l as [|t l IH]; cbn; [done|].
  unfold sortNewestFirst in *. cbn. by rewrite insertNewestFirst_perm, IH.
Qed.

Lemma insertNewestFirst_sorted t l :
  StronglySorted newerOrSame l → StronglySorted newerOrSame (insertNewestFirst t l).
Proof.
  induction 1 as [|u l Hl IH Hu]; cbn; [repeat constructor|].
  destruct (Z.leb_spec (createdAt u) (createdAt t)) as [Hle|Hgt].
  - constructor; [by constructor|]. constructor; [done|].
    eapply Forall_impl; [exact Hu|]. unfold newerOrSame. intros; cbn in *; lia.
  - constructor; [done|]. rewrite insertNewestFirst_perm. constructor; [|done].
    unfold newerOrSame. lia.
Qed.

Lemma sortNewestFirst_sorted l : StronglySorted newerOrSame (sortNewestFirst l).
Proof.
  induction l as [|t l IH]; [constructor|].
  unfold sortNewestFirst in *. cbn. by apply insertNewestFirst_sorted.
Qed.

(** The sort is stable: a list that is already newest-first, ties
    included, comes back as it is. *)
Lemma sortNewestFirst_keeps_sorted l :
  StronglySorted newerOrSame l → sortNewestFirst l = l.
Proof.
  induction 1 as [|t l Hl IH Ht]; [done|].
  unfold sortNewestFirst in *. cbn. rewrite IH.
  destruct l as [|u l]; [done|]. cbn.
  apply Forall_inv in Ht. unfold newerOrSame in Ht.
  by destruct (Z.leb_spec (createdAt u) (createdAt t)); [|lia].
Qed.

Lemma StronglySorted_sublist {A} (R : relation A) l1 l2 :
  l1 `sublist_of` l2 → StronglySorted R l2 → StronglySorted R l1.
Proof.
  induction 1 as [|x l1 l2 Hsub IH|x l1 l2 Hsub IH]; intros Hs; [done| |].
  - apply StronglySorted_inv in Hs as [Hs Hx]. constructor; [by apply IH|].
    apply Forall_forall. intros y Hy. rewrite Forall_forall in Hx. apply Hx.
    by eapply elem_of_sublist.
  - apply StronglySorted_inv in Hs as [Hs _]. by apply IH.
Qed.

Lemma sliceFrom_sublist {A} start (l : list A) : sliceFrom start l `sublist_of` l.
Proof. apply sublist_drop. Qed.

Lemma sliceTo_sublist {A} stop (l : list A) : sliceTo stop l `sublist_of` l.
Proof. apply sublist_take. Qed.

Lemma sliceTo_length {A} stop (l : list A) : 0 < stop → (length (sliceTo stop l) ≤ Z.to_nat stop)%nat.
Proof.
  intros Hpos. unfold sliceTo. rewrite length_take.
  destruct (Z.ltb_spec stop 0); lia.
Qed.

(** X8. [listWalletTransactions] never writes.  [total] counts all the
    stored transactions of the customer, whatever the pagination; the
    page holds only stored transactions of that customer, newest first;
    a positive [limit] bounds its length; and with
    no offset (or offset 0) and no limit - or limit 0, which the code
    treats as no limit - the page holds all of them. *)
Theorem X8_transaction_listing customer options db :
  let mine := List.filter (fun t : WalletTransaction => String.eqb (customerId t) customer)
                          (map_values (walletTransactions db)) in
  ∃ page total,
    listWalletTransactions customer options db = (Ok (page, total), db)
    ∧ total = length mine
    ∧ page `sublist_of` sortNewestFirst mine
    ∧ (∀ t : WalletTransaction,
         t ∈ page → customerId t = customer ∧ t ∈ map_values (walletTransactions db))
    ∧ StronglySorted newerOrSame page
    ∧ (∀ n, limit options = Some n → 0 < n → (length page ≤ Z.to_nat n)%nat)
    ∧ (offset options = None ∨ offset options = Some 0 →
       limit options = None ∨ limit options = Some 0 →
       page = sortNewestFirst mine ∧ length page = total).
Proof.
  intros mine. unfold listWalletTransactions. fold mine.
  set (sorted := sortNewestFirst mine).
  set (afterOffset := match offset options with
                      | Some o => if o =? 0 then sorted else sliceFrom o sorted
                      | None => sorted
                      end).
  set (page := match limit options with
               | Some n => if n =? 0 then afterOffset else sliceTo n afterOffset
               | None => afterOffset
               end).
  assert (afterOffset `sublist_of` sorted) as Hsub1.
  { unfold afterOffset. destruct (offset options) as [o|]; [|done].
    destruct (o =? 0); [done | apply sliceFrom_sublist]. }
  assert (page `sublist_of` afterOffset) as Hsub2.
  { unfold page. destruct (limit options) as [n|]; [|done].
    destruct (n =? 0); [done | apply sliceTo_sublist]. }
  assert (page `sublist_of` sorted) as Hsub by (by etrans).
  exists page, (length sorted). split; [done|].
  split; [unfold sorted; by rewrite sortNewestFirst_perm|].
  split; [done|]. split; [|split; [|split]].
  - intros t Ht. apply (elem_of_sublist _ _ _ Ht) in Hsub as Ht'. clear Ht. rename Ht' into Ht.
    unfold sorted in Ht. rewrite sortNewestFirst_perm in Ht.
    apply list_elem_of_In, List.filter_In in Ht as [Hin Hc].
    split; [by apply String.eqb_eq | by apply list_elem_of_In].
  - eapply StronglySorted_sublist; [exact Hsub | apply sortNewestFirst_sorted].
  - intros n Hn Hpos. unfold page. rewrite Hn.
    destruct (Z.eqb_spec n 0); [lia|]. by apply sliceTo_length.
  - intros Hoff Hlim.
    assert (afterOffset = sorted) as Ha.
    { unfold afterOffset. by destruct Hoff as [->| ->]. }
    assert (page = sorted) as Hp.
    { unfold page. rewrite Ha. by destruct Hlim as [->| ->]. }
    by rewrite Hp.
Qed.

Lemma X8_transaction_listing_witness :
  ∃ res db1 page,
    run (debit "cust_001" 200 "API: name-search" noDebitOptions (draw 1 "a1")) (seedDb 1000)
      = (Ok res, db1)
    ∧ listWalletTransactions "cust_001" {| limit := Some 0; offset := None |} db1
      = (Ok (page, 1%nat), db1)
    ∧ length page = 1%nat.
Proof.
  assert (∃ res db1,
            run (debit "cust_001" 200 "API: name-search" noDebitOptions (draw 1 "a1"))
                (seedDb 1000) = (Ok res, db1)
            ∧ length (List.filter (fun t : WalletTransaction => String.eqb (customerId t) "cust_001")
                                  (map_values (walletTransactions db1))) = 1%nat)
    as (res & db1 & Hrun & Hlen) by (do 2 eexists; vm_compute; split; reflexivity).
  destruct (X8_transaction_listing "cust_001" {| limit := Some 0; offset := None |} db1)
    as (page & total & Hlist & Htotal & _ & _ & _ & _ & Hall).
  destruct (Hall (or_introl eq_refl) (or_intror eq_refl)) as [_ Hpage].
  rewrite Hlen in Htotal. subst total.
  exists res, db1, page. split; [exact Hrun|]. split; [exact Hlist | exact Hpage].
Defined.

(** ** The history summary *)

Lemma sumOver_perm f l l' : l ≡ₚ l' → sumOver f l = sumOver f l'.
Proof.
  induction 1 as [|x l l' _ IH|x y l|l1 l2 l3 _ IH1 _ IH2]; cbn; [done | | | congruence].
  - by rewrite IH.
  - lia.
Qed.

Lemma sumOver_app f l l' : sumOver f (l ++ l')%list = sumOver f l + sumOver f l'.
Proof. induction l as [|x l IH]; cbn; [done|]. rewrite IH. lia. Qed.

Lemma addToSummary_parts credits debits t :
  addToSummary (credits, debits) t = (credits + creditPart t, debits + debitPart t).
Proof.
  unfold addToSummary, creditPart, debitPart.
  repeat case_bool_decide; cbn; f_equal; try lia; congruence.
Qed.

Lemma foldl_addToSummary l credits debits :
  foldl addToSummary (credits, debits) l
    = (credits + sumOver creditPart l, debits + sumOver debitPart l).
Proof.
  revert credits debits. induction l as [|t l IH]; intros credits debits; cbn [foldl sumOver].
  - f_equal; lia.
  - rewrite addToSummary_parts, IH. f_equal; lia.
Qed.

(** The unpaginated history of an account, in closed form. *)
Lemma getTransactionHistory_all db who :
  ∃ h, run (getTransactionHistory who noListOptions) db = (Ok h, db)
       ∧ transactions h = sortNewestFirst (transactionsOf db who)
       ∧ total h = length (transactionsOf db who)
       ∧ totalCredits h = sumOver creditPart (transactionsOf db who)
       ∧ totalDebits h = sumOver debitPart (transactionsOf db who)
       ∧ netChange h = totalCredits h - totalDebits h.
Proof.
  unfold getTransactionHistory, listWalletTransactions. cbn [bind await run noListOptions limit offset].
  fold (transactionsOf db who).
  rewrite foldl_addToSummary. cbn.
  eexists. split; [reflexivity|]. cbn.
  rewrite !(sumOver_perm _ _ _ (sortNewestFirst_perm _)).
  split; [done|]. split; [by rewrite sortNewestFirst_perm|].
  split; [lia|]. split; lia.
Qed.

Lemma transactionsOf_step db cid c (T : WalletTransaction) b now who :
  txnOf db (txn_id T) = None → customerId T = cid →
  transactionsOf {| customers := <[cid := applyUpdates c (balanceUpdate b) now]> (customers db);
                    walletTransactions := map_set (txn_id T) T (walletTransactions db) |} who
    = (transactionsOf db who ++ (if String.eqb cid who then [T] else []))%list.
Proof.
  intros Hfresh Hcid. unfold transactionsOf. cbn [walletTransactions].
  rewrite (map_values_set_fresh _ _ _ Hfresh), List.filter_app. cbn. by rewrite Hcid.
Qed.

(** One step moves the balance of every account by exactly what it adds
    to the net change of that account's history. *)
Lemma ledgerStep_net db db1 who b :
  ledgerStep db db1 → balanceOf db who = Some b →
  balanceOf db1 who = Some (b + (netOf db1 who - netOf db who)).
Proof.
  intros Hstep Hb.
  assert (∃ cid c (T : WalletTransaction) delta,
            customers db !! cid = Some c
            ∧ txnOf db (txn_id T) = None ∧ customerId T = cid
            ∧ creditPart T - debitPart T = delta
            ∧ db1 = {| customers :=
                         <[cid := applyUpdates c (balanceUpdate (walletBalance c + delta)) (createdAt T)]>
                           (customers db);
                       walletTransactions := map_set (txn_id T) T (walletTransactions db) |})
    as (cid & c & T & delta & Hc & Hfresh & Hcid & Hdelta & ->).
  { destruct Hstep as [db cid a d o e res db1 Hfresh Hrun|db cid a d o e res db1 Hfresh Hrun].
    - destruct (debit_inv _ _ _ _ _ _ _ _ Hrun) as (c & Hc & Hle & Hr).
      destruct (debit_ok db cid c a d o e Hc Hle Hr)
        as (T & HT & Hid & Hcid & Hty & Hst & Ham & _ & _ & _ & Hcr).
      rewrite HT in Hrun. injection Hrun as _ <-.
      exists cid, c, T, (- a). rewrite Hid, Hcr. split; [done|]. split; [done|].
      split; [done|]. split; [|by replace (walletBalance c + - a) with (walletBalance c - a) by lia].
      unfold creditPart, debitPart. rewrite Hty, Hst, Ham.
      rewrite bool_decide_eq_false_2 by done. rewrite !bool_decide_eq_true_2 by done. cbn. lia.
    - destruct (credit_inv _ _ _ _ _ _ _ _ Hrun) as (c & Hc & Hr).
      destruct (credit_ok db cid c a d o e Hc Hr)
        as (T & HT & Hid & Hcid & Hty & Hst & Ham & _ & _ & _ & Hcr).
      rewrite HT in Hrun. injection Hrun as _ <-.
      exists cid, c, T, a. rewrite Hid, Hcr. split; [done|]. split; [done|].
      split; [done|]. split; [|done].
      unfold creditPart, debitPart. rewrite Hty, Hst, Ham.
      rewrite !bool_decide_eq_true_2 by done. rewrite bool_decide_eq_false_2 by done. cbn. lia. }
  unfold netOf. rewrite (transactionsOf_step db cid c T _ _ who Hfresh Hcid).
  rewrite !sumOver_app. unfold balanceOf in *. cbn [customers].
  destruct (String.eqb cid who) eqn:E.
  - apply String.eqb_eq in E. subst who. rewrite lookup_insert_eq. cbn.
    rewrite Hc in Hb. cbn in Hb. injection Hb as <-. f_equal. lia.
  - assert (cid ≠ who) as Hne by (intros ->; by rewrite String.eqb_refl in E).
    rewrite lookup_insert_ne by done. rewrite Hb. cbn. f_equal. lia.
Qed.

(** X9. Over any sequence of successful debits and credits (each under
    a fresh transaction id), the balance of every account moves by
    exactly the change of [netChange] in its unpaginated transaction
    history, and [netChange] is [totalCredits - totalDebits].  For an
    account that starts without transactions the balance is its
    starting balance plus [netChange]. *)
Theorem X9_balance_follows_history db db' who b :
  rtc ledgerStep db db' → balanceOf db who = Some b →
  ∃ h h',
    run (WalletAdmin.getTransactionHistory who noListOptions) db = (Ok h, db)
    ∧ run (WalletAdmin.getTransactionHistory who noListOptions) db' = (Ok h', db')
    ∧ netChange h' = totalCredits h' - totalDebits h'
    ∧ balanceOf db' who = Some (b + (netChange h' - netChange h))
    ∧ (transactionsOf db who = [] → balanceOf db' who = Some (b + netChange h')).
Proof.
  intros Hsteps Hb.
  assert (balanceOf db' who = Some (b + (netOf db' who - netOf db who))) as Hnet.
  { revert b Hb. induction Hsteps as [db|db db1 db2 Hstep _ IH]; intros b Hb.
    - rewrite Hb. f_equal. lia.
    - rewrite (IH _ (ledgerStep_net _ _ _ _ Hstep Hb)). f_equal. lia. }
  destruct (getTransactionHistory_all db who) as (h & Hh & _ & _ & Hc & Hd & Hn).
  destruct (getTransactionHistory_all db' who) as (h' & Hh' & _ & _ & Hc' & Hd' & Hn').
  exists h, h'. split; [done|]. split; [done|]. split; [done|].
  assert (netChange h = netOf db who) as -> by (unfold netOf; lia).
  assert (netChange h' = netOf db' who) as -> by (unfold netOf; lia).
  split; [done|]. intros Hempty. rewrite Hnet. unfold netOf at 2. rewrite Hempty. cbn.
  f_equal. lia.
Qed.

Lemma X9_balance_follows_history_witness :
  ∃ db' h',
    rtc ledgerStep (seedDb 1000) db'
    ∧ run (WalletAdmin.getTransactionHistory "cust_001" noListOptions) db' = (Ok h', db')
    ∧ netChange h' = 300
    ∧ balanceOf db' "cust_001" = Some 1300.
Proof.
  assert (∃ res1 db1 res2 db2,
            run (credit "cust_001" 500 "Top-up via card" noCreditOptions (draw 1 "a1")) (seedDb 1000)
              = (Ok res1, db1)
            ∧ run (debit "cust_001" 200 "API: name-search" noDebitOptions (draw 2 "b2")) db1
              = (Ok res2, db2)
            ∧ txnOf (seedDb 1000) ("txn_" +:+ randomId (draw 1 "a1")) = None
            ∧ txnOf db1 ("txn_" +:+ randomId (draw 2 "b2")) = None)
    as (res1 & db1 & res2 & db2 & H1 & H2 & F1 & F2)
    by (do 4 eexists; vm_compute; repeat split; reflexivity).
  assert (rtc ledgerStep (seedDb 1000) db2) as Hsteps.
  { eapply rtc_l; [exact (step_credit _ _ _ _ _ _ _ _ F1 H1)|].
    eapply rtc_l; [exact (step_debit _ _ _ _ _ _ _ _ F2 H2)|]. apply rtc_refl. }
  destruct (X9_balance_follows_history (seedDb 1000) db2 "cust_001" 1000 Hsteps eq_refl)
    as (h & h' & Hh & Hh' & _ & _ & Hfrom0).
  specialize (Hfrom0 eq_refl).
  assert (balanceOf db2 "cust_001" = Some 1300) as Hb.
  { generalize H2. generalize H1. clear. intros H1 H2.
    vm_compute in H1. injection H1 as _ <-. vm_compute in H2. injection H2 as _ <-.
    reflexivity. }
  exists db2, h'. split; [exact Hsteps|]. split; [exact Hh'|].
  rewrite Hb in Hfrom0. injection Hfrom0 as Hn. split; [lia | exact Hb].
Defined.

(** ** The history summary after a refund *)

Lemma map_set_replace {V} k (v v' : V) m rest :
  map_get k m = None →
  map_set k v' (m ++ (k, v) :: rest) = (m ++ (k, v') :: rest)%list.
Proof.
  induction m as [|[k0 x] m IH]; cbn.
  - by rewrite String.eqb_refl.
  - destruct (String.eqb k0 k); [done|]. intros H. by rewrite IH.
Qed.

(** X10. The summary of [getTransactionHistory] counts completed
    transactions only.  After a [debit] of [a] and the refund of its
    transaction, the debit is [reversed] and drops out of [totalDebits],
    while the refund stays in [totalCredits]: the balance is back where
    it was, but [netChange] of the unpaginated history has grown by
    [a]. *)
Theorem X10_refund_distorts_the_summary db cid a d o e res db1 reason e' :
  txnOf db ("txn_" +:+ randomId e) = None →
  run (debit cid a d o e) db = (Ok res, db1) →
  byReference (generateReference credit_t None e') db1 = None →
  txnOf db1 ("txn_" +:+ randomId e') = None →
  let db2 := (run (refund (txn_id (transaction res)) reason e') db1).2 in
  ∃ h h2,
    run (getTransactionHistory cid noListOptions) db = (Ok h, db)
    ∧ run (getTransactionHistory cid noListOptions) db2 = (Ok h2, db2)
    ∧ balanceOf db2 cid = balanceOf db cid
    ∧ totalDebits h2 = totalDebits h
    ∧ totalCredits h2 = totalCredits h + a
    ∧ netChange h2 = netChange h + a
    ∧ total h2 = (total h + 2)%nat.
Proof.
  intros Hfresh Hrun Hr Hid.
  destruct (debit_inv _ _ _ _ _ _ _ _ Hrun) as (c & Hc & Hle & Hr0).
  destruct (debit_ok db cid c a d o e Hc Hle Hr0)
    as (T & HT & HidT & Hcid & Hty & Hst & Ham & _).
  rewrite HT in Hrun. injection Hrun as <- <-. cbn [transaction] in *.
  match type of Hr with byReference _ ?s = None => set (db1 := s) in * end.
  assert (txnOf db1 (txn_id T) = Some T) as Hstored.
  { unfold txnOf, db1. cbn. rewrite HidT. apply map_get_set_eq. }
  assert (customers db1 !! customerId T
          = Some (applyUpdates c (balanceUpdate (walletBalance c - a)) (clock e))) as Hc1.
  { unfold db1. cbn. rewrite Hcid. apply lookup_insert_eq. }
  destruct (refund_ok db1 (txn_id T) T _ reason e' Hstored Hty ltac:(congruence) Hc1 Hr Hid)
    as (C & T' & Hrun' & HidT' & HdT' & HCty & HCst & HCam & _).
  assert (customerId C = cid) as HCcid.
  { unfold refund, txnOf in *. unfold getWalletTransaction in Hrun' at 1.
    cbn [bind await run] in Hrun'. rewrite Hstored in Hrun'. cbn [bind run] in Hrun'.
    rewrite Hty, bool_decide_eq_true_2 in Hrun' by done. cbn [negb] in Hrun'.
    rewrite bool_decide_eq_false_2 in Hrun' by congruence.
    rewrite run_bind in Hrun'.
    match type of Hrun' with context [run (credit ?x ?y ?z ?o ?en) ?s] =>
      destruct (credit_ok s x _ y z o en Hc1 Hr) as (C0 & HC0 & _ & HC0cid & _)
    end.
    rewrite HC0 in Hrun'. unfold updateWalletTransactionStatus in Hrun'. cbn in Hrun'.
    rewrite map_get_set_ne in Hrun' by (intros E; rewrite <- E, Hid in Hstored; discriminate).
    unfold txnOf in Hstored. cbn in Hstored. rewrite Hstored in Hrun'. cbn in Hrun'.
    injection Hrun' as <- _. congruence. }
  cbn zeta. rewrite Hrun'. cbn [snd].
  match goal with |- context [getTransactionHistory cid noListOptions] =>
    idtac end.
  set (db2 := {| customers := _; walletTransactions := _ |}).
  destruct (getTransactionHistory_all db cid) as (h & Hh & _ & Htot & Hcr & Hde & Hn).
  destruct (getTransactionHistory_all db2 cid) as (h2 & Hh2 & _ & Htot2 & Hcr2 & Hde2 & Hn2).
  exists h, h2. split; [done|]. split; [done|].
  assert (transactionsOf db2 cid = (transactionsOf db cid ++ [T'; C])%list) as Hlist.
  { unfold transactionsOf, db2, db1. cbn [walletTransactions].
    unfold txnOf in Hfresh.
    rewrite (map_set_fresh _ T _ Hfresh).
    assert (map_get ("txn_" +:+ randomId e')
                    (walletTransactions db ++ [("txn_" +:+ randomId e, T)]) = None) as Hfresh'.
    { unfold txnOf, db1 in Hid. cbn in Hid. by rewrite (map_set_fresh _ T _ Hfresh) in Hid. }
    rewrite (map_set_fresh _ C _ Hfresh'). rewrite <- app_assoc. cbn [app].
    rewrite HidT, (map_set_replace _ T T' _ _ Hfresh).
    unfold map_values. rewrite map_app, List.filter_app. cbn.
    rewrite HCcid, String.eqb_refl.
    replace (customerId T') with cid by (by rewrite HdT'). by rewrite String.eqb_refl. }
  assert (creditPart T' = 0 ∧ debitPart T' = 0 ∧ creditPart C = a ∧ debitPart C = 0)
    as (HT'c & HT'd & HCc & HCd).
  { unfold creditPart, debitPart. rewrite HdT'. cbn [txn_type status amount withStatus].
    rewrite Hty, HCty, HCst, HCam, Ham.
    repeat case_bool_decide; cbn; repeat split; congruence. }
  rewrite Hcr2, Hde2, Hn2, Hcr2, Hde2, Htot2, Hlist, !sumOver_app, length_app. cbn.
  rewrite HT'c, HT'd, HCc, HCd, Hn, Hcr, Hde, Htot.
  split; [|repeat split; lia].
  unfold db2. rewrite <- Hcid at 1. rewrite balanceOf_updated, (balanceOf_lookup db cid c Hc).
  rewrite Ham. cbn. f_equal. lia.
Qed.

Lemma X10_refund_distorts_the_summary_witness :
  ∃ res db1 h2,
    run (debit "cust_001" 1000 "API: name-search" noDebitOptions (draw 1 "a1")) (seedDb 5000)
      = (Ok res, db1)
    ∧ let db2 := (run (refund (txn_id (transaction res)) "failed lookup" (draw 2 "b2")) db1).2 in
      run (getTransactionHistory "cust_001" noListOptions) db2 = (Ok h2, db2)
      ∧ balanceOf db2 "cust_001" = Some 5000
      ∧ netChange h2 = 1000.
Proof.
  assert (∃ res db1,
            run (debit "cust_001" 1000 "API: name-search" noDebitOptions (draw 1 "a1"))
                (seedDb 5000) = (Ok res, db1)
            ∧ byReference (generateReference credit_t None (draw 2 "b2")) db1 = None
            ∧ txnOf db1 ("txn_" +:+ randomId (draw 2 "b2")) = None)
    as (res & db1 & Hrun & Hr & Hid) by (do 2 eexists; vm_compute; repeat split; reflexivity).
  destruct (X10_refund_distorts_the_summary (seedDb 5000) "cust_001" 1000 "API: name-search"
              noDebitOptions (draw 1 "a1") res db1 "failed lookup" (draw 2 "b2")
              eq_refl Hrun Hr Hid)
    as (h & h2 & Hh & Hh2 & Hb & _ & _ & Hn & _).
  exists res, db1, h2. split; [exact Hrun|]. cbn zeta.
  split; [exact Hh2|]. split; [exact Hb|].
  vm_compute in Hh. injection Hh as <-. exact Hn.
Defined.

(** * Properties of the pricing lookup *)

Import MemoryPricing PricingLookup.

Ltac pricing_ops :=
  unfold getServicePricing, createServicePricing, updateServicePricing, deleteServicePricing,
    listServicePricing, rememberPricing, setCache, setCacheLastUpdated, setServicePricing in *.

(** [getPrice] in closed form: the answer of the cache if it gives one,
    else the store's. *)
Lemma getPrice_run code now st :
  run (getPrice code now) st =
    match cacheAnswer code now st with
    | Some result => (Ok result, st)
    | None =>
        match (servicePricing st !! code : option ServicePricing) with
        | Some p => (Ok (if isActive p then Some p else None), (rememberPricing code p now st).2)
        | None => (Ok None, st)
        end
    end.
Proof.
  unfold getPrice. cbn [bind sync run].
  destruct (cacheAnswer code now st); [done|].
  unfold getServicePricing. cbn [bind await run].
  destruct (servicePricing st !! code) as [p|]; [|done]. cbn [bind sync run].
  by destruct (rememberPricing code p now st).
Qed.

Lemma rememberPricing_store code p now st :
  servicePricing (rememberPricing code p now st).2 = servicePricing st.
Proof. unfold rememberPricing. by destruct (pricingCache st). Qed.

Lemma rememberPricing_coherent code (p : ServicePricing) now st :
  servicePricing st !! code = Some p → coherent st → coherent (rememberPricing code p now st).2.
Proof.
  intros Hp Hco cache Hcache k q Hq. rewrite rememberPricing_store.
  unfold rememberPricing in Hcache. destruct (pricingCache st) as [c|] eqn:Hc; cbn in Hcache.
  - injection Hcache as <-. destruct (decide (code = k)) as [->|Hne].
    + rewrite lookup_insert_eq in Hq. congruence.
    + rewrite lookup_insert_ne in Hq by done. by apply (Hco c).
  - injection Hcache as <-. destruct (decide (code = k)) as [->|Hne].
    + rewrite lookup_singleton_eq in Hq. congruence.
    + by rewrite lookup_singleton_ne in Hq.
Qed.

Lemma cacheAnswer_coherent code now st result :
  coherent st → cacheAnswer code now st = Some result → result = activePricing st code.
Proof.
  intros Hco. unfold cacheAnswer, activePricing.
  destruct (pricingCache st) as [cache|] eqn:Hcache; [|done].
  destruct (cacheLastUpdated st); [|done].
  destruct (_ <? _); [|done].
  destruct (cache !! code) as [p|] eqn:Hp; [|done].
  rewrite (Hco cache Hcache code p Hp). by destruct (isActive p); intros [= <-].
Qed.

Lemma getPrice_reports code now st :
  coherent st →
  (run (getPrice code now) st).1 = Ok (activePricing st code)
  ∧ servicePricing (run (getPrice code now) st).2 = servicePricing st
  ∧ coherent (run (getPrice code now) st).2.
Proof.
  intros Hco. rewrite getPrice_run.
  destruct (cacheAnswer code now st) as [result|] eqn:Hans.
  - cbn. by rewrite (cacheAnswer_coherent _ _ _ _ Hco Hans).
  - unfold activePricing.
    destruct (servicePricing st !! code) as [p|] eqn:Hp; cbn [fst snd]; [|done].
    split; [done|]. split; [apply rememberPricing_store | by apply rememberPricing_coherent].
Qed.

(** X11. While the cache is coherent with the store, [getPrice] returns
    exactly the store's entry for the code when that entry exists and is
    active, and null otherwise - whether or not the answer came from the
    cache; it never throws, never changes the pricing table, and leaves
    the cache coherent.  [getPriceKobo] is that entry's price, or 0. *)
Theorem X11_lookup_reports_the_store code now st :
  coherent st →
  let r := run (getPrice code now) st in
  r.1 = Ok (activePricing st code)
  ∧ servicePricing r.2 = servicePricing st
  ∧ coherent r.2
  ∧ (∀ p, r.1 = Ok (Some p) ↔ servicePricing st !! code = Some p ∧ isActive p = true)
  ∧ (run (getPriceKobo code now) st).1
      = Ok (match activePricing st code with Some p => sp_priceKobo p | None => 0 end).
Proof.
  intros Hco. destruct (getPrice_reports code now st Hco) as (H1 & H2 & H3).
  cbn zeta. split; [done|]. split; [done|]. split; [done|]. split.
  - intros p. rewrite H1. unfold activePricing.
    destruct (servicePricing st !! code) as [q|]; [|split; [done | by intros [? _]]].
    destruct (isActive q) eqn:Hq; split.
    + by intros [= ->].
    + by intros [[= ->] _].
    + done.
    + intros [[= ->] ?]. congruence.
  - unfold getPriceKobo. rewrite run_bind.
    destruct (run (getPrice code now) st) as [o st'] eqn:E. cbn in H1. subst o. done.
Qed.

Lemma X11_lookup_reports_the_store_witness :
  let entry (code name : string) (price : Z) (active : bool) :=
    {| sp_id := "price_" +:+ code;
       sp_data := mkPricingData code name price "NGN" None active;
       sp_createdAt := 0; sp_updatedAt := 0 |} in
  let st :=
    {| servicePricing :=
         {[ "name-search" := entry "name-search" "CAC Name Search" 10000 true;
            "bvn-basic" := entry "bvn-basic" "BVN Basic Verification" 10000 false;
            "passport-verification" := entry "passport-verification" "Passport Verification"
                                         15000 true ]};
       pricingCache :=
         Some {[ "name-search" := entry "name-search" "CAC Name Search" 10000 true;
                 "bvn-basic" := entry "bvn-basic" "BVN Basic Verification" 10000 false ]};
       cacheLastUpdated := Some 1000 |} in
  coherent st
  ∧ cacheAnswer "name-search" 2000 st
      = Some (Some (entry "name-search" "CAC Name Search" 10000 true))
  ∧ (run (getPrice "name-search" 2000) st).1
      = Ok (Some (entry "name-search" "CAC Name Search" 10000 true))
  ∧ (run (getPriceKobo "name-search" 2000) st).1 = Ok 10000
  ∧ cacheAnswer "bvn-basic" 2000 st = Some None
  ∧ (run (getPriceKobo "bvn-basic" 2000) st).1 = Ok 0
  ∧ cacheAnswer "passport-verification" 2000 st = None
  ∧ (run (getPriceKobo "passport-verification" 2000) st).1 = Ok 15000
  ∧ (run (getPriceKobo "nin" 2000) st).1 = Ok 0.
Proof.
  intros entry st.
  assert (coherent st) as Hco.
  { intros cache [= <-] code p Hp.
    apply lookup_insert_Some in Hp as [[<- <-]|[_ Hp]]; [reflexivity|].
    apply lookup_singleton_Some in Hp as [<- <-]. reflexivity. }
  split; [exact Hco|].
  split; [reflexivity|].
  split.
  { destruct (X11_lookup_reports_the_store "name-search" 2000 st Hco) as (H & _). exact H. }
  split.
  { destruct (X11_lookup_reports_the_store "name-search" 2000 st Hco) as (_ & _ & _ & _ & H).
    exact H. }
  split; [reflexivity|].
  split.
  { destruct (X11_lookup_reports_the_store "bvn-basic" 2000 st Hco) as (_ & _ & _ & _ & H).
    exact H. }
  split; [reflexivity|].
  split.
  { destruct (X11_lookup_reports_the_store "passport-verification" 2000 st Hco)
      as (_ & _ & _ & _ & H).
    exact H. }
  destruct (X11_lookup_reports_the_store "nin" 2000 st Hco) as (_ & _ & _ & _ & H).
  exact H.
Defined.

(** X12. Once the cache is older than five minutes - or when there is
    none - [getPrice] asks the store, whatever the cache holds: it
    returns the store's active entry.  It writes the entry it fetched
    into an existing cache without renewing [cacheLastUpdated], so an
    expired cache stays expired. *)
Theorem X12_expired_cache_is_bypassed code now st :
  (pricingCache st = None ∨ cacheLastUpdated st = None
   ∨ ∃ updated, cacheLastUpdated st = Some updated ∧ now - updated >= CACHE_TTL_MS) →
  let r := run (getPrice code now) st in
  r.1 = Ok (activePricing st code)
  ∧ (is_Some (pricingCache st) → cacheLastUpdated r.2 = cacheLastUpdated st).
Proof.
  intros Hexp. cbn zeta. rewrite getPrice_run.
  assert (cacheAnswer code now st = None) as ->.
  { unfold cacheAnswer. destruct (pricingCache st) as [cache|]; [|done].
    destruct (cacheLastUpdated st) as [t|]; [|done].
    destruct Hexp as [?|[?|(u & [= ->] & Hage)]]; [done | done |].
    destruct (Z.ltb_spec (now - u) CACHE_TTL_MS); [lia | done]. }
  unfold activePricing.
  destruct (servicePricing st !! code) as [p|]; cbn [fst snd]; [|done].
  split; [done|]. intros [cache Hcache]. unfold rememberPricing. by rewrite Hcache.
Qed.

Lemma X12_expired_cache_is_bypassed_witness :
  let stale :=
    {| servicePricing := ∅;
       pricingCache := Some {[ "name-search" :=
         {| sp_id := "price_x"; sp_data := mkPricingData "name-search" "CAC Name Search" 10000
                                              "NGN" None true;
            sp_createdAt := 0; sp_updatedAt := 0 |} ]};
       cacheLastUpdated := Some 0 |} in
  (run (getPrice "name-search" 299999) stale).1 ≠ Ok None
  ∧ (run (getPrice "name-search" 300000) stale).1 = Ok None.
Proof.
  intros stale. split; [vm_compute; discriminate|].
  apply (X12_expired_cache_is_bypassed "name-search" 300000 stale).
  right. right. exists 0. split; [reflexivity | vm_compute; discriminate].
Defined.

(** ** The operations of the pricing service and the cache *)

Lemma updatePrice_run code updates now st :
  run (updatePrice code updates now) st =
    match (servicePricing st !! code : option ServicePricing) with
    | None => (Throw (PlainError "Service pricing not found"), st)
    | Some p =>
        (Ok (applyPricingUpdates p updates now),
         {| servicePricing := <[code := applyPricingUpdates p updates now]> (servicePricing st);
            pricingCache := None; cacheLastUpdated := cacheLastUpdated st |})
    end.
Proof.
  unfold updatePrice, updateServicePricing. cbn [bind await run].
  by destruct (servicePricing st !! code).
Qed.

Lemma seedOne_run draws created skipped d st :
  run (seedOne draws (created, skipped) d) st =
    match (servicePricing st !! sp_serviceCode d : option ServicePricing) with
    | Some _ => (Ok (created, S skipped), st)
    | None =>
        (Ok (S created, skipped),
         {| servicePricing :=
              <[sp_serviceCode d :=
                  {| sp_id := "price_" +:+ randomId (draws (sp_serviceCode d));
                     sp_data := {| sp_serviceCode := sp_serviceCode d;
                                   serviceName := serviceName d;
                                   sp_priceKobo := sp_priceKobo d;
                                   currency := currency d;
                                   sp_description := sp_description d;
                                   isActive := true |};
                     sp_createdAt := clock (draws (sp_serviceCode d));
                     sp_updatedAt := clock (draws (sp_serviceCode d)) |}]> (servicePricing st);
            pricingCache := pricingCache st; cacheLastUpdated := cacheLastUpdated st |})
    end.
Proof.
  unfold seedOne, getServicePricing, createServicePricing. cbn [bind await try_catch run].
  by destruct (servicePricing st !! sp_serviceCode d).
Qed.

(** The seeding loop on any list of defaults. *)
Lemma seedLoop_run draws l :
  ∀ created skipped st,
  ∃ created' skipped' st',
    run (seedLoop draws (created, skipped) l) st = (Ok (created', skipped'), st')
    ∧ (created' + skipped' = created + skipped + length l)%nat
    ∧ pricingCache st' = pricingCache st ∧ cacheLastUpdated st' = cacheLastUpdated st
    ∧ (∀ code (p : ServicePricing),
         servicePricing st !! code = Some p → servicePricing st' !! code = Some p)
    ∧ (∀ d, d ∈ l → is_Some (servicePricing st' !! sp_serviceCode d))
    ∧ (∀ code, code ∉ sp_serviceCode <$> l → servicePricing st' !! code = servicePricing st !! code)
    ∧ (keyed st → keyed st')
    ∧ ((∀ d, d ∈ l → is_Some (servicePricing st !! sp_serviceCode d)) →
       created' = created ∧ st' = st).
Proof.
  induction l as [|d l IH]; intros created skipped st.
  - exists created, skipped, st. cbn. split; [done|]. split; [lia|].
    repeat split; try done. intros ? H. by apply elem_of_nil in H.
  - cbn [seedLoop]. rewrite run_bind, seedOne_run.
    destruct (servicePricing st !! sp_serviceCode d) as [p0|] eqn:Hd.
    + destruct (IH created (S skipped) st)
        as (c' & s' & st' & Hrun & Hsum & Hca & Hcu & Hkeep & Hall & Hother & Hkeyed & Hagain).
      exists c', s', st'. split; [done|]. split; [cbn; lia|]. split; [done|]. split; [done|].
      split; [done|]. split; [|split; [|split]].
      * intros d' [->|Hin]%elem_of_cons; [|by apply Hall]. rewrite (Hkeep _ _ Hd). eauto.
      * intros code Hcode. apply Hother. intros Hin. apply Hcode. cbn. by right.
      * done.
      * intros Hsome. apply Hagain. intros d' Hd'. apply Hsome. by right.
    + match goal with |- context [run _ ?s] => set (st1 := s) end.
      destruct (IH (S created) skipped st1)
        as (c' & s' & st' & Hrun & Hsum & Hca & Hcu & Hkeep & Hall & Hother & Hkeyed & Hagain).
      exists c', s', st'. split; [done|]. split; [cbn; lia|]. split; [done|]. split; [done|].
      split; [|split; [|split; [|split]]].
      * intros code p Hp. apply Hkeep. unfold st1. cbn.
        rewrite lookup_insert_ne; [done | congruence].
      * intros d' [->|Hin]%elem_of_cons; [|by apply Hall].
        erewrite Hkeep; [eauto|]. unfold st1. cbn. apply lookup_insert_eq.
      * intros code Hcode. rewrite Hother.
        -- unfold st1. cbn. rewrite lookup_insert_ne; [done|].
           intros <-. apply Hcode. cbn. by left.
        -- intros Hin. apply Hcode. cbn. by right.
      * intros Hk. apply Hkeyed. intros code p. unfold st1. cbn.
        destruct (decide (sp_serviceCode d = code)) as [<-|Hne].
        -- rewrite lookup_insert_eq. by intros [= <-].
        -- rewrite lookup_insert_ne by done. apply Hk.
      * intros Hsome. destruct (Hsome d ltac:(by left)) as [? ?]. congruence.
Qed.

Lemma knownServiceCodes_are_the_defaults :
  PricingService.knownServiceCodes = sp_serviceCode <$> DEFAULT_PRICING.
Proof. reflexivity. Qed.

(** X13. [seedDefaultPricing] never fails and reports [created] and
    [skipped] adding up to the eight defaults.  Afterwards every service
    code that [getServiceCodeFromEndpoint] knows has an entry; entries
    that existed are kept as they were (seeding never overwrites a
    price), codes outside the defaults are untouched, and the cache is
    dropped.  Seeding again creates nothing. *)
Theorem X13_seeding_defaults draws st :
  ∃ created skipped st',
    run (seedDefaultPricing draws) st = (Ok (created, skipped), st')
    ∧ (created + skipped = 8)%nat
    ∧ pricingCache st' = None
    ∧ (∀ code, code ∈ PricingService.knownServiceCodes → is_Some (servicePricing st' !! code))
    ∧ (∀ code (p : ServicePricing),
         servicePricing st !! code = Some p → servicePricing st' !! code = Some p)
    ∧ (∀ code, code ∉ PricingService.knownServiceCodes →
         servicePricing st' !! code = servicePricing st !! code)
    ∧ (keyed st → keyed st')
    ∧ ∀ draws', ∃ st'',
        run (seedDefaultPricing draws') st' = (Ok (0, 8)%nat, st'')
        ∧ servicePricing st'' = servicePricing st'.
Proof.
  unfold seedDefaultPricing.
  destruct (seedLoop_run draws DEFAULT_PRICING 0%nat 0%nat st)
    as (c & s & st1 & Hrun & Hsum & Hca & Hcu & Hkeep & Hall & Hother & Hkeyed & _).
  rewrite run_bind, Hrun. cbn [bind sync run setCache].
  do 3 eexists. split; [reflexivity|]. cbn [pricingCache servicePricing].
  split; [exact Hsum|]. split; [done|].
  assert (∀ code, code ∈ PricingService.knownServiceCodes → is_Some (servicePricing st1 !! code))
    as Hknown.
  { intros code Hin. rewrite knownServiceCodes_are_the_defaults in Hin.
    apply list_elem_of_fmap in Hin as (d & -> & Hd). by apply Hall. }
  split; [done|]. split; [done|].
  split; [intros code Hcode; apply Hother; by rewrite <- knownServiceCodes_are_the_defaults|].
  split; [intros Hk code p; apply (Hkeyed Hk)|].
  intros draws'.
  match goal with |- context [run _ ?s] => set (st2 := s) end.
  destruct (seedLoop_run draws' DEFAULT_PRICING 0%nat 0%nat st2)
    as (c' & s' & st3 & Hrun' & Hsum' & _ & _ & _ & _ & _ & _ & Hagain).
  destruct Hagain as [-> ->].
  { intros d Hd. unfold st2. cbn. apply Hall, Hd. }
  rewrite run_bind, Hrun'. cbn [bind sync run setCache].
  eexists. split; [|reflexivity]. cbn in Hsum'. by replace s' with 8%nat by lia.
Qed.

Lemma X13_seeding_defaults_witness :
  ∃ st', run (seedDefaultPricing seedDraws) emptyPricing = (Ok (8, 0)%nat, st')
         ∧ (run (getPriceKobo "company-registration" 1000) st').1 = Ok 9000000
         ∧ is_Some (servicePricing st' !! "bvn-basic").
Proof.
  destruct (X13_seeding_defaults seedDraws emptyPricing)
    as (created & skipped & st' & Hrun & _ & _ & Hknown & _).
  assert (∃ st0, run (seedDefaultPricing seedDraws) emptyPricing = (Ok (8, 0)%nat, st0)
                 ∧ (run (getPriceKobo "company-registration" 1000) st0).1 = Ok 9000000)
    as (st0 & Hrun0 & Hprice) by (eexists; vm_compute; split; reflexivity).
  rewrite Hrun0 in Hrun. injection Hrun as <- <- <-.
  exists st0. split; [exact Hrun0|]. split; [exact Hprice|].
  apply Hknown. apply (bool_decide_unpack _). vm_compute. exact I.
Defined.

Lemma coherent_without_cache st : pricingCache st = None → coherent st.
Proof. intros H cache Hc. congruence. Qed.

Lemma listPricing_cache localeSort activeOnly now st cache code (p : ServicePricing) :
  (∀ l, localeSort l ≡ₚ l) → keyed st →
  pricingCache (run (listPricing localeSort activeOnly now) st).2 = Some cache →
  cache !! code = Some p →
  servicePricing (run (listPricing localeSort activeOnly now) st).2 !! code = Some p.
Proof.
  intros Hperm Hk. unfold listPricing, listServicePricing. cbn. intros [= <-] Hp.
  apply elem_of_list_to_map_2 in Hp.
  apply list_elem_of_fmap in Hp as (q & [= -> ->] & Hq).
  rewrite elem_of_reverse, Hperm in Hq.
  assert (q ∈ (map_to_list (servicePricing st)).*2) as Hin.
  { destruct activeOnly; [|done]. apply list_elem_of_In, List.filter_In in Hq as [Hq _].
    by apply list_elem_of_In. }
  apply list_elem_of_fmap in Hin as ([k q'] & -> & Hin). cbn.
  apply elem_of_map_to_list in Hin. by rewrite (Hk k q' Hin).
Qed.

(** Every operation of the pricing service keeps the store keyed and
    the cache coherent. *)
Lemma applyPricingOp_keeps localeSort op st :
  (∀ l, localeSort l ≡ₚ l) → keyed st → coherent st →
  keyed (applyPricingOp localeSort st op) ∧ coherent (applyPricingOp localeSort st op).
Proof.
  intros Hperm Hk Hco. destruct op as [code now|activeOnly now|code updates now|d e|code| |draws];
    cbn [applyPricingOp].
  - destruct (getPrice_reports code now st Hco) as (_ & Hsame & Hco').
    split; [|done]. intros k p. rewrite Hsame. apply Hk.
  - split.
    + intros k p. unfold listPricing, listServicePricing. cbn. apply Hk.
    + intros cache Hcache k p Hp. by eapply listPricing_cache.
  - rewrite updatePrice_run. destruct (servicePricing st !! code) as [p|] eqn:Hp; [|done].
    cbn [snd]. split; [|by apply coherent_without_cache].
    intros k q. cbn. destruct (decide (code = k)) as [<-|Hne].
    + rewrite lookup_insert_eq. intros [= <-]. cbn. by apply Hk.
    + rewrite lookup_insert_ne by done. apply Hk.
  - unfold createPricing, createServicePricing. cbn.
    split; [|by apply coherent_without_cache].
    intros k q. cbn. destruct (decide (sp_serviceCode d = k)) as [<-|Hne].
    + rewrite lookup_insert_eq. by intros [= <-].
    + rewrite lookup_insert_ne by done. apply Hk.
  - unfold deletePricing, deleteServicePricing. cbn.
    split; [|by apply coherent_without_cache].
    intros k q. cbn. intros Hq. apply lookup_delete_Some in Hq as [_ Hq]. by apply Hk.
  - unfold invalidateCache. cbn. split; [done | by apply coherent_without_cache].
  - unfold seedDefaultPricing.
    destruct (seedLoop_run draws DEFAULT_PRICING 0%nat 0%nat st)
      as (c & s & st1 & Hrun & _ & _ & _ & _ & _ & _ & Hkeyed & _).
    rewrite run_bind, Hrun. cbn [bind sync run setCache snd].
    split; [intros k p; apply (Hkeyed Hk) | by apply coherent_without_cache].
Qed.

(** X14. The cache never goes stale through the pricing service.  From
    a state whose cache is coherent with the store (no cache at all, for
    one), after any sequence of [getPrice], [listPricing], [updatePrice],
    [createPricing], [deletePricing], [invalidateCache] and
    [seedDefaultPricing] - [localeCompare] ordering the listings in any
    way - the cache is still coherent, so the next [getPrice] returns
    the store's current active entry at any time. *)
Theorem X14_cache_never_stale localeSort ops st :
  (∀ l, localeSort l ≡ₚ l) → keyed st → coherent st →
  let st' := foldl (applyPricingOp localeSort) st ops in
  keyed st' ∧ coherent st'
  ∧ ∀ code now,
      (run (getPrice code now) st').1 = Ok (activePricing st' code)
      ∧ (run (getPriceKobo code now) st').1
          = Ok (match activePricing st' code with Some p => sp_priceKobo p | None => 0 end).
Proof.
  intros Hperm. revert st. induction ops as [|op ops IH]; intros st Hk Hco; cbn [foldl].
  - split; [done|]. split; [done|]. intros code now.
    destruct (getPrice_reports code now st Hco) as (H1 & _ & _).
    split; [done|]. unfold getPriceKobo. rewrite run_bind.
    destruct (run (getPrice code now) st) as [o st1]. cbn in H1. by subst o.
  - destruct (applyPricingOp_keeps localeSort op st Hperm Hk Hco) as [Hk' Hco'].
    by apply IH.
Qed.

Lemma X14_cache_never_stale_witness :
  let ops := [ OpSeedDefaultPricing seedDraws;
               OpGetPrice "name-search" 1000;
               OpListPricing false 2000;
               OpUpdatePrice "name-search" (mkPricingUpdates (Some 25000) None None None) 3000 ] in
  let st' := foldl (applyPricingOp (λ l, l)) emptyPricing ops in
  (run (getPriceKobo "name-search" 3001) st').1 = Ok 25000.
Proof.
  intros ops st'.
  assert (∀ l : list ServicePricing, (λ l, l) l ≡ₚ l) as Hperm by done.
  assert (keyed emptyPricing) as Hk by (intros code p H; cbn in H; by rewrite lookup_empty in H).
  assert (coherent emptyPricing) as Hco by (intros cache [=]).
  destruct (X14_cache_never_stale (λ l, l) ops emptyPricing Hperm Hk Hco) as (_ & _ & H).
  destruct (H "name-search" 3001) as [_ Hprice].
  fold st' in Hprice. rewrite Hprice. vm_compute. reflexivity.
Defined.

(** * Properties of the pre-check middleware *)

Import WalletAffordability WalletGate.

Lemma run_settle {S A} (p : Async S A) (s : S) :
  run (settle p) s = (Ok (run p s).1, (run p s).2).
Proof.
  unfold settle. rewrite run_try_catch, run_bind.
  by destruct (run p s) as [[a|e] s'].
Qed.

Lemma getPriceKobo_run code now st :
  run (getPriceKobo code now) st =
    (Ok (match (run (getPrice code now) st).1 with
         | Ok (Some p) => sp_priceKobo p
         | _ => 0
         end), (run (getPrice code now) st).2).
Proof.
  unfold getPriceKobo. rewrite run_bind.
  assert (∃ r, (run (getPrice code now) st).1 = Ok r) as [r Hr].
  { rewrite getPrice_run. destruct (cacheAnswer code now st); [eauto|].
    destruct (servicePricing st !! code); eauto. }
  destruct (run (getPrice code now) st) as [o st']. cbn in *. subst o. by destruct r.
Qed.

(** Under a coherent cache a price lookup answers with the store's
    price and leaves a coherent cache over the same table. *)
Lemma getPriceKobo_coherent code now st :
  coherent st →
  ∃ st', run (getPriceKobo code now) st = (Ok (priceOf st code), st')
         ∧ servicePricing st' = servicePricing st ∧ coherent st'.
Proof.
  intros Hco. destruct (getPrice_reports code now st Hco) as (H1 & H2 & H3).
  rewrite getPriceKobo_run, H1. unfold priceOf. eauto.
Qed.

Lemma priceOf_same_table st st' code :
  servicePricing st' = servicePricing st → priceOf st' code = priceOf st code.
Proof. unfold priceOf, activePricing. by intros ->. Qed.

Lemma canAffordService_run cid code now b :
  run (canAffordService cid code now) b =
    let price := run (getPriceKobo code now) (pricing b) in
    (match customers (ledger b) !! cid, price.1 with
     | Some c, Ok serviceCost =>
         Ok {| canAfford := walletBalance c >=? serviceCost;
               af_balance := formatBalance cid (walletBalance c);
               serviceCost := serviceCost;
               shortfall := if walletBalance c >=? serviceCost then 0
                            else serviceCost - walletBalance c |}
     | None, Ok _ => Throw (WalletNotFoundError cid)
     | _, Throw e => Throw e
     end, setPricing price.2 b).
Proof.
  unfold canAffordService. rewrite run_bind, run_settle.
  rewrite (run_lift ledger setLedger) by (try done; by intros []).
  rewrite getBalance_run. cbn [fst snd bind].
  assert (setLedger (ledger b) b = b) as -> by (by destruct b).
  rewrite run_bind, (run_lift pricing setPricing) by (try done; by intros []).
  destruct (run (getPriceKobo code now) (pricing b)) as [[cost|e] st'] eqn:E; cbn [fst snd].
  - by destruct (customers (ledger b) !! cid).
  - rewrite getPriceKobo_run in E. discriminate.
Qed.

Ltac lens := try done; try (by intros []); try (by intros [] []).

Lemma gate_price_lookup code now g :
  run (lift g_pricing setGatePricing (getPriceKobo code now)) g =
    ((run (getPriceKobo code now) (g_pricing g)).1,
     setGatePricing (run (getPriceKobo code now) (g_pricing g)).2 g).
Proof. apply run_lift; lens. Qed.

Lemma gate_affordability cid code now g :
  run (lift gateBackend setGateBackend (canAffordService cid code now)) g =
    ((run (canAffordService cid code now) (gateBackend g)).1,
     setGateBackend (run (canAffordService cid code now) (gateBackend g)).2 g).
Proof.
  apply run_lift.
  - intros [[] ? ? ? ?]. done.
  - intros [] [[] ? ? ? ?]. done.
  - intros [] [] [[] ? ? ? ?]. done.
Qed.

Lemma gateLog_run type message g :
  run (gateLog type message) g =
    (Ok tt, setGateWorld (WalletMiddleware.writeLine (WalletLog type message) (g_world g)).2 g).
Proof.
  unfold gateLog. rewrite (run_lift g_world setGateWorld) by lens. done.
Qed.

Lemma getPriceKobo_store code now st :
  ∃ price st', run (getPriceKobo code now) st = (Ok price, st')
               ∧ servicePricing st' = servicePricing st.
Proof.
  rewrite getPriceKobo_run. do 2 eexists. split; [reflexivity|].
  rewrite getPrice_run. destruct (cacheAnswer code now st); [done|].
  destruct (servicePricing st !! code); [apply rememberPricing_store | done].
Qed.

(** X15. [checkWalletBalance] never throws (a failure inside is
    answered with status 500), never writes to the ledger or to the
    pricing table, and never touches the [hasCharged] flag.  On a
    request that has not been answered yet it does exactly one of two
    things: it calls [next()] and sends nothing, or it sends a response
    with status 401, 402 or 500 and does not call [next()]. *)
Theorem X15_pre_check_is_safe now g :
  g_reply g = None → g_next g = false →
  let r := run (checkWalletBalance now) g in
  r.1 = Ok tt
  ∧ db (g_world r.2) = db (g_world g)
  ∧ servicePricing (g_pricing r.2) = servicePricing (g_pricing g)
  ∧ hasCharged (g_world r.2) = hasCharged (g_world g)
  ∧ ((g_next r.2 = true ∧ g_reply r.2 = None)
     ∨ (g_next r.2 = false
        ∧ ∃ reply, g_reply r.2 = Some reply
            ∧ statusCode (g_world r.2) = reply_status reply
            ∧ (reply_status reply = 401 ∨ reply_status reply = 402 ∨ reply_status reply = 500))).
Proof.
  intros Hreply Hnext. cbn zeta.
  unfold checkWalletBalance. rewrite run_try_catch. cbn [bind sync run].
  destruct (req_customer (req (g_world g))) as [customer|].
  2:{ cbn. rewrite Hnext. repeat split; try done. right. split; [done|]. eexists. eauto. }
  destruct (getServiceCodeFromRequest g) as [code|].
  2:{ rewrite run_bind, gateLog_run. cbn. rewrite Hreply. repeat split; try done. by left. }
  destruct (String.eqb code "").
  { rewrite run_bind, gateLog_run. cbn. rewrite Hreply. repeat split; try done. by left. }
  destruct (getPriceKobo_store code now (g_pricing g)) as (price & st1 & Hp1 & Hs1).
  rewrite run_bind, gate_price_lookup, Hp1. cbn [fst snd].
  destruct (price =? 0).
  { rewrite run_bind. cbn [storeContext sync run]. rewrite run_bind, gateLog_run.
    cbn. rewrite Hreply. repeat split; try done. by left. }
  destruct (getPriceKobo_store code now st1) as (price2 & st2 & Hp2 & Hs2).
  rewrite run_bind, gate_affordability, canAffordService_run.
  cbn [gateBackend pricing ledger setGatePricing g_pricing g_world fst snd].
  rewrite Hp2. cbn [fst snd].
  destruct (customers (db (g_world g)) !! cust_id customer) as [c|].
  2:{ rewrite run_bind, gateLog_run. cbn. rewrite Hnext.
      split; [done|]. split; [done|]. split; [congruence|]. split; [done|].
      right. split; [done|]. eexists. eauto 10. }
  rewrite run_bind, gateLog_run. cbn [fst snd canAfford].
  destruct (walletBalance c >=? price2); cbn.
  - rewrite Hreply. split; [done|]. split; [done|]. split; [congruence|]. split; [done|]. by left.
  - rewrite Hnext. split; [done|]. split; [done|]. split; [congruence|]. split; [done|].
    right. split; [done|]. eexists. eauto 10.
Qed.

(** X16. What [checkWalletBalance] decides for an authenticated request
    whose endpoint resolves to a service code, the pricing cache being
    coherent.  With no active price for the code the request is let
    through as free.  With a price, the request is let through exactly
    when the stored balance covers it, and the wallet context records
    the code, the price and that balance, not yet charged; otherwise it
    is answered with 402 [INSUFFICIENT_BALANCE], carrying the balance,
    the cost and their difference as shortfall, and no wallet context is
    set.  A customer missing from the store is answered with 500. *)
Theorem X16_pre_check_decision now g customer code :
  req_customer (req (g_world g)) = Some customer →
  getServiceCodeFromRequest g = Some code → code ≠ "" →
  coherent (g_pricing g) →
  let price := priceOf (g_pricing g) code in
  let g' := (run (checkWalletBalance now) g).2 in
  (price = 0 →
     g_next g' = true ∧ g_reply g' = g_reply g
     ∧ walletContext (req (g_world g'))
         = Some (mkContext code 0 (walletBalance customer) false None None))
  ∧ (price ≠ 0 → ∀ c, customers (db (g_world g)) !! cust_id customer = Some c →
       (walletBalance c >= price →
          g_next g' = true ∧ g_reply g' = g_reply g
          ∧ walletContext (req (g_world g'))
              = Some (mkContext code price (walletBalance c) false None None))
       ∧ (walletBalance c < price →
          g_next g' = g_next g
          ∧ g_reply g'
              = Some (mkReply 402 "INSUFFICIENT_BALANCE"
                        (Some (mkDetails (naira (walletBalance c)) (naira price)
                                         (naira (price - walletBalance c)) code)))
          ∧ walletContext (req (g_world g')) = walletContext (req (g_world g))))
  ∧ (price ≠ 0 → customers (db (g_world g)) !! cust_id customer = None →
       g_next g' = g_next g
       ∧ g_reply g' = Some (mkReply 500 "WALLET_CHECK_ERROR" None)).
Proof.
  intros Hcust Hcode Hne Hco. cbn zeta.
  destruct (getPriceKobo_coherent code now (g_pricing g) Hco) as (st1 & Hp1 & Hsame1 & Hco1).
  destruct (getPriceKobo_coherent code now st1 Hco1) as (st2 & Hp2 & Hsame2 & Hco2).
  rewrite (priceOf_same_table _ _ code Hsame1) in Hp2.
  unfold checkWalletBalance. rewrite run_try_catch. cbn [bind sync run].
  rewrite Hcust, Hcode.
  destruct (String.eqb_spec code ""); [done|].
  rewrite run_bind, gate_price_lookup, Hp1. cbn [fst snd].
  destruct (Z.eqb_spec (priceOf (g_pricing g) code) 0) as [Hzero|Hpos].
  { split; [|split; intros; done]. intros _.
    rewrite run_bind. cbn [storeContext sync run]. rewrite run_bind, gateLog_run. cbn.
    done. }
  split; [done|].
  rewrite run_bind, gate_affordability, canAffordService_run.
  cbn [gateBackend pricing ledger setGatePricing g_pricing g_world fst snd].
  rewrite Hp2. cbn [fst snd].
  split.
  - intros _ c Hc. rewrite Hc. rewrite run_bind, gateLog_run. cbn [fst snd canAfford].
    split.
    + intros Hge. destruct (Z.geb_spec (walletBalance c) (priceOf (g_pricing g) code)); [|lia].
      cbn. done.
    + intros Hlt. destruct (Z.geb_spec (walletBalance c) (priceOf (g_pricing g) code)); [lia|].
      cbn. done.
  - intros _ Hc. rewrite Hc. rewrite run_bind, gateLog_run. cbn. done.
Qed.

Lemma seededPricing_coherent : coherent seededPricing.
Proof. apply coherent_without_cache. reflexivity. Qed.

Lemma X16_pre_check_decision_witness :
  let g := sampleGate 5000 200 seededPricing in
  g_reply (run (checkWalletBalance 1000) g).2
    = Some (mkReply 402 "INSUFFICIENT_BALANCE"
              (Some (mkDetails (naira 5000) (naira 10000) (naira 5000) "name-search")))
  ∧ walletContext (req (g_world (run (checkWalletBalance 1000) g).2)) = None.
Proof.
  intros g.
  destruct (X16_pre_check_decision 1000 g (seedCustomer 5000) "name-search" eq_refl eq_refl
              ltac:(discriminate) seededPricing_coherent) as (_ & H & _).
  destruct (H ltac:(vm_compute; discriminate) (seedCustomer 5000) eq_refl) as [_ Hblocked].
  destruct (Hblocked ltac:(vm_compute; reflexivity)) as (_ & Hreply & Hctx).
  split; [exact Hreply | exact Hctx].
Defined.

Lemma X15_pre_check_is_safe_witness :
  let g := sampleGate 5000 200 seededPricing in
  (run (checkWalletBalance 1000) g).1 = Ok tt
  ∧ db (g_world (run (checkWalletBalance 1000) g).2) = seedDb 5000.
Proof.
  intros g.
  destruct (X15_pre_check_is_safe 1000 g eq_refl eq_refl) as (H1 & H2 & _).
  split; [exact H1 | exact H2].
Defined.

(** ** The pre-check followed by the charge *)

(** X17. A priced request that [checkWalletBalance] lets through is
    charged by the post-check stage: when the response status is 2xx,
    nothing else has touched the account, and the generated reference is
    unused, [processCharge] succeeds, the stored balance drops by exactly
    the price the pre-check resolved, and the wallet context is marked
    charged with the id of the transaction. *)
Theorem X17_checked_request_is_charged now g customer c code httpStatus e :
  req_customer (req (g_world g)) = Some customer →
  getServiceCodeFromRequest g = Some code → code ≠ "" →
  coherent (g_pricing g) →
  customers (db (g_world g)) !! cust_id customer = Some c →
  hasCharged (g_world g) = false →
  let price := priceOf (g_pricing g) code in
  price ≠ 0 → walletBalance c >= price →
  200 ≤ httpStatus < 300 →
  byReference (generateReference debit_t (Some code) e) (db (g_world g)) = None →
  let g' := (run (checkWalletBalance now) g).2 in
  let w := WalletMiddleware.invoke (g_world g') (httpStatus, e) in
  g_next g' = true
  ∧ balanceOf (db w) (cust_id customer) = Some (walletBalance c - price)
  ∧ walletContext (req w)
      = Some (mkContext code price (walletBalance c) true (Some ("txn_" +:+ randomId e)) None)
  ∧ ∃ T, txnOf (db w) ("txn_" +:+ randomId e) = Some T
         ∧ amount T = price ∧ status T = completed ∧ txn_type T = debit_t
         ∧ balanceBefore T = walletBalance c.
Proof.
  intros Hcust Hcode Hne Hco Hc Hhc price Hprice Hge Hstatus Hr. subst price.
  (* the world the pre-check leaves *)
  destruct (getPriceKobo_coherent code now (g_pricing g) Hco) as (st1 & Hp1 & Hsame1 & Hco1).
  destruct (getPriceKobo_coherent code now st1 Hco1) as (st2 & Hp2 & Hsame2 & Hco2).
  rewrite (priceOf_same_table _ _ code Hsame1) in Hp2.
  cbn zeta. unfold checkWalletBalance. rewrite run_try_catch. cbn [bind sync run].
  rewrite Hcust, Hcode.
  destruct (String.eqb_spec code ""); [done|].
  rewrite run_bind, gate_price_lookup, Hp1. cbn [fst snd].
  destruct (Z.eqb_spec (priceOf (g_pricing g) code) 0) as [|_]; [done|].
  rewrite run_bind, gate_affordability, canAffordService_run.
  cbn [gateBackend pricing ledger setGatePricing g_pricing g_world fst snd].
  rewrite Hp2. cbn [fst snd]. rewrite Hc. rewrite run_bind, gateLog_run. cbn [fst snd canAfford].
  destruct (Z.geb_spec (walletBalance c) (priceOf (g_pricing g) code)); [|lia].
  cbn [negb bind storeContext next sync run fst snd setGateWorld setGateBackend g_world g_next
       WalletMiddleware.writeLine WalletMiddleware.setDb db req statusCode hasCharged console
       ledger setPricing pricing].
  split; [done|].
  (* the charge *)
  unfold WalletMiddleware.invoke. cbn [fst snd db req hasCharged console].
  unfold WalletMiddleware.processCharge. cbn [bind sync run hasCharged req walletContext charged
    priceKobo req_customer statusCode serviceCode].
  cbn [g_world setGatePricing g_pricing balanceKobo af_balance formatBalance].
  rewrite Hhc, Hcust.
  destruct (Z.eqb_spec (priceOf (g_pricing g) code) 0) as [|_]; [done|].
  destruct (Z.ltb_spec httpStatus 200); [lia|].
  destruct (Z.geb_spec httpStatus 300); [lia|]. cbn [orb].
  cbn [bind sync run]. rewrite run_try_catch, run_bind, run_walletDebit.
  cbn [db WalletMiddleware.setHasCharged].
  match goal with |- context [run (debit ?i ?a ?d ?o ?en) ?s] =>
    destruct (debit_ok s i c a d o en Hc ltac:(lia) Hr)
      as (T & HT & Hid & _ & Hty & Hst & Ham & Hbb & _)
  end.
  rewrite HT. cbn [fst snd].
  cbn [run bind sync WalletMiddleware.logWalletOperation WalletMiddleware.writeLine
       WalletMiddleware.setDb WalletMiddleware.setHasCharged WalletMiddleware.setWalletContext
       db hasCharged req fst snd walletContext transaction].
  split; [apply balanceOf_updated|]. split.
  - cbn. by rewrite Hid.
  - exists T. unfold txnOf. cbn. rewrite map_get_set_eq. done.
Qed.

Lemma X17_checked_request_is_charged_witness :
  let g := sampleGate 1000000 200 seededPricing in
  let g' := (run (checkWalletBalance 1000) g).2 in
  let w := WalletMiddleware.invoke (g_world g') (200, draw 2 "b2") in
  g_next g' = true ∧ balanceOf (db w) "cust_001" = Some 990000.
Proof.
  intros g g' w.
  destruct (X17_checked_request_is_charged 1000 g (seedCustomer 1000000) (seedCustomer 1000000)
              "name-search" 200 (draw 2 "b2") eq_refl eq_refl ltac:(discriminate)
              seededPricing_coherent eq_refl eq_refl ltac:(vm_compute; discriminate)
              ltac:(vm_compute; discriminate) ltac:(lia) eq_refl) as (Hnext & Hb & _).
  split; [exact Hnext | exact Hb].
Defined.

(** ** Marking a request as not billable *)

(** X18. After [skipWalletCharge] the request goes on ([next()] is
    called) and is never charged: whatever the response status, however
    often the post-check stage runs, the ledger stays as it was. *)
Theorem X18_skipped_request_is_never_charged g calls :
  let g1 := (run skipWalletCharge g).2 in
  g_next g1 = true
  ∧ db (g_world g1) = db (g_world g)
  ∧ db (WalletMiddleware.invokeAll calls (g_world g1)) = db (g_world g).
Proof.
  cbn zeta. unfold skipWalletCharge. rewrite run_bind.
  rewrite (run_lift g_world setGateWorld) by lens. cbn [sync run fst snd bind next].
  cbn [g_next g_world setGateWorld]. split; [done|]. split; [done|].
  set (w1 := WalletMiddleware.setWalletContext skipContext (g_world g)).
  assert (∀ w, db w = db (g_world g) →
               (∀ ctx, walletContext (req w) = Some ctx → charged ctx = true) →
               db (WalletMiddleware.invokeAll calls w) = db (g_world g)) as Hall.
  { induction calls as [|[st e] calls IH]; intros w Hdb Hctx; [done|].
    unfold WalletMiddleware.invokeAll. cbn [foldl]. apply IH.
    - unfold WalletMiddleware.invoke. cbn [fst snd].
      match goal with |- db (run _ ?s).2 = _ => set (w' := s) end.
      destruct (processCharge_cases e w')
        as [(_ & H & _)|(_ & _ & _ & cu & ctx & _ & Hc & Hch & _)]; [by rewrite H|].
      cbn in Hc. rewrite (Hctx ctx Hc) in Hch. discriminate.
    - unfold WalletMiddleware.invoke. cbn [fst snd].
      match goal with |- ∀ ctx, walletContext (req (run _ ?s).2) = _ → _ => set (w' := s) end.
      destruct (processCharge_cases e w')
        as [(_ & _ & _ & H)|(_ & _ & _ & cu & ctx & _ & Hc & Hch & _)].
      + rewrite H. apply Hctx.
      + cbn in Hc. rewrite (Hctx ctx Hc) in Hch. discriminate. }
  apply Hall; [done|]. unfold w1. cbn.
  intros ctx. destruct (walletContext (req (g_world g))); [|done]. by intros [= <-].
Qed.

(** * Further properties of the service-code resolution *)

Lemma split_nonempty sep s : split sep s ≠ [].
Proof.
  destruct s as [|c s]; cbn; [done|].
  destruct (Ascii.eqb c sep); [done|]. by destruct (split sep s).
Qed.

Lemma split_head_without_sep sep s :
  occursIn sep s = false → split sep s = [s].
Proof.
  induction s as [|c s IH]; cbn; [done|].
  destruct (Ascii.eqb c sep); [done|]. cbn. intros H. by rewrite IH.
Qed.

Lemma split_head_before_sep sep s rest :
  occursIn sep s = false →
  split sep (s +:+ String sep rest) !! 0%nat = Some s.
Proof.
  induction s as [|c s IH]; simpl.
  - by rewrite Ascii.eqb_refl.
  - destruct (Ascii.eqb c sep); [done|]. simpl. intros H. specialize (IH H).
    destruct (split sep (s +:+ String sep rest)) as [|w ws]; [done|].
    cbn in *. congruence.
Qed.

Lemma split_pieces_without_sep sep s :
  Forall (λ w, occursIn sep w = false) (split sep s).
Proof.
  induction s as [|c s IH]; cbn; [by repeat constructor|].
  destruct (Ascii.eqb c sep) eqn:E; [by constructor|].
  destruct (split sep s) as [|w ws]; [repeat constructor; cbn; by rewrite E|].
  apply Forall_cons in IH as [Hw Hws]. constructor; [|done]. cbn. by rewrite E.
Qed.

(** X19. The query string plays no part: an endpoint with a query
    string resolves to the same service code as the path before the
    first question mark. *)
Theorem X19_query_string_is_ignored path query :
  occursIn "?" path = false →
  pathSegments (path +:+ String "?" query) = pathSegments path
  ∧ getServiceCodeFromEndpoint (path +:+ String "?" query) = getServiceCodeFromEndpoint path.
Proof.
  intros Hpath.
  assert (pathSegments (path +:+ String "?" query) = pathSegments path) as Hseg.
  { unfold pathSegments. rewrite (split_head_before_sep "?" path query Hpath).
    by rewrite (split_head_without_sep "?" path Hpath). }
  split; [done|]. unfold getServiceCodeFromEndpoint. by rewrite Hseg.
Qed.

Lemma X19_query_string_is_ignored_witness :
  occursIn "?" "/api/v1/business/identity/nin/123" = false
  ∧ getServiceCodeFromEndpoint "/api/v1/business/identity/nin/123?consent=/name-search"
      = getServiceCodeFromEndpoint "/api/v1/business/identity/nin/123".
Proof.
  split; [reflexivity|].
  apply (X19_query_string_is_ignored "/api/v1/business/identity/nin/123" "consent=/name-search").
  reflexivity.
Defined.

Lemma lastFallback_elem segments code : lastFallback segments = Some code → code ∈ segments.
Proof.
  unfold lastFallback. destruct (reverse segments) as [|b [|a l]] eqn:Hrev.
  - done.
  - destruct (truthy b); [|done]. intros [= <-].
    apply elem_of_reverse. rewrite Hrev. by left.
  - destruct (hasDigit b); intros [= <-]; apply elem_of_reverse; rewrite Hrev.
    + right. by left.
    + by left.
Qed.

Lemma businessFallback_elem segments code :
  businessFallback segments = Some code → code ∈ segments.
Proof.
  unfold businessFallback.
  destruct (indexOf segments "business") as [i|]; [|apply lastFallback_elem].
  destruct (_ <? _)%nat; [|apply lastFallback_elem].
  destruct (_ && _)%bool; intros H; by eapply list_elem_of_lookup_2.
Qed.

(** X20. The service code that [getServiceCodeFromEndpoint] returns is
    always one of the segments of the path itself: it is never empty and
    contains no slash, so the middleware's test for an empty service
    code can only fail on null. *)
Theorem X20_resolved_code_is_a_path_segment endpoint code :
  getServiceCodeFromEndpoint endpoint = Some code →
  code ∈ pathSegments endpoint ∧ code ≠ "" ∧ occursIn "/" code = false.
Proof.
  intros Hcode.
  assert (code ∈ pathSegments endpoint) as Hin.
  { unfold getServiceCodeFromEndpoint in Hcode.
    destruct (find _ (pathSegments endpoint)) as [seg|] eqn:Hfind.
    - injection Hcode as <-. by apply find_known_elem in Hfind as [? _].
    - by apply businessFallback_elem. }
  split; [done|]. unfold pathSegments in Hin.
  apply list_elem_of_In, List.filter_In in Hin as [Hin Htruthy]. split.
  - intros ->. done.
  - pose proof (split_pieces_without_sep "/" (default "" (split "?" endpoint !! 0%nat))) as Hall.
    rewrite Forall_forall in Hall. apply Hall. by apply list_elem_of_In.
Qed.

Lemma X20_resolved_code_is_a_path_segment_witness :
  getServiceCodeFromEndpoint "/api/v1/users/42" = Some "users"
  ∧ "users" ∈ pathSegments "/api/v1/users/42".
Proof.
  split; [reflexivity|].
  apply (X20_resolved_code_is_a_path_segment "/api/v1/users/42" "users"). reflexivity.
Defined.

(** * Affordability of a service, and a charge that fails *)

(** X21. For an existing account and a coherent pricing cache,
    [canAffordService] says yes exactly when the stored balance covers
    the store's price for the service, reports that price and balance,
    and a shortfall that is 0 on yes and the (positive) missing amount on
    no; it agrees with [hasSufficientBalance] at that price and leaves
    the ledger and the pricing table untouched. *)
Theorem X21_service_affordability cid c code now b :
  customers (ledger b) !! cid = Some c →
  coherent (pricing b) →
  let price := priceOf (pricing b) code in
  ∃ answer b',
    run (canAffordService cid code now) b = (Ok answer, b')
    ∧ ledger b' = ledger b
    ∧ servicePricing (pricing b') = servicePricing (pricing b)
    ∧ serviceCost answer = price
    ∧ balanceKobo (af_balance answer) = walletBalance c
    ∧ (canAfford answer = true ↔ walletBalance c >= price)
    ∧ shortfall answer = Z.max 0 (price - walletBalance c)
    ∧ (run (hasSufficientBalance cid price) (ledger b)).1 = Ok (canAfford answer).
Proof.
  intros Hc Hco. cbn zeta.
  destruct (getPriceKobo_coherent code now (pricing b) Hco) as (st1 & Hp & Hsame & _).
  rewrite canAffordService_run. cbn zeta. rewrite Hp, Hc. cbn [fst snd].
  do 2 eexists. split; [reflexivity|]. rewrite hasSufficientBalance_run, Hc. cbn.
  split; [done|]. split; [done|]. split; [done|]. split; [done|].
  destruct (Z.geb_spec (walletBalance c) (priceOf (pricing b) code)); repeat split; try done; lia.
Qed.

Lemma X21_service_affordability_witness :
  let b := {| ledger := seedDb 5000; pricing := seededPricing |} in
  ∃ answer b',
    run (canAffordService "cust_001" "name-search" 1000) b = (Ok answer, b')
    ∧ canAfford answer = false ∧ shortfall answer = 5000.
Proof.
  intros b.
  destruct (X21_service_affordability "cust_001" (seedCustomer 5000) "name-search" 1000 b
              eq_refl seededPricing_coherent)
    as (answer & b' & Hrun & _ & _ & _ & _ & Hiff & Hshort & _).
  exists answer, b'. split; [exact Hrun|]. split.
  - destruct (canAfford answer); [|reflexivity].
    destruct Hiff as [Hiff _]. specialize (Hiff eq_refl). vm_compute in Hiff. by destruct Hiff.
  - rewrite Hshort. vm_compute. reflexivity.
Defined.

Import WalletMiddleware.

(** X22. A charge that fails is recorded, not retried.  When the
    post-check stage reaches [debit] on a 2xx response and the stored
    balance no longer covers the price, [processCharge] returns false,
    leaves the ledger as it was, keeps the wallet context uncharged with
    the error message in [chargeError], writes an ERROR line - and, the
    [hasCharged] flag being raised, every later invocation does
    nothing. *)
Theorem X22_failed_charge_is_recorded e w customer ctx c :
  hasCharged w = false →
  walletContext (req w) = Some ctx → charged ctx = false → priceKobo ctx ≠ 0 →
  req_customer (req w) = Some customer →
  200 ≤ statusCode w < 300 →
  customers (db w) !! cust_id customer = Some c →
  walletBalance c < priceKobo ctx →
  let r := run (processCharge e) w in
  r.1 = Ok false
  ∧ db r.2 = db w
  ∧ hasCharged r.2 = true
  ∧ walletContext (req r.2)
      = Some (markChargeError "Insufficient wallet balance for transaction" ctx)
  ∧ console r.2 = (console w ++ [WalletLog ERROR "CHARGE FAILED - REQUIRES RECONCILIATION"])%list
  ∧ ∀ e', run (processCharge e') r.2 = (Ok true, r.2).
Proof.
  intros Hhc Hctx Hch Hprice Hcust Hstatus Hc Hlt. cbn zeta.
  assert (∀ w', hasCharged w' = true → ∀ e', run (processCharge e') w' = (Ok true, w')) as Hflag.
  { intros w' Hw' e'. unfold processCharge. cbn [bind sync run]. by rewrite Hw'. }
  assert (run (processCharge e) w =
            (Ok false,
             {| db := db w;
                req := {| req_customer := req_customer (req w);
                          walletContext :=
                            Some (markChargeError "Insufficient wallet balance for transaction" ctx);
                          originalUrl := originalUrl (req w);
                          method := method (req w);
                          requestId := requestId (req w) |};
                statusCode := statusCode w; hasCharged := true;
                console := console w ++ [WalletLog ERROR "CHARGE FAILED - REQUIRES RECONCILIATION"] |}))
    as Hrun.
  { unfold processCharge. cbn [bind sync run].
    rewrite Hhc, Hctx, Hch, Hcust.
    destruct (Z.eqb_spec (priceKobo ctx) 0); [done|].
    destruct (Z.ltb_spec (statusCode w) 200); [lia|].
    destruct (Z.geb_spec (statusCode w) 300); [lia|]. cbn [orb].
    cbn [bind sync run]. rewrite run_try_catch, run_bind, run_walletDebit.
    cbn [db setHasCharged].
    rewrite (debit_insufficient (db w) _ c _ _ _ _ Hc Hlt). cbn [fst snd].
    cbn [run bind sync logWalletOperation writeLine setDb setHasCharged setWalletContext
         db hasCharged req console fst snd walletContext errorMessage statusCode].
    rewrite Hctx, ?Hcust. reflexivity. }
  rewrite Hrun. cbn [fst snd db hasCharged req walletContext console].
  repeat (split; [reflexivity|]). intros e'. by apply Hflag.
Qed.

Lemma X22_failed_charge_is_recorded_witness :
  let w := sampleWorld 5000 10000 200 in
  (run (processCharge (draw 1 "a1")) w).1 = Ok false
  ∧ db (run (processCharge (draw 1 "a1")) w).2 = seedDb 5000.
Proof.
  intros w.
  destruct (X22_failed_charge_is_recorded (draw 1 "a1") w (seedCustomer 5000)
              (mkContext "name-search" 10000 5000 false None None) (seedCustomer 5000)
              eq_refl eq_refl eq_refl ltac:(discriminate) eq_refl ltac:(cbn; lia) eq_refl
              ltac:(cbn; lia)) as (H1 & H2 & _).
  split; [exact H1 | exact H2].
Defined.
